(** * Excel Data Encryptor: a shallow embedding of the hashing pipeline

    The development follows the TypeScript sources:
    - [src/services/encryptionService.ts]  ([hashValue])
    - [src/services/columnMatcher.ts]      ([normalizeColumnName],
      [findTargetColumns], [hasTargetColumns])
    - [src/services/fileGenerator.ts]      ([generateDownloadFilename])
    - [src/App.tsx]                        ([handleEncrypt])

    JavaScript strings are sequences of UTF-16 code units.  The model uses
    Rocq's [string], whose characters are the code units U+0000 to U+00FF
    (ASCII and the Latin-1 supplement); on this range [toLowerCase],
    [trim], the regular-expression class [\s] and the UTF-8 encoder are
    written out exactly as ECMAScript and the Encoding standard define
    them.  [hashValue] is also given over all sequences of UTF-16 code
    units (module [Utf16]), and the two are shown to agree.

    JavaScript numbers are binary64 floating-point values: numeric cells
    hold a primitive [float], and the arithmetic of the progress value
    rounds as IEEE 754 does. *)

From Stdlib Require Import PrimFloat.
From Stdlib Require FloatOps SpecFloat.
From Stdlib Require Import ZArith List String Ascii Bool Lia.
From stdpp Require Import base option list gmap.
From Equations Require Import Equations.
Import ListNotations.

Local Open Scope string_scope.
Local Open Scope Z_scope.

(** ** JavaScript string primitives *)

Module JsString.

Definition code (c : ascii) : Z := Z.of_nat (nat_of_ascii c).

Definition inRange (lo hi : Z) (c : ascii) : bool :=
  (lo <=? code c) && (code c <=? hi).

(** ECMAScript WhiteSpace and LineTerminator code points below U+0100:
    TAB, LF, VT, FF, CR, SPACE and NO-BREAK SPACE. *)
Definition isWhiteSpace (c : ascii) : bool :=
  inRange 9 13 c || (code c =? 32) || (code c =? 160).

(** Code units with a lowercase mapping: A-Z, and the Latin-1 capital
    letters U+00C0..U+00DE except the multiplication sign U+00D7. *)
Definition isUpperCase (c : ascii) : bool :=
  inRange 65 90 c || (inRange 192 222 c && negb (code c =? 215)).

Definition toLowerChar (c : ascii) : ascii :=
  if isUpperCase c then ascii_of_nat (nat_of_ascii c + 32) else c.

(** [String.prototype.toLowerCase] *)
Fixpoint toLowerCase (s : string) : string :=
  match s with
  | EmptyString => EmptyString
  | String c r => String (toLowerChar c) (toLowerCase r)
  end.

Fixpoint trimStart (s : string) : string :=
  match s with
  | EmptyString => EmptyString
  | String c r => if isWhiteSpace c then trimStart r else s
  end.

Definition isEmpty (s : string) : bool :=
  match s with EmptyString => true | _ => false end.

Fixpoint trimEnd (s : string) : string :=
  match s with
  | EmptyString => EmptyString
  | String c r =>
      let r' := trimEnd r in
      if isWhiteSpace c && isEmpty r' then EmptyString else String c r'
  end.

(** [String.prototype.trim] *)
Definition trim (s : string) : string := trimEnd (trimStart s).

(** [s.replace(/[cls]+/g, '')] for a character class [cls]: every maximal
    run of class members is replaced by the empty string, which removes
    exactly the members of the class. *)
Fixpoint removeAll (cls : ascii -> bool) (s : string) : string :=
  match s with
  | EmptyString => EmptyString
  | String c r => if cls c then removeAll cls r else String c (removeAll cls r)
  end.

(** [s.lastIndexOf(c)], [-1] when [c] does not occur. *)
Fixpoint lastIndexOf (c : ascii) (s : string) : Z :=
  match s with
  | EmptyString => -1
  | String d r =>
      let k := lastIndexOf c r in
      if 0 <=? k then k + 1
      else if Ascii.eqb d c then 0 else -1
  end.

Fixpoint take (n : nat) (s : string) : string :=
  match n, s with
  | S n', String c r => String c (take n' r)
  | _, _ => EmptyString
  end.

Fixpoint drop (n : nat) (s : string) : string :=
  match n, s with
  | S n', String _ r => drop n' r
  | _, _ => s
  end.

(** [s.substring(a, b)] and [s.substring(a)]: negative bounds count as
    0, bounds beyond the end as the length, and the bounds are swapped
    when [a > b]. *)
Definition clampIndex (s : string) (i : Z) : nat :=
  Z.to_nat (Z.min (Z.max i 0) (Z.of_nat (String.length s))).

Definition substring2 (s : string) (a b : Z) : string :=
  let a' := clampIndex s a in
  let b' := clampIndex s b in
  let lo := Nat.min a' b' in
  let hi := Nat.max a' b' in
  take (hi - lo) (drop lo s).

Definition substring1 (s : string) (a : Z) : string :=
  drop (clampIndex s a) s.

(** [s.padStart(n, c)] for a one-character filler. *)
Fixpoint replicate (n : nat) (c : ascii) : string :=
  match n with
  | O => EmptyString
  | S n' => String c (replicate n' c)
  end.

Definition padStart (n : nat) (c : ascii) (s : string) : string :=
  String.append (replicate (n - String.length s) c) s.

(** [x.join('')] *)
Definition join (l : list string) : string :=
  fold_right String.append EmptyString l.

(** [TextEncoder.prototype.encode] on code units below U+0100: one byte
    below U+0080, otherwise the two-byte UTF-8 form. *)
Definition utf8Char (c : ascii) : list Z :=
  let n := code c in
  if n <? 128 then [n]
  else [Z.lor 192 (Z.shiftr n 6); Z.lor 128 (Z.land n 63)].

Fixpoint utf8Encode (s : string) : list Z :=
  match s with
  | EmptyString => []
  | String c r => utf8Char c ++ utf8Encode r
  end.

(** Decimal rendering of an integer, as [String(n)] and template
    literals print integral Numbers below 1e21. *)
Definition digitChar (d : Z) : ascii := ascii_of_nat (Z.to_nat (48 + d)).

Fixpoint natDigits (fuel : nat) (n : Z) (acc : string) : string :=
  match fuel with
  | O => acc
  | S f =>
      let acc' := String (digitChar (n mod 10)) acc in
      if n <? 10 then acc' else natDigits f (n / 10) acc'
  end.

Definition intToString (n : Z) : string :=
  if n <? 0
  then String "-" (natDigits (Z.to_nat (Z.log2 (- n)) + 1) (- n) EmptyString)
  else natDigits (Z.to_nat (Z.log2 n) + 1) n EmptyString.

End JsString.

(** ** JavaScript numbers

    A Number is an IEEE 754 binary64 value, which is what Rocq's
    primitive type [float] is.  [FloatOps.Prim2SF] gives the sign, the
    mantissa [m] and the exponent [e] of a finite value [m * 2^e]. *)

Module JsNumber.
Import JsString.

(** [x.toFixed(f)] for a number [x = num / den] that is not negative and
    below 1e21, where the quotient is a Number exactly (as it is for an
    integer below 2^53 divided by a power of two): the integer [n] with
    [n / 10^f] nearest to [x], the larger one of two, printed with a
    point before its last [f] digits and padded with zeros to [f + 1]
    digits. *)
Definition toFixed (f : nat) (num den : Z) : string :=
  let n := (2 * num * 10 ^ Z.of_nat f + den) / (2 * den) in
  let m := padStart (f + 1) "0" (intToString n) in
  if (f =? 0)%nat then m
  else
    let k := String.length m in
    take (k - f) m ++ "." ++ drop (k - f) m.

(** *** Number::toString

    A decimal numeral [digits * 10^exponent], with its distance from the
    Number it is to stand for (a fraction). *)
Record Decimal : Type := MkDecimal {
  digits : Z;
  exponent : Z;
  distance : Z * Z
}.

(** The nearer of two numerals; of two equally near, the even one. *)
Definition closer (a b : Decimal) : bool :=
  let '(an, ad) := distance a in
  let '(bn, bd) := distance b in
  (an * bd <? bn * ad) || ((an * bd =? bn * ad) && Z.even (digits a)).

Definition best (cs : list Decimal) : option Decimal :=
  fold_right (fun c r => match r with
                         | Some d => if closer c d then Some c else Some d
                         | None => Some c
                         end) None cs.

(** The numerals of [k] digits with decimal exponent [j] whose Number
    value is [m * 2^e]: those in the interval that reaches half-way to
    the Number below and half-way to the Number above, with the ends
    when [m] is even (a tie goes to the even mantissa).  The Number
    below is half as far when [m] is the least mantissa of its exponent.
    Of these numerals, the nearest to [m * 2^e] on either side are
    listed.  The bounds are counted in quarters of [2^e]. *)
Definition numerals (m e k j : Z) : list Decimal :=
  let un := 2 ^ Z.max (e - 2) 0 in
  let ud := 2 ^ Z.max (2 - e) 0 in
  let tn := 10 ^ Z.max j 0 in
  let td := 10 ^ Z.max (- j) 0 in
  let below := if (m =? 2 ^ 52) && (-1074 <? e) then 1 else 2 in
  let a := tn * ud in
  let lo := (4 * m - below) * un * td in
  let hi := (4 * m + 2) * un * td in
  let v := 4 * m * un * td in
  let smin := if Z.even m then (lo + a - 1) / a else lo / a + 1 in
  let smax := if Z.even m then hi / a else (hi - 1) / a in
  let smin := Z.max smin (10 ^ (k - 1)) in
  let smax := Z.min smax (10 ^ k - 1) in
  if smax <? smin then []
  else
    let clamp s := Z.max smin (Z.min smax s) in
    map (fun s => MkDecimal s j (Z.abs (s * a - v), td))
        [clamp (v / a); clamp (v / a + 1)].

(** The integers [s], [k] and [n] of Number::toString: [s] has [k]
    digits, the Number value of [s * 10^(n-k)] is [m * 2^e], [k] is as
    small as possible and, for this [k], [s * 10^(n-k)] is as near to
    [m * 2^e] as possible.  [n0] estimates [n] from below. *)
Fixpoint shortest (m e : Z) (ks : list Z) : option (Z * Z * Z) :=
  match ks with
  | [] => None
  | k :: rest =>
      let n0 := (Z.log2 m + e) * 30103 / 100000 in
      match best (flat_map (fun n => numerals m e k (n - k))
                           [n0 - 1; n0; n0 + 1; n0 + 2; n0 + 3]) with
      | Some d => Some (digits d, k, exponent d + k)
      | None => shortest m e rest
      end
  end.

Definition zeros (n : Z) : string := replicate (Z.to_nat n) "0".

(** The last steps of Number::toString (radix 10): the digits of [s]
    with zeros appended, with a decimal point inside, after ["0."] and
    zeros, or in exponential notation. *)
Definition render (s k n : Z) : string :=
  let ds := intToString s in
  if (k <=? n) && (n <=? 21) then ds ++ zeros (n - k)
  else if (0 <? n) && (n <=? 21)
  then take (Z.to_nat n) ds ++ "." ++ drop (Z.to_nat n) ds
  else if (-6 <? n) && (n <=? 0) then "0." ++ zeros (- n) ++ ds
  else
    let ex := n - 1 in
    let sign := if ex <? 0 then "-" else "+" in
    let mant := if k =? 1 then ds else take 1 ds ++ "." ++ drop 1 ds in
    mant ++ "e" ++ sign ++ intToString (Z.abs ex).

(** Seventeen digits tell any two Numbers apart. *)
Definition positiveToString (m e : Z) : string :=
  match shortest m e [1; 2; 3; 4; 5; 6; 7; 8; 9; 10; 11; 12; 13; 14; 15; 16; 17] with
  | Some (s, k, n) => render s k n
  | None => EmptyString
  end.

(** [String(x)] and [x.toString()] for a Number [x]. *)
Definition toString (x : float) : string :=
  match FloatOps.Prim2SF x with
  | SpecFloat.S754_nan => "NaN"
  | SpecFloat.S754_zero _ => "0"
  | SpecFloat.S754_infinity s => if s then "-Infinity" else "Infinity"
  | SpecFloat.S754_finite s m e =>
      (if s then "-" else "") ++ positiveToString (Zpos m) e
  end.

(** *** Arithmetic

    The quotient and the product of two Numbers are the exact results
    rounded to the nearest Number, a tie to the one with the even
    mantissa.  The operands here are fractions of integers. *)

(** The integer nearest to [num / den], the even one of two. *)
Definition roundHalfEven (num den : Z) : Z :=
  let q := num / den in
  let r := num mod den in
  if 2 * r <? den then q
  else if den <? 2 * r then q + 1
  else if Z.even q then q else q + 1.

(** The fraction [num / den] divided by [2 ^ e]. *)
Definition scale (num den e : Z) : Z * Z :=
  if 0 <=? e then (num, den * 2 ^ e) else (num * 2 ^ (- e), den).

(** The largest [k] with [2 ^ k <= num / den]. *)
Definition floorLog2 (num den : Z) : Z :=
  let d := Z.log2 num - Z.log2 den in
  let '(n, dd) := scale num den d in
  if n <? dd then d - 1 else d.

(** The Number [m * 2^e] nearest to the positive fraction [num / den]:
    the exponent leaves 53 bits to the mantissa and is not below -1074,
    the exponent of the smallest Numbers. *)
Definition nearest (num den : Z) : Z * Z :=
  let e := Z.max (floorLog2 num den - 52) (-1074) in
  let '(n, d) := scale num den e in
  (roundHalfEven n d, e).

(** Whether [m * 2^e], as [nearest] gives it, is below 2^1024; from
    there on the Number is [Infinity]. *)
Definition isFinite (m e : Z) : bool :=
  (e <? 971) || ((e =? 971) && (m <? 2 ^ 53)).

(** [Math.round(x)] for [x = m * 2^e]: the integer nearest to [x], the
    larger one of two. *)
Definition mathRound (m e : Z) : Z :=
  if 0 <=? e then m * 2 ^ e else (2 * m + 2 ^ (- e)) / 2 ^ (1 - e).

End JsNumber.

(** ** The host digest primitive: SHA-256 (FIPS 180-4)

    [crypto.subtle.digest('SHA-256', data)] is provided by the browser.
    It is written out here over 32-bit words held in [Z], so that the
    digests quoted in the repository's tests can be recomputed. *)

Module Sha256.

Definition w32 (x : Z) : Z := x mod 2 ^ 32.

Definition add32 (x y : Z) : Z := w32 (x + y).

Definition rotr (n x : Z) : Z :=
  Z.lor (Z.shiftr x n) (w32 (Z.shiftl x (32 - n))).

Definition not32 (x : Z) : Z := Z.lxor x (2 ^ 32 - 1).

Definition Ch (x y z : Z) : Z := Z.lxor (Z.land x y) (Z.land (not32 x) z).

Definition Maj (x y z : Z) : Z :=
  Z.lxor (Z.lxor (Z.land x y) (Z.land x z)) (Z.land y z).

Definition Sigma0 (x : Z) : Z := Z.lxor (Z.lxor (rotr 2 x) (rotr 13 x)) (rotr 22 x).
Definition Sigma1 (x : Z) : Z := Z.lxor (Z.lxor (rotr 6 x) (rotr 11 x)) (rotr 25 x).
Definition sigma0 (x : Z) : Z := Z.lxor (Z.lxor (rotr 7 x) (rotr 18 x)) (Z.shiftr x 3).
Definition sigma1 (x : Z) : Z := Z.lxor (Z.lxor (rotr 17 x) (rotr 19 x)) (Z.shiftr x 10).

(** The first sixty-four primes. *)
Definition primes : list Z :=
  [ 2; 3; 5; 7; 11; 13; 17; 19; 23; 29; 31; 37; 41; 43; 47; 53;
    59; 61; 67; 71; 73; 79; 83; 89; 97; 101; 103; 107; 109; 113; 127; 131;
    137; 139; 149; 151; 157; 163; 167; 173; 179; 181; 191; 193; 197; 199;
    211; 223; 227; 229; 233; 239; 241; 251; 257; 263; 269; 271; 277; 281;
    283; 293; 307; 311 ].

(** The integer cube root below [2 ^ bits], found bit by bit. *)
Fixpoint cubeRoot (bits : nat) (n r : Z) : Z :=
  match bits with
  | O => r
  | S b =>
      let r' := r + 2 ^ Z.of_nat b in
      cubeRoot b n (if r' * r' * r' <=? n then r' else r)
  end.

(** The round constants: the first 32 bits of the fractional parts of the
    cube roots of the primes. *)
Definition K : list Z :=
  Eval vm_compute in map (fun p => w32 (cubeRoot 40 (p * 2 ^ 96) 0)) primes.

(** The eight chaining words. *)
Record state : Type := State {
  ha : Z; hb : Z; hc : Z; hd : Z; he : Z; hf : Z; hg : Z; hh : Z
}.

(** The initial hash value: the first 32 bits of the fractional parts of
    the square roots of the first eight primes. *)
Definition initWord (p : Z) : Z := w32 (Z.sqrt (p * 2 ^ 64)).

Definition H0 : state :=
  Eval vm_compute in
    State (initWord 2) (initWord 3) (initWord 5) (initWord 7)
          (initWord 11) (initWord 13) (initWord 17) (initWord 19).

(** Padding: the bit 1, zero bits up to 56 mod 64 bytes, and the message
    length in bits as a 64-bit big-endian integer. *)
Definition bigEndian (nbytes : nat) (x : Z) : list Z :=
  map (fun i => Z.shiftr x (8 * Z.of_nat i) mod 256) (rev (seq 0 nbytes)).

Definition pad (msg : list Z) : list Z :=
  let len := Z.of_nat (length msg) in
  let zeros := Z.to_nat ((55 - len) mod 64) in
  msg ++ [128] ++ repeat 0 zeros ++ bigEndian 8 (8 * len).

Fixpoint wordsOf (fuel : nat) (bs : list Z) : list Z :=
  match fuel, bs with
  | S f, b0 :: b1 :: b2 :: b3 :: r =>
      (((b0 * 256 + b1) * 256 + b2) * 256 + b3) :: wordsOf f r
  | _, _ => []
  end.

(** The message schedule, kept as a window of the last sixteen words
    (oldest first); [schedule n w] lists the next [n] words W_t. *)
Definition nextW (w : list Z) : Z :=
  add32 (add32 (add32 (sigma1 (nth 14 w 0)) (nth 9 w 0)) (sigma0 (nth 1 w 0)))
        (nth 0 w 0).

Fixpoint schedule (n : nat) (w : list Z) : list Z :=
  match n with
  | O => []
  | S n' =>
      match w with
      | [] => []
      | w0 :: rest => w0 :: schedule n' (rest ++ [nextW w])
      end
  end.

Definition round (s : state) (kw : Z * Z) : state :=
  let t1 := add32 (add32 (add32 (add32 (hh s) (Sigma1 (he s)))
                                (Ch (he s) (hf s) (hg s))) (fst kw)) (snd kw) in
  let t2 := add32 (Sigma0 (ha s)) (Maj (ha s) (hb s) (hc s)) in
  State (add32 t1 t2) (ha s) (hb s) (hc s) (add32 (hd s) t1) (he s) (hf s) (hg s).

Definition compress (s : state) (block : list Z) : state :=
  let w := schedule 64 (wordsOf 16 block) in
  let r := fold_left round (combine K w) s in
  State (add32 (ha s) (ha r)) (add32 (hb s) (hb r)) (add32 (hc s) (hc r))
        (add32 (hd s) (hd r)) (add32 (he s) (he r)) (add32 (hf s) (hf r))
        (add32 (hg s) (hg r)) (add32 (hh s) (hh r)).

Fixpoint blocks (fuel : nat) (s : state) (bs : list Z) : state :=
  match fuel with
  | O => s
  | S f =>
      match bs with
      | [] => s
      | _ => blocks f (compress s (firstn 64 bs)) (skipn 64 bs)
      end
  end.

Definition stateBytes (s : state) : list Z :=
  flat_map (bigEndian 4)
    [ha s; hb s; hc s; hd s; he s; hf s; hg s; hh s].

(** The 32 digest bytes of a byte sequence. *)
Definition digest (msg : list Z) : list Z :=
  let p := pad msg in
  stateBytes (blocks (length p) H0 p).

End Sha256.

(** ** Exceptions and the host environment *)

(** A thrown JavaScript value: an [Error] object with its message, or any
    other value. *)
Inductive exn : Type :=
| ErrorObject (message : string)
| OtherValue.

Inductive outcome (A : Type) : Type :=
| Ok (a : A)
| Throw (e : exn).
Arguments Ok {A} a.
Arguments Throw {A} e.

(** [error instanceof Error ? error.message : fallback] *)
Definition messageOr (fallback : string) (e : exn) : string :=
  match e with
  | ErrorObject m => m
  | OtherValue => fallback
  end.

(** What [getFullYear()], [getMonth()] and [getDate()] return for a Date
    in the local time zone; [getMonth] is zero-based. *)
Record Date : Type := MkDate {
  getFullYear : Z;
  getMonth : Z;
  getDate : Z
}.

(** ** src/types *)

Inductive TargetColumnType : Type :=
| FirstName | LastName | Mobile | Email | Phone.

(** The value found under a property name of the [targetPatterns] object
    literal: one of its own entries, or a member inherited from
    [Object.prototype], the prototype of every object literal. *)
Inductive PropertyValue : Type :=
| OwnAlias (t : TargetColumnType)
| Inherited (member : string).

Record ColumnMapping : Type := MkColumnMapping {
  originalName : string;
  normalizedName : string;
  isTarget : bool;
  targetType : option PropertyValue;
  columnIndex : nat
}.

(** [CellValue = string | number | boolean | null | undefined] *)
Inductive CellValue : Type :=
| CString (s : string)
| CNumber (x : float)
| CBoolean (b : bool)
| CNull
| CUndefined.

(** ** src/services/encryptionService.ts *)

Module EncryptionService.
Import JsString.

(** [crypto.subtle.digest('SHA-256', data)]: the promise either resolves
    to the SHA-256 digest or rejects with the host's exception.  The
    host is represented by [rejects], which says on which inputs (if any)
    the primitive fails. *)
Definition subtleDigest (rejects : list Z -> option exn) (data : list Z)
  : outcome (list Z) :=
  match rejects data with
  | Some e => Throw e
  | None => Ok (Sha256.digest data)
  end.

Definition hexDigit (d : Z) : ascii :=
  if d <? 10 then ascii_of_nat (Z.to_nat (48 + d))
  else ascii_of_nat (Z.to_nat (87 + d)).

(** [b.toString(16)] for an element of a [Uint8Array] (below 256). *)
Definition toString16 (b : Z) : string :=
  if b <? 16 then String (hexDigit b) EmptyString
  else String (hexDigit (b / 16)) (String (hexDigit (b mod 16)) EmptyString).

Definition hashValue (rejects : list Z -> option exn) (value : string)
  : outcome (option string) :=
  let normalized := toLowerCase (trim value) in
  if isEmpty normalized then Ok None
  else
    let data := utf8Encode normalized in
    match subtleDigest rejects data with
    | Throw e => Throw e
    | Ok hashBuffer =>
        let hashHex := join (map (fun b => padStart 2 "0" (toString16 b)) hashBuffer) in
        Ok (Some hashHex)
    end.

End EncryptionService.

(** ** src/services/columnMatcher.ts *)

Module ColumnMatcher.
Import JsString.

(** The class [[\s_-]] of the regular expression. *)
Definition isSeparator (c : ascii) : bool :=
  isWhiteSpace c || (code c =? 95) || (code c =? 45).

Definition normalizeColumnName (name : string) : string :=
  trim (removeAll isSeparator (toLowerCase name)).

(** The own properties of the [targetPatterns] literal, in source order. *)
Definition targetPatterns : list (string * TargetColumnType) :=
  [ ("firstname", FirstName); ("fname", FirstName);
    ("lastname", LastName); ("lname", LastName);
    ("email", Email); ("emailaddress", Email); ("e-mail", Email);
    ("mobile", Mobile); ("mobilenumber", Mobile);
    ("phone", Phone); ("phonenumber", Phone) ].

(** Property names defined on [Object.prototype]. *)
Definition objectPrototypeMembers : list string :=
  [ "constructor"; "__defineGetter__"; "__defineSetter__"; "hasOwnProperty";
    "__lookupGetter__"; "__lookupSetter__"; "isPrototypeOf";
    "propertyIsEnumerable"; "toString"; "valueOf"; "__proto__";
    "toLocaleString" ].

Fixpoint ownProperty (ps : list (string * TargetColumnType)) (key : string)
  : option TargetColumnType :=
  match ps with
  | [] => None
  | (k, t) :: r => if String.eqb k key then Some t else ownProperty r key
  end.

(** [targetPatterns[key]]: own properties first, then the prototype
    chain; [None] is [undefined]. *)
Definition getProperty (key : string) : option PropertyValue :=
  match ownProperty targetPatterns key with
  | Some t => Some (OwnAlias t)
  | None =>
      if existsb (String.eqb key) objectPrototypeMembers
      then Some (Inherited key) else None
  end.

Definition isDefined {A} (o : option A) : bool :=
  match o with Some _ => true | None => false end.

Definition mapHeader (index : nat) (header : string) : ColumnMapping :=
  let normalized := normalizeColumnName header in
  let targetType := getProperty normalized in
  {| originalName := header;
     normalizedName := normalized;
     isTarget := isDefined targetType;
     targetType := targetType;
     columnIndex := index |}.

Definition findTargetColumns (headers : list string) : list ColumnMapping :=
  imap mapHeader headers.

Definition hasTargetColumns (headers : list string) : bool :=
  existsb isTarget (findTargetColumns headers).

End ColumnMatcher.

(** ** src/types/file.types.ts and the React state of [App] *)

(** A row of the parsed table is a JavaScript array, that is, an object
    with identity: [rows] holds references into a store of arrays. *)
Definition loc : Type := nat.

Record ParsedData : Type := MkParsedData {
  headers : list string;
  rows : list loc;
  sheetName : option string;
  rowCount : nat;
  columnCount : nat
}.

Record File : Type := MkFile {
  fileName : string;
  fileType : string
}.

Inductive AppStateType : Type :=
| IDLE | PARSING | READY | ENCRYPTING | COMPLETE | ERROR.

Record Stats : Type := MkStats {
  totalRows : Z;
  encryptedCells : Z;
  duration : Z
}.

(** A value handed to [setProgress]: a finite number, or the non-finite
    result of a division by zero. *)
Inductive Percent : Type :=
| Finite (z : Z)
| NotFinite.

Record AppData : Type := MkAppData {
  state : AppStateType;
  file : option File;
  parsedData : option ParsedData;
  columnMappings : list ColumnMapping;
  progress : Percent;
  errorMessage : string;
  stats : Stats
}.

(** The data handed to the serializer ([XLSX.write] or [Papa.unparse]):
    the MIME type of the blob, the sheet name, and the array of arrays
    [[data.headers, ...data.rows]] as it stands when the blob is built. *)
Record Blob : Type := MkBlob {
  blobType : string;
  blobSheetName : option string;
  blobHeaders : list string;
  blobRows : list (list CellValue)
}.

(** What the page does that is visible from outside the handler. *)
Inductive Event : Type :=
| EvProgress (p : Percent)
| EvHash (value : string)
| EvYield
| EvDownload (b : Blob) (filename : string).

(** The collaborators of [handleEncrypt] outside the repository: the
    digest primitive, the serializers, the download link and the clock.
    A fault is the exception the collaborator throws, if it does. *)
Record Host : Type := MkHost {
  digestFault : list Z -> option exn;
  generateFault : Blob -> option exn;
  downloadFault : option exn;
  today : Date;
  startTime : Z;
  endTime : Z
}.

Record World : Type := MkWorld {
  app : AppData;
  store : gmap loc (list CellValue);
  trace : list Event
}.

(** ** src/services/fileParser.ts: [detectFileType] *)

Module FileParser.
Import JsString.

Inductive FileKind : Type := excel | csv | unknown.

Definition endsWith (s suffix : string) : bool :=
  (String.length suffix <=? String.length s)%nat &&
  String.eqb (drop (String.length s - String.length suffix) s) suffix.

Definition detectFileType (f : File) : FileKind :=
  let mimeType := toLowerCase (fileType f) in
  let fileName := toLowerCase (fileName f) in
  if String.eqb mimeType "application/vnd.openxmlformats-officedocument.spreadsheetml.sheet"
     || String.eqb mimeType "application/vnd.ms-excel"
  then excel
  else if String.eqb mimeType "text/csv" then csv
  else if endsWith fileName ".xlsx" || endsWith fileName ".xls" then excel
  else if endsWith fileName ".csv" then csv
  else unknown.

End FileParser.

(** ** src/services/fileGenerator.ts *)

Module FileGenerator.
Import JsString.

(** [generateDownloadFilename(originalFilename, date?)]; [now] is what
    [new Date()] returns when [date] is omitted. *)
Definition generateDownloadFilename (now : Date) (originalFilename : string)
    (date : option Date) : string :=
  let now := match date with Some d => d | None => now end in
  let year := intToString (getFullYear now) in
  let month := padStart 2 "0" (intToString (getMonth now + 1)) in
  let day := padStart 2 "0" (intToString (getDate now)) in
  let dateStr := year ++ "-" ++ month ++ "-" ++ day in
  let lastDotIndex := lastIndexOf "." originalFilename in
  let '(name, extension) :=
    if lastDotIndex =? -1 then (originalFilename, EmptyString)
    else (substring2 originalFilename 0 lastDotIndex,
          substring1 originalFilename lastDotIndex) in
  name ++ "_" ++ dateStr ++ "_encrypted" ++ extension.

(** The array of arrays [[data.headers, ...data.rows]]: the serializer
    reads every row array as it is in the store at that moment. *)
Definition sheetRows (sigma : gmap loc (list CellValue)) (data : ParsedData)
  : list (list CellValue) :=
  map (fun l => default [] (sigma !! l)) (rows data).

(** [data.sheetName || 'Sheet1'] *)
Definition sheetNameOr (name : option string) : string :=
  match name with
  | Some n => if isEmpty n then "Sheet1" else n
  | None => "Sheet1"
  end.

Definition generateExcel (fault : Blob -> option exn)
    (sigma : gmap loc (list CellValue)) (data : ParsedData) : outcome Blob :=
  let blob :=
    {| blobType := "application/vnd.openxmlformats-officedocument.spreadsheetml.sheet";
       blobSheetName := Some (sheetNameOr (sheetName data));
       blobHeaders := headers data;
       blobRows := sheetRows sigma data |} in
  match fault blob with
  | Some e => Throw e
  | None => Ok blob
  end.

Definition generateCSV (fault : Blob -> option exn)
    (sigma : gmap loc (list CellValue)) (data : ParsedData) : outcome Blob :=
  let blob :=
    {| blobType := "text/csv;charset=utf-8;";
       blobSheetName := None;
       blobHeaders := headers data;
       blobRows := sheetRows sigma data |} in
  match fault blob with
  | Some e => Throw e
  | None => Ok blob
  end.

End FileGenerator.


(** ** src/App.tsx: [handleEncrypt] *)

Module App.
Import JsString.

(** Code that may throw, running against the page state and the store. *)
Definition M (A : Type) : Type := World -> outcome A * World.

Definition ret {A} (a : A) : M A := fun w => (Ok a, w).

Definition bind {A B} (m : M A) (k : A -> M B) : M B :=
  fun w =>
    match m w with
    | (Ok a, w') => k a w'
    | (Throw e, w') => (Throw e, w')
    end.

#[export] Instance M_ret : MRet M := @ret.
#[export] Instance M_bind : MBind M := fun A B k m => bind m k.

Definition emit (ev : Event) (w : World) : World :=
  {| app := app w; store := store w; trace := trace w ++ [ev] |}.

Definition updateApp (f : AppData -> AppData) (w : World) : World :=
  {| app := f (app w); store := store w; trace := trace w |}.

Definition setState (s : AppStateType) : World -> World :=
  updateApp (fun a =>
    MkAppData s (file a) (parsedData a) (columnMappings a)
              (progress a) (errorMessage a) (stats a)).

Definition setProgress (p : Percent) (w : World) : World :=
  emit (EvProgress p)
    (updateApp (fun a =>
       MkAppData (state a) (file a) (parsedData a) (columnMappings a)
                 p (errorMessage a) (stats a)) w).

Definition setErrorMessage (m : string) : World -> World :=
  updateApp (fun a =>
    MkAppData (state a) (file a) (parsedData a) (columnMappings a)
              (progress a) m (stats a)).

Definition setStats (st : Stats) : World -> World :=
  updateApp (fun a =>
    MkAppData (state a) (file a) (parsedData a) (columnMappings a)
              (progress a) (errorMessage a) st).

(** [row[i]]: out of range reads give [undefined]. *)
Definition readCell (sigma : gmap loc (list CellValue)) (row : loc) (i : nat)
  : CellValue :=
  match sigma !! row with
  | Some arr => default CUndefined (arr !! i)
  | None => CUndefined
  end.

(** [arr[i] = v]: an assignment past the end extends the array, the
    skipped positions reading as [undefined]. *)
Definition arraySet (i : nat) (v : CellValue) (arr : list CellValue)
  : list CellValue :=
  if (i <? length arr)%nat then <[i:=v]> arr
  else arr ++ repeat CUndefined (i - length arr) ++ [v].

(** [row[i] = v] on the array object that [row] refers to. *)
Definition writeCell (row : loc) (i : nat) (v : CellValue)
    (w : World) : World :=
  {| app := app w; store := alter (arraySet i v) row (store w); trace := trace w |}.

(** [String(cellValue)] *)
Definition toStringValue (v : CellValue) : string :=
  match v with
  | CString s => s
  | CNumber x => JsNumber.toString x
  | CBoolean true => "true"
  | CBoolean false => "false"
  | CNull => "null"
  | CUndefined => "undefined"
  end.

(** [cellValue !== undefined && cellValue !== null && cellValue !== ''] *)
Definition isNonEmptyCell (v : CellValue) : bool :=
  match v with
  | CUndefined => false
  | CNull => false
  | CString s => negb (isEmpty s)
  | _ => true
  end.

(** [Math.round((processedCells / totalCells) * 100)] for two counters,
    which are integers that a Number holds exactly (below 2^53): the
    quotient is rounded to a Number, its product with 100 is rounded to a
    Number, and [Math.round] gives the nearest integer.  A zero divisor
    gives [NaN] or an infinity. *)
Definition roundPercent (processedCells totalCells : Z) : Percent :=
  if totalCells =? 0 then NotFinite
  else
    let sign := Z.sgn processedCells * Z.sgn totalCells in
    let '(m1, e1) := JsNumber.nearest (Z.abs processedCells) (Z.abs totalCells) in
    let '(n, d) := JsNumber.scale (m1 * 100) 1 (- e1) in
    let '(m2, e2) := JsNumber.nearest n d in
    if JsNumber.isFinite m2 e2 then Finite (JsNumber.mathRound (sign * m2) e2)
    else NotFinite.

Definition hashToCell (hash : option string) : CellValue :=
  match hash with
  | Some s => CString s
  | None => CNull
  end.

Definition chunkSize : nat := 100.

Record Locals : Type := MkLocals {
  encryptedCount : Z;
  processedCells : Z
}.

Section Loops.
Variable h : Host.
Variable encryptedRows : list loc.
Variable mappings : list ColumnMapping.
Variable totalCells : Z.

(** The body of [for (const mapping of columnMappings)]. *)
Definition encryptMapping (row : loc) (mapping : ColumnMapping) (l : Locals)
  : M Locals :=
  fun w =>
    if isTarget mapping then
      let cellValue := readCell (store w) row (columnIndex mapping) in
      let encrypted : outcome Z * World :=
        if isNonEmptyCell cellValue then
          let arg := toStringValue cellValue in
          let w1 := emit (EvHash arg) w in
          match EncryptionService.hashValue (digestFault h) arg with
          | Throw e => (Throw e, w1)
          | Ok hash =>
              (Ok (encryptedCount l + 1),
               writeCell row (columnIndex mapping) (hashToCell hash) w1)
          end
        else (Ok (encryptedCount l), w) in
      match encrypted with
      | (Throw e, w1) => (Throw e, w1)
      | (Ok count, w1) =>
          let processed := processedCells l + 1 in
          (Ok (MkLocals count processed),
           setProgress (roundPercent processed totalCells) w1)
      end
    else (Ok l, w).

Fixpoint mappingLoop (row : loc) (ms : list ColumnMapping) (l : Locals)
  : M Locals :=
  match ms with
  | [] => ret l
  | mapping :: rest =>
      l' ← encryptMapping row mapping l; mappingLoop row rest l'
  end.

(** One iteration of [for (let rowIdx = i; rowIdx < chunkEnd; rowIdx++)];
    [if (!row) continue] covers an index without a row. *)
Definition processRow (rowIdx : nat) (l : Locals) : M Locals :=
  match encryptedRows !! rowIdx with
  | None => ret l
  | Some row => mappingLoop row mappings l
  end.

(** The rows [rowIdx], ..., [rowIdx + count - 1]. *)
Fixpoint rowLoop (count rowIdx : nat) (l : Locals) : M Locals :=
  match count with
  | O => ret l
  | S c => l' ← processRow rowIdx l; rowLoop c (S rowIdx) l'
  end.

(** [for (let i = 0; i < encryptedRows.length; i += chunkSize)], each
    chunk followed by [await new Promise(r => setTimeout(r, 0))]. *)
Equations? chunkLoop (i : nat) (l : Locals) (w : World)
  : outcome Locals * World by wf (length encryptedRows - i)%nat lt :=
  chunkLoop i l w with lt_dec i (length encryptedRows) => {
    | left _ =>
        let chunkEnd := Nat.min (i + chunkSize) (length encryptedRows) in
        match rowLoop (chunkEnd - i) i l w with
        | (Throw e, w1) => (Throw e, w1)
        | (Ok l1, w1) => chunkLoop (i + chunkSize)%nat l1 (emit EvYield w1)
        end
    | right _ => (Ok l, w) }.
Proof. unfold chunkSize. lia. Qed.

End Loops.

Definition downloadFile (fault : option exn) (blob : Blob) (filename : string)
  : M unit :=
  fun w =>
    match fault with
    | Some e => (Throw e, w)
    | None => (Ok tt, emit (EvDownload blob filename) w)
    end.

(** The [try] block of [handleEncrypt]. *)
Definition encryptBody (h : Host) (pd : ParsedData) (f : File)
    (cms : list ColumnMapping) : M unit :=
  fun w =>
    let encryptedRows := rows pd in
    let totalCells :=
      Z.of_nat (length (rows pd)) * Z.of_nat (length (List.filter isTarget cms)) in
    match chunkLoop h encryptedRows cms totalCells 0 (MkLocals 0 0) w with
    | (Throw e, w1) => (Throw e, w1)
    | (Ok l, w1) =>
        let encryptedData :=
          MkParsedData (headers pd) encryptedRows (sheetName pd)
                       (rowCount pd) (columnCount pd) in
        let kind := FileParser.detectFileType f in
        let generated :=
          match kind with
          | FileParser.excel =>
              FileGenerator.generateExcel (generateFault h) (store w1) encryptedData
          | _ => FileGenerator.generateCSV (generateFault h) (store w1) encryptedData
          end in
        match generated with
        | Throw e => (Throw e, w1)
        | Ok blob =>
            let filename :=
              FileGenerator.generateDownloadFilename (today h) (fileName f) None in
            match downloadFile (downloadFault h) blob filename w1 with
            | (Throw e, w2) => (Throw e, w2)
            | (Ok _, w2) =>
                let duration := endTime h - startTime h in
                let w3 :=
                  setStats (MkStats (Z.of_nat (length (rows pd)))
                                    (encryptedCount l) duration) w2 in
                (Ok tt, setProgress (Finite 100) (setState COMPLETE w3))
            end
        end
    end.

Definition handleEncrypt (h : Host) (w : World) : World :=
  match parsedData (app w), file (app w) with
  | Some pd, Some f =>
      let w0 := setProgress (Finite 0) (setState ENCRYPTING w) in
      match encryptBody h pd f (columnMappings (app w)) w0 with
      | (Ok _, w1) => w1
      | (Throw e, w1) =>
          setErrorMessage (messageOr "Encryption failed" e) (setState ERROR w1)
      end
  | _, _ => w
  end.

End App.

(** * Vocabulary of the statements *)

Module Spec.
Import JsString.

(** Strings made of white space only. *)
Fixpoint allWhiteSpace (s : string) : bool :=
  match s with
  | EmptyString => true
  | String c r => isWhiteSpace c && allWhiteSpace r
  end.

(** Two code units that are the same letter in either case: equal, or a
    capital letter and its small form 32 code units above it. *)
Definition caseTwin (c d : ascii) : Prop :=
  c = d \/
  (isUpperCase c = true /\ code d = code c + 32) \/
  (isUpperCase d = true /\ code c = code d + 32).

(** Strings that differ in letter case only. *)
Inductive SameUpToCase : string -> string -> Prop :=
| same_empty : SameUpToCase EmptyString EmptyString
| same_char c d s t :
    caseTwin c d -> SameUpToCase s t -> SameUpToCase (String c s) (String d t).

Fixpoint allChars (p : ascii -> bool) (s : string) : bool :=
  match s with
  | EmptyString => true
  | String c r => p c && allChars p r
  end.



(** Lowercase hexadecimal rendering of a byte sequence: two digits per
    byte, the high nibble first. *)
Definition nibble (d : Z) : ascii :=
  nth (Z.to_nat d)
      ["0"; "1"; "2"; "3"; "4"; "5"; "6"; "7"; "8"; "9";
       "a"; "b"; "c"; "d"; "e"; "f"]%char "0"%char.

Fixpoint hexOfBytes (bs : list Z) : string :=
  match bs with
  | [] => EmptyString
  | b :: r => String (nibble (b / 16)) (String (nibble (b mod 16)) (hexOfBytes r))
  end.

(** The digest of a value: SHA-256 over the UTF-8 bytes of the trimmed,
    lowercased value, in lowercase hexadecimal. *)
Definition digestOf (value : string) : string :=
  hexOfBytes (Sha256.digest (utf8Encode (toLowerCase (trim value)))).

End Spec.

Module ColumnSpec.
Import JsString.

(** The alias strings of the five target column types. *)
Definition aliases : list string :=
  [ "firstname"; "fname"; "lastname"; "lname";
    "email"; "emailaddress"; "e-mail";
    "mobile"; "mobilenumber"; "phone"; "phonenumber" ].

Definition isAlias (s : string) : bool := existsb (String.eqb s) aliases.

(** Code units that survive [normalizeColumnName]: neither a capital
    letter nor a separator. *)
Definition isPlain (c : ascii) : bool :=
  negb (isUpperCase c) && negb (ColumnMatcher.isSeparator c).

End ColumnSpec.

Module FilenameSpec.
Import JsString.

Fixpoint containsChar (c : ascii) (s : string) : bool :=
  match s with
  | EmptyString => false
  | String d r => Ascii.eqb d c || containsChar c r
  end.






(** [stem] and [ext] split [name] at its last dot: [ext] is empty when
    [name] has no dot, and otherwise starts at the last one. *)
Definition splitsAtLastDot (name stem ext : string) : Prop :=
  name = (stem ++ ext)%string /\
  ((ext = EmptyString /\ containsChar "." name = false) \/
   (exists e, ext = String "." e /\ containsChar "." e = false)).

End FilenameSpec.

(** Numbers in the proofs about the progress value. *)
Module NumberSpec.

(** The value [m * 2^e] counted in units of [2^-1074], the smallest
    positive Number: every finite Number is a whole number of them. *)
Definition units (me : Z * Z) : Z := me.1 * 2 ^ (me.2 + 1074).

(** The Number [(p / t) * 100] for two positive counters, as a mantissa
    and an exponent. *)
Definition share (p t : Z) : Z * Z :=
  let me := JsNumber.nearest p t in
  let nd := JsNumber.scale (me.1 * 100) 1 (- me.2) in
  JsNumber.nearest nd.1 nd.2.

End NumberSpec.

(** The work of the encryption pass as a list of steps: one step for each
    pair of a row and a column mapping, and one for each pause between
    two chunks. *)
Module Schedule.
Import App.

Inductive Step : Type :=
| Cell (row : loc) (mapping : ColumnMapping)
| Pause.

Definition rowSteps (ms : list ColumnMapping) (row : loc) : list Step :=
  map (Cell row) ms.

(** All cells of the table, row by row from the top and, within a row,
    mapping by mapping from the left. *)
Definition tableSteps (ms : list ColumnMapping) (rs : list loc) : list Step :=
  flat_map (rowSteps ms) rs.

Definition isCell (s : Step) : bool :=
  match s with Cell _ _ => true | Pause => false end.

Definition cellsOf (ss : list Step) : list Step := List.filter isCell ss.

Definition runStep (h : Host) (totalCells : Z) (s : Step) (l : Locals) : M Locals :=
  match s with
  | Cell row mapping => encryptMapping h totalCells row mapping l
  | Pause => fun w => (Ok l, emit EvYield w)
  end.

Fixpoint runSteps (h : Host) (totalCells : Z) (ss : list Step) (l : Locals)
  : M Locals :=
  fun w =>
    match ss with
    | [] => (Ok l, w)
    | s :: rest =>
        match runStep h totalCells s l w with
        | (Ok l', w') => runSteps h totalCells rest l' w'
        | (Throw e, w') => (Throw e, w')
        end
    end.

(** The five ways a step can go. *)
Inductive StepResult (h : Host) (total : Z) (s : Step) (l : Locals) (w : World)
  : outcome Locals * World -> Prop :=
| step_pause :
    s = Pause -> StepResult h total s l w (Ok l, emit EvYield w)
| step_other row m :
    s = Cell row m -> isTarget m = false -> StepResult h total s l w (Ok l, w)
| step_empty row m :
    s = Cell row m -> isTarget m = true ->
    isNonEmptyCell (readCell (store w) row (columnIndex m)) = false ->
    StepResult h total s l w
      (Ok (MkLocals (encryptedCount l) (processedCells l + 1)),
       setProgress (roundPercent (processedCells l + 1) total) w)
| step_hash row m hash :
    s = Cell row m -> isTarget m = true ->
    isNonEmptyCell (readCell (store w) row (columnIndex m)) = true ->
    EncryptionService.hashValue (digestFault h)
      (toStringValue (readCell (store w) row (columnIndex m))) = Ok hash ->
    StepResult h total s l w
      (Ok (MkLocals (encryptedCount l + 1) (processedCells l + 1)),
       setProgress (roundPercent (processedCells l + 1) total)
         (writeCell row (columnIndex m) (hashToCell hash)
            (emit (EvHash (toStringValue (readCell (store w) row (columnIndex m)))) w)))
| step_fault row m e :
    s = Cell row m -> isTarget m = true ->
    isNonEmptyCell (readCell (store w) row (columnIndex m)) = true ->
    EncryptionService.hashValue (digestFault h)
      (toStringValue (readCell (store w) row (columnIndex m))) = Throw e ->
    StepResult h total s l w
      (Throw e,
       emit (EvHash (toStringValue (readCell (store w) row (columnIndex m)))) w).

End Schedule.

(** What a run shows and changes, read off the trace and the store. *)
Module RunSpec.
Import App Schedule.

(** The arguments of the [setProgress] calls, in order. *)
Fixpoint progressValues (evs : list Event) : list Percent :=
  match evs with
  | [] => []
  | EvProgress p :: r => p :: progressValues r
  | _ :: r => progressValues r
  end.

(** The arguments of the [hashValue] calls, in order. *)
Fixpoint hashCalls (evs : list Event) : list string :=
  match evs with
  | [] => []
  | EvHash v :: r => v :: hashCalls r
  | _ :: r => hashCalls r
  end.

(** The files handed to the browser for download. *)
Fixpoint downloads (evs : list Event) : list (Blob * string) :=
  match evs with
  | [] => []
  | EvDownload b f :: r => (b, f) :: downloads r
  | _ :: r => downloads r
  end.

Definition isTargetStep (s : Step) : bool :=
  match s with Cell _ m => isTarget m | Pause => false end.

Definition targetCount (ss : list Step) : nat :=
  length (List.filter isTargetStep ss).

(** The integers [start], ..., [start + k - 1]. *)
Definition seqZ (start : Z) (k : nat) : list Z :=
  map (fun i => start + Z.of_nat i) (seq 0 k).

(** The integer that [roundPercent] gives for a divisor that is not 0
    and a share of at most 100. *)
Definition percentOf (total p : Z) : Z :=
  match roundPercent p total with
  | Finite z => z
  | NotFinite => 0
  end.

(** The fields of the page state other than [progress]. *)
Definition sameButProgress (a a' : AppData) : Prop :=
  state a = state a' /\ file a = file a' /\ parsedData a = parsedData a' /\
  columnMappings a = columnMappings a' /\ errorMessage a = errorMessage a' /\
  stats a = stats a'.

(** A sequence of integers that never decreases. *)
Definition nonDecreasing (zs : list Z) : Prop :=
  forall i j a b, (i <= j)%nat -> zs !! i = Some a -> zs !! j = Some b -> a <= b.

(** The cell of row object [row] at column [j], if the row has one. *)
Definition cellAt (sigma : gmap loc (list CellValue)) (row : loc) (j : nat)
  : option CellValue :=
  match sigma !! row with
  | Some arr => arr !! j
  | None => None
  end.

(** The value written over a target cell holding [v], if [hashValue] is
    called and returns. *)
Definition cellWrite (rejects : list Z -> option exn) (v : CellValue)
  : option CellValue :=
  if isNonEmptyCell v then
    match EncryptionService.hashValue rejects (toStringValue v) with
    | Ok hash => Some (hashToCell hash)
    | Throw _ => None
    end
  else None.

Definition cellAfter (rejects : list Z -> option exn) (v : CellValue) : CellValue :=
  default v (cellWrite rejects v).

(** The effect of one step on the store. *)
Definition stepEffect (rejects : list Z -> option exn) (s : Step)
    (sigma : gmap loc (list CellValue)) : gmap loc (list CellValue) :=
  match s with
  | Cell row m =>
      if isTarget m then
        match cellWrite rejects (readCell sigma row (columnIndex m)) with
        | Some v' => alter (arraySet (columnIndex m) v') row sigma
        | None => sigma
        end
      else sigma
  | Pause => sigma
  end.

Definition applySteps (rejects : list Z -> option exn) (ss : list Step)
    (sigma : gmap loc (list CellValue)) : gmap loc (list CellValue) :=
  fold_left (fun s0 s => stepEffect rejects s s0) ss sigma.

(** Whether step [s] is about the cell of row [row] in column [j]. *)
Definition touches (row : loc) (j : nat) (s : Step) : bool :=
  match s with
  | Cell r m => isTarget m && Nat.eqb r row && Nat.eqb (columnIndex m) j
  | Pause => false
  end.

(** Whether step [s] calls [hashValue] in store [sigma], and on what. *)
Definition hashArg (sigma : gmap loc (list CellValue)) (s : Step) : option string :=
  match s with
  | Cell row m =>
      let v := readCell sigma row (columnIndex m) in
      if isTarget m && isNonEmptyCell v then Some (toStringValue v) else None
  | Pause => None
  end.

(** The arguments of the [hashValue] calls that a sequence of steps makes
    from store [sigma] on. *)
Fixpoint hashArgs (rejects : list Z -> option exn) (ss : list Step)
    (sigma : gmap loc (list CellValue)) : list string :=
  match ss with
  | [] => []
  | s :: r =>
      match hashArg sigma s with
      | Some a => a :: hashArgs rejects r (stepEffect rejects s sigma)
      | None => hashArgs rejects r (stepEffect rejects s sigma)
      end
  end.

(** How many steps of [ss] are about the cell of [row] in column [j]. *)
Definition touchCount (row : loc) (j : nat) (ss : list Step) : nat :=
  length (List.filter (touches row j) ss).

(** The target mappings point at distinct columns. *)
Definition distinctTargets (ms : list ColumnMapping) : Prop :=
  List.NoDup (map columnIndex (List.filter isTarget ms)).

(** Mapping [m] is a target mapping for column [j]. *)
Definition targetAt (j : nat) (m : ColumnMapping) : bool :=
  isTarget m && Nat.eqb (columnIndex m) j.

(** Column [j] is a target column of the mappings [ms]. *)
Definition isTargetColumn (ms : list ColumnMapping) (j : nat) : bool :=
  existsb (targetAt j) ms.

(** The page after the [catch] block. *)
Definition caught (e : exn) (w : World) : World :=
  setErrorMessage (messageOr "Encryption failed" e) (setState ERROR w).

(** The page after the end of the [try] block. *)
Definition completed (h : Host) (pd : ParsedData) (f : File) (l : Locals)
    (blob : Blob) (w : World) : World :=
  setProgress (Finite 100)
    (setState COMPLETE
       (setStats (MkStats (Z.of_nat (length (rows pd))) (encryptedCount l)
                          (endTime h - startTime h))
          (emit (EvDownload blob
                   (FileGenerator.generateDownloadFilename (today h) (fileName f) None))
                w))).

(** The number of pairs of a row and a target mapping whose cell is not
    [undefined], [null] or the empty string. *)
Definition nonEmptyTargetCells (ms : list ColumnMapping) (rs : list loc)
    (sigma : gmap loc (list CellValue)) : nat :=
  length (omap (hashArg sigma) (tableSteps ms rs)).

(** A cell that [handleEncrypt] hashes and whose [String()] form is not
    blank. *)
Definition isDigestable (v : CellValue) : bool :=
  isNonEmptyCell v && negb (JsString.isEmpty (JsString.trim (toStringValue v))).

Definition digestableStep (sigma : gmap loc (list CellValue)) (s : Step) : bool :=
  match s with
  | Cell row m => isTarget m && isDigestable (readCell sigma row (columnIndex m))
  | Pause => false
  end.

(** The number of pairs of a row and a target mapping whose cell is
    digestable. *)
Definition digestableTargetCells (ms : list ColumnMapping) (rs : list loc)
    (sigma : gmap loc (list CellValue)) : nat :=
  length (List.filter (digestableStep sigma) (tableSteps ms rs)).

(** No target cell of the table is a string of white space only. *)
Definition noBlankTargetCell (ms : list ColumnMapping) (rs : list loc)
    (sigma : gmap loc (list CellValue)) : Prop :=
  forall row m,
    In row rs -> In m ms -> isTarget m = true ->
    isNonEmptyCell (readCell sigma row (columnIndex m)) = true ->
    isDigestable (readCell sigma row (columnIndex m)) = true.




(** What the specification says of a cell in a target column: a string
    that is not blank becomes its digest, every other cell stays. *)
Definition claimedTargetCell (before after : CellValue) : Prop :=
  match before with
  | CString s =>
      if JsString.isEmpty (JsString.toLowerCase (JsString.trim s))
      then after = before
      else after = CString (Spec.digestOf s)
  | _ => after = before
  end.

(** The rows of a table as the store holds them, in order. *)
Definition tableContents (sigma : gmap loc (list CellValue)) (rs : list loc)
  : list (option (list CellValue)) :=
  map (fun l => sigma !! l) rs.

(** Two tables, each in its store, with the same rows at the same
    positions. *)
Definition sameTable (rs1 rs2 : list loc)
    (sigma1 sigma2 : gmap loc (list CellValue)) : Prop :=
  forall r l1 l2, rs1 !! r = Some l1 -> rs2 !! r = Some l2 -> sigma1 !! l1 = sigma2 !! l2.

(** Two pages that have shown the same events since their traces were
    [t1] and [t2], over the same table. *)
Definition simWorld (rs1 rs2 : list loc) (t1 t2 : list Event) (w1 w2 : World) : Prop :=
  sameTable rs1 rs2 (store w1) (store w2) /\
  exists evs, trace w1 = (t1 ++ evs)%list /\ trace w2 = (t2 ++ evs)%list.

Definition simResult {A} (rs1 rs2 : list loc) (t1 t2 : list Event)
    (r1 r2 : outcome A * World) : Prop :=
  r1.1 = r2.1 /\ simWorld rs1 rs2 t1 t2 r1.2 r2.2.

(** What [handleEncrypt] does once the loops have ended with result [r]:
    the serializer, the download and the final state, or the [catch]
    block. *)
Definition finishRun (h : Host) (pd : ParsedData) (f : File)
    (r : outcome Locals * World) : World :=
  match r with
  | (Throw e, w1) => caught e w1
  | (Ok l, w1) =>
      let generated :=
        match FileParser.detectFileType f with
        | FileParser.excel => FileGenerator.generateExcel (generateFault h) (store w1) pd
        | _ => FileGenerator.generateCSV (generateFault h) (store w1) pd
        end in
      match generated with
      | Throw e => caught e w1
      | Ok blob =>
          match downloadFault h with
          | Some e => caught e w1
          | None => completed h pd f l blob w1
          end
      end
  end.

(** A successful run ends in [COMPLETE]; a run in which an exception was
    caught ends in [ERROR]. *)
Definition succeeded (w : World) : Prop := state (app w) = COMPLETE.
Definition failed (w : World) : Prop := state (app w) = ERROR.

End RunSpec.

(** * Sample inputs *)

Module Sample.

(** A host on which nothing fails. *)
Definition host : Host :=
  {| digestFault := fun _ => None;
     generateFault := fun _ => None;
     downloadFault := None;
     today := MkDate 2025 9 2;
     startTime := 1000;
     endTime := 1250 |}.

(** A host whose serializer throws. *)
Definition hostGenerateFails : Host :=
  {| digestFault := fun _ => None;
     generateFault := fun _ => Some (ErrorObject "Too many rows");
     downloadFault := None;
     today := MkDate 2025 9 2;
     startTime := 1000;
     endTime := 1250 |}.

(** A host whose digest primitive rejects the bytes of "jane". *)
Definition hostDigestFails : Host :=
  {| digestFault := fun data =>
       if List.list_eq_dec Z.eq_dec data [106; 97; 110; 101]
       then Some OtherValue else None;
     generateFault := fun _ => None;
     downloadFault := None;
     today := MkDate 2025 9 2;
     startTime := 1000;
     endTime := 1250 |}.

(** The page in state READY after the upload of [name], a table with the
    given headers and rows; row [i] is the array object at location [i]. *)
Definition storeOf (table : list (list CellValue)) : gmap loc (list CellValue) :=
  list_to_map (imap (fun i row => (i, row)) table).

Definition ready (name mime : string) (hs : list string)
    (table : list (list CellValue)) : World :=
  {| app :=
       {| state := READY;
          file := Some (MkFile name mime);
          parsedData :=
            Some (MkParsedData hs (seq 0 (length table)) None
                               (length table) (length hs));
          columnMappings := ColumnMatcher.findTargetColumns hs;
          progress := Finite 0;
          errorMessage := EmptyString;
          stats := MkStats 0 0 0 |};
     store := storeOf table;
     trace := [] |}.

(** One row, one target column. *)
Definition oneCell : World :=
  ready "people.csv" "text/csv" ["Email"] [[CString "john"]].

(** Two rows with a name, an email address and an age. *)
Definition people : World :=
  ready "people.csv" "text/csv" ["First Name"; "Email"; "Age"]
    [ [CString "  JOHN  "; CString "doe@EXAMPLE.com"; CNumber 42%float];
      [CString "jane"; CNull; CNumber 7%float] ].

(** The same table as [people] in other row objects, on a page with
    another history. *)
Definition peopleElsewhere : World :=
  {| app :=
       {| state := READY;
          file := Some (MkFile "people.csv" "text/csv");
          parsedData :=
            Some (MkParsedData ["First Name"; "Email"; "Age"] [7%nat; 4%nat] None 2 3);
          columnMappings :=
            ColumnMatcher.findTargetColumns ["First Name"; "Email"; "Age"];
          progress := Finite 100;
          errorMessage := "No target columns found";
          stats := MkStats 12 30 77 |};
     store :=
       <[7%nat := [CString "  JOHN  "; CString "doe@EXAMPLE.com"; CNumber 42%float]]>
         (<[4%nat := [CString "jane"; CNull; CNumber 7%float]]>
            (<[9%nat := [CBoolean true]]> ∅));
     trace := [EvYield; EvProgress (Finite 100)] |}.

(** A host with another clock and calendar. *)
Definition hostLater : Host :=
  {| digestFault := fun _ => None;
     generateFault := fun _ => None;
     downloadFault := None;
     today := MkDate 2026 0 15;
     startTime := 5000;
     endTime := 9000 |}.

(** A numeric cell in a target column. *)
Definition phones : World :=
  ready "phones.csv" "text/csv" ["Name"; "Phone"]
    [ [CString "Ann"; CNumber 5550101%float] ].

(** A target cell that holds white space only. *)
Definition blanks : World :=
  ready "blanks.csv" "text/csv" ["Email"] [[CString "   "]].

(** A table without rows. *)
Definition noRows : World :=
  ready "empty.csv" "text/csv" ["Email"] [].

End Sample.

(** * Tactics *)

(** Proves that a list of numerals has no repetition. *)
Ltac distinct_numerals :=
  repeat (apply List.NoDup_cons; [cbn; intuition discriminate|]); apply List.NoDup_nil.

(** Splits a conjunction into its parts, without entering binders. *)
Ltac conjs := lazymatch goal with |- _ /\ _ => split; [|conjs] | _ => idtac end.

(** * Validation, parsing and the other handlers of the page

    This part follows
    - [src/utils/validation.ts]       ([validateFileSize],
      [validateFileType], [validateFile])
    - [src/services/fileParser.ts]    ([parseCSV]; of [parseExcel] the
      record it resolves to)
    - [src/App.tsx]                   ([handleFileUpload],
      [handleFileInputChange], [handleReset] and the controls that the
      page renders in each state). *)

(** ** src/utils/validation.ts *)

(** A [File] object with its [size] in bytes; [fileOf] keeps the name
    and the type, which is what the page reads of it later on. *)
Record FileObject : Type := MkFileObject {
  fileOf : File;
  fileSize : Z
}.

Record ValidationResult : Type := MkValidationResult {
  isValid : bool;
  errors : list string
}.

Module Validation.
Import JsString.

Definition MAX_FILE_SIZE : Z := 100 * 1024 * 1024.

Definition SUPPORTED_MIME_TYPES : list string :=
  [ "text/csv";
    "application/vnd.ms-excel";
    "application/vnd.openxmlformats-officedocument.spreadsheetml.sheet" ].

Definition SUPPORTED_EXTENSIONS : list string := [ ".csv"; ".xls"; ".xlsx" ].

Definition validateFileSize (file : FileObject) : ValidationResult :=
  if fileSize file <=? MAX_FILE_SIZE then
    {| isValid := true; errors := [] |}
  else
    let fileSizeMB := JsNumber.toFixed 1 (fileSize file) (1024 * 1024) in
    {| isValid := false;
       errors :=
         [ "File size exceeds 100MB limit. Your file is " ++ fileSizeMB
             ++ "MB. Please upload a smaller file." ] |}.

Definition validateFileType (file : FileObject) : ValidationResult :=
  let mimeType := toLowerCase (fileType (fileOf file)) in
  let fileName := toLowerCase (fileName (fileOf file)) in
  if existsb (String.eqb mimeType) SUPPORTED_MIME_TYPES then
    {| isValid := true; errors := [] |}
  else
    let hasValidExtension :=
      existsb (fun ext => FileParser.endsWith fileName ext) SUPPORTED_EXTENSIONS in
    if hasValidExtension then
      {| isValid := true; errors := [] |}
    else
      let lastDotIndex := lastIndexOf "." fileName in
      let extension :=
        if negb (lastDotIndex =? -1) then substring1 fileName lastDotIndex
        else "unknown" in
      {| isValid := false;
         errors :=
           [ "Please upload a valid Excel (.xlsx, .xls) or CSV file. File type '"
               ++ extension ++ "' is not supported." ] |}.

Definition validateFile (file : FileObject) : ValidationResult :=
  let sizeValidation := validateFileSize file in
  if negb (isValid sizeValidation) then sizeValidation
  else
    let typeValidation := validateFileType file in
    if negb (isValid typeValidation) then typeValidation
    else {| isValid := true; errors := [] |}.

End Validation.

(** ** src/services/fileParser.ts: [parseCSV] and [parseExcel] *)

(** What [Papa.parse(file, config)] does with a file: it calls [complete]
    with the rows it read (arrays of strings, as no typing of fields is
    asked for), or [error]. *)
Inductive PapaResult : Type :=
| PapaComplete (data : list (list string))
| PapaError (message : string).

(** The first sheet of a workbook as [parseExcel] reads it off SheetJS:
    its name, the header strings and the rows below the header. *)
Record Sheet : Type := MkSheet {
  firstSheetName : string;
  sheetHeaders : list string;
  sheetData : list (list CellValue)
}.

(** The libraries behind the parsers.  [excelSheet] is what the promise
    of [parseExcel] settles with; the reading of the workbook is
    SheetJS's and is not part of the model. *)
Record Reader : Type := MkReader {
  papaParse : File -> PapaResult;
  excelSheet : File -> outcome Sheet
}.

Module Parsing.
Import App.

(** A location above all those that hold an array. *)
Definition freshLoc (sigma : gmap loc (list CellValue)) : loc :=
  foldr (fun kv n => Nat.max (S kv.1) n) 0%nat (map_to_list sigma).

(** The row arrays that a parser creates: new objects, one for each row,
    in the order of the rows. *)
Fixpoint allocRows (contents : list (list CellValue))
    (sigma : gmap loc (list CellValue)) : list loc * gmap loc (list CellValue) :=
  match contents with
  | [] => ([], sigma)
  | c :: rest =>
      let l := freshLoc sigma in
      let '(ls, sigma') := allocRows rest (<[l := c]> sigma) in
      (l :: ls, sigma')
  end.

Definition newRows (contents : list (list CellValue)) : M (list loc) :=
  fun w =>
    let '(ls, sigma) := allocRows contents (store w) in
    (Ok ls, {| app := app w; store := sigma; trace := trace w |}).

Definition reject {A} (message : string) : M A :=
  fun w => (Throw (ErrorObject message), w).

(** [while (data.length > 0 && data[data.length - 1]?.every((cell) => !cell))
    data.pop()]; the loop runs at most [data.length] times. *)
Fixpoint popBlankRows (fuel : nat) (data : list (list string))
  : list (list string) :=
  match fuel with
  | O => data
  | S n =>
      match last data with
      | Some row =>
          if forallb JsString.isEmpty row then popBlankRows n (removelast data)
          else data
      | None => data
      end
  end.

Definition parseCSV (r : Reader) (file : File) : M ParsedData :=
  match papaParse r file with
  | PapaError message => reject ("Failed to parse CSV: " ++ message)
  | PapaComplete results =>
      let data := popBlankRows (length results) results in
      if (length data =? 0)%nat then
        reject "File is empty or contains no data rows."
      else
        match data !! 0%nat with
        | None => reject "File is missing header row."
        | Some headers =>
            rows ← newRows (map (map CString) (skipn 1 data));
            mret {| headers := headers;
                    rows := rows;
                    sheetName := None;
                    rowCount := length rows;
                    columnCount := length headers |}
        end
  end.

(** [parseExcel]: the record of lines 78 to 84, built from the header
    strings and the rows that lines 53 to 76 take from SheetJS; every
    rejection goes through [excelSheet]. *)
Definition parseExcel (r : Reader) (file : File) : M ParsedData :=
  match excelSheet r file with
  | Throw e => fun w => (Throw e, w)
  | Ok sheet =>
      rows ← newRows (sheetData sheet);
      mret {| headers := sheetHeaders sheet;
              rows := rows;
              sheetName := Some (firstSheetName sheet);
              rowCount := length rows;
              columnCount := length (sheetHeaders sheet) |}
  end.

End Parsing.

(** ** src/App.tsx: upload and reset *)

Module Handlers.
Import JsString App.

Definition setFile (f : option File) : World -> World :=
  updateApp (fun a =>
    MkAppData (state a) f (parsedData a) (columnMappings a)
              (progress a) (errorMessage a) (stats a)).

Definition setParsedData (pd : option ParsedData) : World -> World :=
  updateApp (fun a =>
    MkAppData (state a) (file a) pd (columnMappings a)
              (progress a) (errorMessage a) (stats a)).

Definition setColumnMappings (ms : list ColumnMapping) : World -> World :=
  updateApp (fun a =>
    MkAppData (state a) (file a) (parsedData a) ms
              (progress a) (errorMessage a) (stats a)).

(** [errors[0] || fallback] *)
Definition firstOr (errors : list string) (fallback : string) : string :=
  match errors with
  | e :: _ => if isEmpty e then fallback else e
  | [] => fallback
  end.

Definition noTargetColumnsMessage : string :=
  "No target columns found. File must contain First Name, Last Name, Mobile, Phone, or Email (or variations like FirstName, E-mail, Phone Number, etc.)".

(** The [try] block of [handleFileUpload]. *)
Definition uploadBody (r : Reader) (fileObj : File) : M unit :=
  fun w =>
    let fileType := FileParser.detectFileType fileObj in
    let parsing : outcome ParsedData * World :=
      match fileType with
      | FileParser.excel => Parsing.parseExcel r fileObj w
      | FileParser.csv => Parsing.parseCSV r fileObj w
      | FileParser.unknown => (Throw (ErrorObject "Unsupported file format"), w)
      end in
    match parsing with
    | (Throw e, w1) => (Throw e, w1)
    | (Ok parsed, w1) =>
        let w2 := setParsedData (Some parsed) w1 in
        let mappings := ColumnMatcher.findTargetColumns (headers parsed) in
        let w3 := setColumnMappings mappings w2 in
        if negb (ColumnMatcher.hasTargetColumns (headers parsed)) then
          (Ok tt, setErrorMessage noTargetColumnsMessage (setState ERROR w3))
        else (Ok tt, setState READY w3)
    end.

Definition handleFileUpload (r : Reader) (uploadFile : FileObject) (w : World)
  : World :=
  let fileObj := uploadFile in
  let validation := Validation.validateFile fileObj in
  if negb (isValid validation) then
    setErrorMessage (firstOr (errors validation) "File validation failed")
      (setState ERROR w)
  else
    let w0 :=
      setErrorMessage "" (setFile (Some (fileOf fileObj)) (setState PARSING w)) in
    match uploadBody r (fileOf fileObj) w0 with
    | (Ok _, w1) => w1
    | (Throw e, w1) =>
        setErrorMessage (messageOr "Failed to parse file" e) (setState ERROR w1)
    end.

Definition handleReset (w : World) : World :=
  setStats (MkStats 0 0 0)
    (setErrorMessage ""
       (setProgress (Finite 0)
          (setColumnMappings []
             (setParsedData None (setFile None (setState IDLE w)))))).

(** [handleFileInputChange] repeats the code of [handleFileUpload] for the
    first of the selected files, if there is one. *)
Definition handleFileInputChange (r : Reader) (files : option FileObject)
    (w : World) : World :=
  match files with
  | None => w
  | Some selectedFile =>
      let fileObj := selectedFile in
      let validation := Validation.validateFile fileObj in
      if negb (isValid validation) then
        setErrorMessage (firstOr (errors validation) "File validation failed")
          (setState ERROR w)
      else
        let w0 :=
          setErrorMessage ""
            (setFile (Some (fileOf fileObj)) (setState PARSING w)) in
        let fileType := FileParser.detectFileType (fileOf fileObj) in
        let parsing : outcome ParsedData * World :=
          match fileType with
          | FileParser.excel => Parsing.parseExcel r (fileOf fileObj) w0
          | FileParser.csv => Parsing.parseCSV r (fileOf fileObj) w0
          | FileParser.unknown =>
              (Throw (ErrorObject "Unsupported file format"), w0)
          end in
        match parsing with
        | (Throw e, w1) =>
            setErrorMessage (messageOr "Failed to parse file" e) (setState ERROR w1)
        | (Ok parsed, w1) =>
            let w2 := setParsedData (Some parsed) w1 in
            let mappings := ColumnMatcher.findTargetColumns (headers parsed) in
            let w3 := setColumnMappings mappings w2 in
            if negb (ColumnMatcher.hasTargetColumns (headers parsed)) then
              setErrorMessage noTargetColumnsMessage (setState ERROR w3)
            else setState READY w3
        end
  end.

End Handlers.

(** ** The controls of the page *)

Module Page.
Import App Handlers.

(** What the user can do: drop a file on the upload area, pick files with
    the file input, close the error alert, and press the two buttons. *)
Inductive Action : Type :=
| DropFile (uploadFile : FileObject)
| InputChange (files : option FileObject)
| CloseAlert
| ClickEncrypt
| ClickReset.

(** The controls that [App] renders in state [s]. *)
Definition offered (s : AppStateType) (a : Action) : bool :=
  match a with
  | DropFile _ | InputChange _ =>
      match s with IDLE | ERROR => true | _ => false end
  | CloseAlert =>
      match s with ERROR => true | _ => false end
  | ClickEncrypt =>
      match s with READY => true | _ => false end
  | ClickReset =>
      match s with COMPLETE | ERROR => true | _ => false end
  end.

Definition perform (r : Reader) (h : Host) (a : Action) (w : World) : World :=
  match a with
  | DropFile uploadFile => handleFileUpload r uploadFile w
  | InputChange files => handleFileInputChange r files w
  | CloseAlert => setState IDLE w
  | ClickEncrypt => handleEncrypt h w
  | ClickReset => handleReset w
  end.

(** The page as [useState] sets it up. *)
Definition initial : World :=
  {| app :=
       {| state := IDLE;
          file := None;
          parsedData := None;
          columnMappings := [];
          progress := Finite 0;
          errorMessage := "";
          stats := MkStats 0 0 0 |};
     store := ∅;
     trace := [] |}.

(** The pages that a session can show: each action is one that the page
    offers in its state, and runs against the libraries, the clock and
    the faults of the moment. *)
Inductive reachable : World -> Prop :=
| reach_initial : reachable initial
| reach_step r h a w :
    reachable w -> offered (state (app w)) a = true ->
    reachable (perform r h a w).

End Page.

(** * Vocabulary of the further statements *)

Module Spec2.
Import App Schedule.


(** A header that [findTargetColumns] marks as a target, wherever it
    stands: one that normalizes to an alias, or to "constructor". *)
Definition targetHeader (header : string) : bool :=
  ColumnSpec.isAlias (ColumnMatcher.normalizeColumnName header)
  || String.eqb (ColumnMatcher.normalizeColumnName header) "constructor".

(** How often the run hands control back to the browser. *)
Fixpoint yields (evs : list Event) : nat :=
  match evs with
  | [] => 0%nat
  | EvYield :: r => S (yields r)
  | _ :: r => yields r
  end.

(** For each time the run hands control back, the number of progress
    reports made before; [seen] is the number made so far. *)
Fixpoint progressAtYields (seen : nat) (evs : list Event) : list nat :=
  match evs with
  | [] => []
  | EvYield :: r => seen :: progressAtYields seen r
  | EvProgress _ :: r => progressAtYields (S seen) r
  | _ :: r => progressAtYields seen r
  end.

(** For each pause of a schedule, the number of target cells before it. *)
Fixpoint targetsAtPauses (seen : nat) (ss : list Step) : list nat :=
  match ss with
  | [] => []
  | Pause :: r => seen :: targetsAtPauses seen r
  | Cell _ m :: r => targetsAtPauses (if isTarget m then S seen else seen) r
  end.

Definition isPause (s : Step) : bool :=
  match s with Pause => true | Cell _ _ => false end.

Definition pauses (ss : list Step) : nat := length (List.filter isPause ss).

(** The work of the chunked loop on the rows [rs]: the cells of the first
    [chunkSize] rows, a pause, and so on until no row is left. *)
Fixpoint chunkSchedule (fuel : nat) (ms : list ColumnMapping) (rs : list loc)
  : list Step :=
  match fuel with
  | O => []
  | S n =>
      match rs with
      | [] => []
      | _ => tableSteps ms (take chunkSize rs)
               ++ Pause :: chunkSchedule n ms (drop chunkSize rs)
      end
  end.

(** The number of chunks of [chunkSize] rows in a table of [n] rows. *)
Definition chunkCount (n : nat) : nat := ((n + 99) / 100)%nat.

(** The page at the moment an upload handler starts to parse the file. *)
Definition parsingStarts (uploadFile : FileObject) (w : World) : World :=
  setErrorMessage ""
    (Handlers.setFile (Some (fileOf uploadFile)) (setState PARSING w)).

(** The parser that the upload handlers choose for a file. *)
Definition parseFile (r : Reader) (f : File) : M ParsedData :=
  match FileParser.detectFileType f with
  | FileParser.excel => Parsing.parseExcel r f
  | FileParser.csv => Parsing.parseCSV r f
  | FileParser.unknown =>
      fun w => (Throw (ErrorObject "Unsupported file format"), w)
  end.

(** The page after a parser has returned the table [pd]. *)
Definition tableLoaded (pd : ParsedData) (w : World) : World :=
  Handlers.setColumnMappings (ColumnMatcher.findTargetColumns (headers pd))
    (Handlers.setParsedData (Some pd) w).

(** What a parser leaves when it returns the table [pd]: the page as it
    was, and the rows of the table in new arrays of their own. *)
Definition parsedInto (w : World) (pd : ParsedData) (w' : World) : Prop :=
  app w' = app w /\ trace w' = trace w /\
  rowCount pd = length (rows pd) /\ columnCount pd = length (headers pd) /\
  List.NoDup (rows pd) /\
  (forall l, In l (rows pd) -> store w !! l = None /\ is_Some (store w' !! l)) /\
  (forall l, ~ In l (rows pd) -> store w' !! l = store w !! l).



End Spec2.

(** * Further sample inputs *)

Module Sample2.

(** A table in a file with the name of a CSV file and the MIME type that
    browsers on a machine with Excel give to such files. *)
Definition contacts : World :=
  Sample.ready "contacts.csv" "application/vnd.ms-excel" ["Name"; "Email"]
    [ [CString "Ann"; CString "ann@example.com"];
      [CString "Bob"; CString ""] ].

(** A table of 250 rows with one target column. *)
Definition manyRows : World :=
  Sample.ready "many.csv" "text/csv" ["Email"]
    (repeat [CString "a@b.c"] 250).

(** A reader that finds a header row, two rows of data and a blank row
    at the end of every CSV file, and no readable workbook. *)
Definition reader : Reader :=
  {| papaParse := fun _ =>
       PapaComplete
         [ ["First Name"; "Email"; "Age"];
           ["  JOHN  "; "doe@EXAMPLE.com"; "42"];
           [""; "  "; "7"];
           [""; ""; ""] ];
     excelSheet := fun _ =>
       Throw (ErrorObject
         "Unable to read file. The file may be corrupted or password-protected.") |}.

(** A reader that finds one column, which is no target. *)
Definition readerNoTarget : Reader :=
  {| papaParse := fun _ => PapaComplete [ ["Dept"]; ["Sales"] ];
     excelSheet := fun _ => Throw (ErrorObject "Failed to read file") |}.

Definition peopleFile : FileObject :=
  MkFileObject (MkFile "people.csv" "text/csv") 75.

Definition workbookFile : FileObject :=
  MkFileObject (MkFile "people.xlsx" "") 4096.

(** The page after [peopleFile] was dropped on a new page. *)
Definition uploaded : World :=
  Page.perform reader Sample.host (Page.DropFile peopleFile) Page.initial.

End Sample2.

(** * Properties of the string primitives *)

Section StringFacts.
Import JsString Spec.

Lemma code_range c : 0 <= code c < 256.
Proof.
  unfold code. pose proof (nat_ascii_bounded c). lia.
Qed.

Lemma code_inj c d : code c = code d -> c = d.
Proof.
  unfold code. intros H.
  rewrite <- (ascii_nat_embedding c), <- (ascii_nat_embedding d).
  f_equal. lia.
Qed.

(** [String.append] does not unfold under [simpl]; these are its
    equations. *)
Lemma append_nil_l s : (EmptyString ++ s)%string = s.
Proof. reflexivity. Qed.

Lemma append_cons c s t : (String c s ++ t)%string = String c (s ++ t).
Proof. reflexivity. Qed.

Lemma append_nil_r s : (s ++ "")%string = s.
Proof.
  induction s as [|c r IH]; [reflexivity|]. rewrite append_cons, IH. reflexivity.
Qed.

Lemma append_assoc s t u : ((s ++ t) ++ u)%string = (s ++ (t ++ u))%string.
Proof.
  induction s as [|c r IH]; [reflexivity|]. rewrite !append_cons, IH. reflexivity.
Qed.

Lemma length_append s t :
  String.length (s ++ t) = (String.length s + String.length t)%nat.
Proof.
  induction s as [|c r IH]; [reflexivity|]. rewrite append_cons. simpl. congruence.
Qed.

Lemma isEmpty_true s : isEmpty s = true <-> s = EmptyString.
Proof. destruct s; simpl; split; intros; (reflexivity || discriminate). Qed.







Lemma trim_empty_iff s : trim s = EmptyString <-> allWhiteSpace s = true.
Proof.
  unfold trim. induction s as [|c r IH]; simpl; [tauto|].
  destruct (isWhiteSpace c) eqn:Hc; simpl; [exact IH|].
  rewrite Hc. simpl. split; discriminate.
Qed.


Lemma upper_plus32 c d :
  isUpperCase c = true -> code d = code c + 32 ->
  isUpperCase d = false /\ isWhiteSpace d = false /\ toLowerChar c = d.
Proof.
  intros Hu Hd. pose proof (code_range c). pose proof (code_range d).
  repeat split.
  - revert Hu. unfold isUpperCase, inRange. lia.
  - revert Hu. unfold isUpperCase, isWhiteSpace, inRange. lia.
  - unfold toLowerChar. rewrite Hu. apply code_inj. rewrite Hd.
    unfold code in *. rewrite nat_ascii_embedding by lia. lia.
Qed.


Lemma caseTwin_lower c d : caseTwin c d -> toLowerChar c = toLowerChar d.
Proof.
  intros [-> | [[Hu Hd] | [Hu Hd]]]; [reflexivity| |].
  - destruct (upper_plus32 _ _ Hu Hd) as (Hn & _ & ->).
    unfold toLowerChar. rewrite Hn. reflexivity.
  - destruct (upper_plus32 _ _ Hu Hd) as (Hn & _ & ->).
    unfold toLowerChar. rewrite Hn. reflexivity.
Qed.

Lemma SameUpToCase_refl s : SameUpToCase s s.
Proof. induction s; constructor; [left; reflexivity | assumption]. Qed.




Lemma SameUpToCase_lower s t : SameUpToCase s t -> toLowerCase s = toLowerCase t.
Proof.
  induction 1 as [|c d s t Hcd Hst IH]; simpl; [reflexivity|].
  rewrite (caseTwin_lower _ _ Hcd), IH. reflexivity.
Qed.


Lemma toLowerCase_empty s : toLowerCase s = EmptyString <-> s = EmptyString.
Proof. destruct s; simpl; split; intros; (reflexivity || discriminate). Qed.

End StringFacts.

(** * The digest primitive and [hashValue] *)

Section DigestFacts.
Import JsString Spec.

Lemma bigEndian_length n x : length (Sha256.bigEndian n x) = n.
Proof.
  unfold Sha256.bigEndian.
  rewrite length_map, length_rev, length_seq. reflexivity.
Qed.

Lemma bigEndian_bytes n x :
  Forall (fun b => 0 <= b < 256) (Sha256.bigEndian n x).
Proof.
  unfold Sha256.bigEndian. apply List.Forall_forall.
  intros b Hb. apply in_map_iff in Hb as (i & <- & _).
  apply Z.mod_pos_bound. lia.
Qed.


Lemma digest_bytes msg : Forall (fun b => 0 <= b < 256) (Sha256.digest msg).
Proof.
  unfold Sha256.digest, Sha256.stateBytes.
  cbn [flat_map].
  repeat (apply Forall_app; split); try apply bigEndian_bytes.
  constructor.
Qed.

Lemma below_16_cases d :
  0 <= d < 16 ->
  d = 0 \/ d = 1 \/ d = 2 \/ d = 3 \/ d = 4 \/ d = 5 \/ d = 6 \/ d = 7 \/
  d = 8 \/ d = 9 \/ d = 10 \/ d = 11 \/ d = 12 \/ d = 13 \/ d = 14 \/ d = 15.
Proof. lia. Qed.

Ltac by_nibble d H :=
  destruct (below_16_cases d H) as
    [->|[->|[->|[->|[->|[->|[->|[->|[->|[->|[->|[->|[->|[->|[->| ->]]]]]]]]]]]]]]];
  reflexivity.

Lemma hexDigit_nibble d :
  0 <= d < 16 -> EncryptionService.hexDigit d = nibble d.
Proof. intros H. by_nibble d H. Qed.


(** [b.toString(16).padStart(2, '0')] prints the two nibbles of a byte. *)
Lemma byte_hex b :
  0 <= b < 256 ->
  padStart 2 "0" (EncryptionService.toString16 b) =
  String (nibble (b / 16)) (String (nibble (b mod 16)) EmptyString).
Proof.
  intros Hb. unfold EncryptionService.toString16.
  destruct (b <? 16) eqn:Hlt.
  - apply Z.ltb_lt in Hlt.
    rewrite Z.div_small, Z.mod_small by lia.
    rewrite hexDigit_nibble by lia. reflexivity.
  - apply Z.ltb_ge in Hlt.
    assert (0 <= b / 16 < 16).
    { split; [apply Z.div_pos; lia | apply Z.div_lt_upper_bound; lia]. }
    assert (0 <= b mod 16 < 16) by (apply Z.mod_pos_bound; lia).
    rewrite !hexDigit_nibble by assumption. reflexivity.
Qed.

Lemma join_hex bs :
  Forall (fun b => 0 <= b < 256) bs ->
  join (map (fun b => padStart 2 "0" (EncryptionService.toString16 b)) bs) =
  hexOfBytes bs.
Proof.
  induction 1 as [|b r Hb _ IH]; [reflexivity|].
  simpl. rewrite IH, byte_hex by assumption. reflexivity.
Qed.



End DigestFacts.

Section HashValue.
Import JsString Spec EncryptionService.

Variable rejects : list Z -> option exn.


Lemma hashValue_null_iff s :
  hashValue rejects s = Ok None <-> trim s = EmptyString.
Proof.
  unfold hashValue.
  destruct (isEmpty (toLowerCase (trim s))) eqn:He.
  - apply (proj1 (isEmpty_true _)) in He.
    apply (proj1 (toLowerCase_empty _)) in He.
    split; [intros _; exact He | reflexivity].
  - split.
    + unfold subtleDigest. destruct (rejects _); discriminate.
    + intros Ht. rewrite Ht in He. discriminate.
Qed.

Lemma hashValue_digest s d :
  hashValue rejects s = Ok (Some d) ->
  d = hexOfBytes (Sha256.digest (utf8Encode (toLowerCase (trim s)))).
Proof.
  unfold hashValue, subtleDigest.
  destruct (isEmpty _); [discriminate|].
  destruct (rejects _); [discriminate|].
  intros H. rewrite join_hex in H by apply digest_bytes. congruence.
Qed.

(** Without a fault of the primitive, a value that is not blank gets a
    digest. *)
Lemma hashValue_some s :
  trim s <> EmptyString ->
  rejects (utf8Encode (toLowerCase (trim s))) = None ->
  hashValue rejects s =
  Ok (Some (hexOfBytes (Sha256.digest (utf8Encode (toLowerCase (trim s)))))).
Proof.
  intros Hne Hr. unfold hashValue, subtleDigest.
  destruct (isEmpty _) eqn:He.
  - apply (proj1 (isEmpty_true _)) in He.
    apply (proj1 (toLowerCase_empty _)) in He. contradiction.
  - rewrite Hr. rewrite join_hex by apply digest_bytes. reflexivity.
Qed.

End HashValue.





(** * The column matcher *)

Section ColumnFacts.
Import JsString Spec ColumnSpec ColumnMatcher.

Lemma isPlain_toLowerChar c :
  isUpperCase (toLowerChar c) = false.
Proof.
  unfold toLowerChar. destruct (isUpperCase c) eqn:Hu; [|exact Hu].
  pose proof (code_range c) as Hc.
  assert (Hd : code (ascii_of_nat (nat_of_ascii c + 32)) = code c + 32).
  { pose proof Hu as Hb. unfold isUpperCase, inRange in Hb.
    unfold code in *. rewrite nat_ascii_embedding; lia. }
  exact (proj1 (upper_plus32 _ _ Hu Hd)).
Qed.

Lemma allChars_toLowerCase s :
  allChars (fun c => negb (isUpperCase c)) (toLowerCase s) = true.
Proof.
  induction s as [|c r IH]; simpl; [reflexivity|].
  rewrite isPlain_toLowerChar, IH. reflexivity.
Qed.

Lemma allChars_removeAll s :
  allChars (fun c => negb (isUpperCase c)) s = true ->
  allChars isPlain (removeAll isSeparator s) = true.
Proof.
  induction s as [|c r IH]; simpl; [reflexivity|].
  intros [Hc Hr]%andb_prop. destruct (isSeparator c) eqn:Hs; simpl; [auto|].
  unfold isPlain at 1. rewrite Hc, Hs, (IH Hr). reflexivity.
Qed.

Lemma allChars_trimStart p s :
  allChars p s = true -> allChars p (trimStart s) = true.
Proof.
  induction s as [|c r IH]; simpl; [reflexivity|].
  intros H. destruct (isWhiteSpace c); [|exact H].
  apply andb_prop in H as [_ Hr]. auto.
Qed.

Lemma allChars_trimEnd p s :
  allChars p s = true -> allChars p (trimEnd s) = true.
Proof.
  induction s as [|c r IH]; simpl; [reflexivity|].
  intros [Hc Hr]%andb_prop.
  destruct (isWhiteSpace c && isEmpty (trimEnd r)); simpl; [reflexivity|].
  rewrite Hc, (IH Hr). reflexivity.
Qed.

(** A normalized column name has no capital letter and no separator. *)
Lemma normalizeColumnName_plain name :
  allChars isPlain (normalizeColumnName name) = true.
Proof.
  unfold normalizeColumnName, trim.
  apply allChars_trimEnd, allChars_trimStart, allChars_removeAll,
    allChars_toLowerCase.
Qed.

Lemma ownProperty_alias key :
  isDefined (ownProperty targetPatterns key) = isAlias key.
Proof.
  unfold isAlias, aliases, targetPatterns. cbn [ownProperty existsb].
  rewrite !(String.eqb_sym key).
  repeat (match goal with |- context [String.eqb ?a key] =>
            destruct (String.eqb a key); [reflexivity|] end).
  reflexivity.
Qed.

(** [isTarget] holds for the aliases and for the names that
    [Object.prototype] defines. *)
Lemma mapHeader_isTarget index header :
  isTarget (mapHeader index header) =
  isAlias (normalizeColumnName header)
  || existsb (String.eqb (normalizeColumnName header)) objectPrototypeMembers.
Proof.
  unfold mapHeader, getProperty. cbn [isTarget].
  rewrite <- ownProperty_alias.
  destruct (ownProperty targetPatterns (normalizeColumnName header)); [reflexivity|].
  cbn [isDefined orb].
  destruct (existsb _ objectPrototypeMembers); reflexivity.
Qed.

(** Of the inherited names, only "constructor" is a normalized name. *)
Lemma inherited_plain key :
  allChars isPlain key = true ->
  existsb (String.eqb key) objectPrototypeMembers = String.eqb key "constructor".
Proof.
  intros Hp. unfold objectPrototypeMembers. cbn [existsb].
  repeat match goal with
  | |- context [String.eqb key ?m] =>
      lazymatch m with
      | "constructor" => fail
      | _ =>
          let E := fresh "E" in
          destruct (String.eqb key m) eqn:E;
          [apply String.eqb_eq in E; subst key; vm_compute in Hp; discriminate|]
      end
  end.
  rewrite !orb_false_r. reflexivity.
Qed.

Lemma findTargetColumns_lookup headers i m :
  findTargetColumns headers !! i = Some m ->
  exists header, headers !! i = Some header /\ m = mapHeader i header.
Proof.
  unfold findTargetColumns. rewrite list_lookup_imap.
  destruct (headers !! i) as [header|]; simpl; [|discriminate].
  intros [= <-]. eauto.
Qed.

(** What [findTargetColumns] marks as a target: the aliases, and the
    header that normalizes to "constructor". *)
Lemma findTargetColumns_isTarget headers i m :
  findTargetColumns headers !! i = Some m ->
  isTarget m = isAlias (normalizedName m) || String.eqb (normalizedName m) "constructor".
Proof.
  intros (header & _ & ->)%findTargetColumns_lookup.
  rewrite mapHeader_isTarget. cbn [normalizedName mapHeader].
  rewrite inherited_plain by apply normalizeColumnName_plain. reflexivity.
Qed.

Lemma findTargetColumns_empty_name headers i m :
  findTargetColumns headers !! i = Some m ->
  normalizedName m = EmptyString -> isTarget m = false.
Proof.
  intros Hm He. rewrite (findTargetColumns_isTarget _ _ _ Hm), He. reflexivity.
Qed.

Lemma findTargetColumns_index headers i m :
  findTargetColumns headers !! i = Some m -> columnIndex m = i.
Proof. intros (header & _ & ->)%findTargetColumns_lookup. reflexivity. Qed.

Lemma findTargetColumns_length headers :
  length (findTargetColumns headers) = length headers.
Proof. apply length_imap. Qed.

End ColumnFacts.

(** C3. On the header "Constructor" the lookup [targetPatterns[normalized]]
    finds the member [constructor] that the object literal inherits from
    [Object.prototype]: the mapping is a target although its normalized
    name is not an alias. *)
Theorem findTargetColumns_constructor_header :
  ColumnMatcher.findTargetColumns ["Constructor"] =
    [ {| originalName := "Constructor";
         normalizedName := "constructor";
         isTarget := true;
         targetType := Some (Inherited "constructor");
         columnIndex := 0 |} ] /\
  ColumnSpec.isAlias "constructor" = false.
Proof. split; reflexivity. Qed.

(** * The download file name *)

Section FilenameFacts.
Import JsString FilenameSpec.

Lemma take_app_length pre post : take (String.length pre) (pre ++ post) = pre.
Proof.
  induction pre as [|c r IH]; [destruct post; reflexivity|].
  rewrite append_cons. simpl. rewrite IH. reflexivity.
Qed.

Lemma drop_app_length pre post : drop (String.length pre) (pre ++ post) = post.
Proof.
  induction pre as [|c r IH]; [destruct post; reflexivity|].
  rewrite append_cons. simpl. exact IH.
Qed.

Lemma drop_zero s : drop 0 s = s.
Proof. destruct s; reflexivity. Qed.

(** [lastIndexOf] finds the last occurrence or answers [-1]. *)
Lemma lastIndexOf_spec c s :
  (lastIndexOf c s = -1 /\ containsChar c s = false) \/
  (exists pre post,
      s = (pre ++ String c post)%string /\ containsChar c post = false /\
      lastIndexOf c s = Z.of_nat (String.length pre)).
Proof.
  induction s as [|d r IH]; [left; split; reflexivity|].
  cbn [lastIndexOf containsChar].
  destruct IH as [[Hk Hn] | (pre & post & Hr & Hp & Hk)].
  - rewrite Hk, Hn. cbn [Z.leb Z.compare orb].
    destruct (Ascii.eqb d c) eqn:Hd.
    + right. exists EmptyString, r. apply Ascii.eqb_eq in Hd. subst d.
      exact (conj eq_refl (conj Hn eq_refl)).
    + left. split; reflexivity.
  - right. exists (String d pre), post. rewrite Hk.
    replace (0 <=? Z.of_nat (String.length pre)) with true
      by (symmetry; apply Z.leb_le; lia).
    split; [rewrite Hr; reflexivity | split; [exact Hp|]].
    cbn [String.length]. lia.
Qed.

Lemma substring_split pre post :
  substring2 (pre ++ post) 0 (Z.of_nat (String.length pre)) = pre /\
  substring1 (pre ++ post) (Z.of_nat (String.length pre)) = post.
Proof.
  unfold substring2, substring1, clampIndex.
  rewrite length_append.
  replace (Z.to_nat (Z.min (Z.max 0 0) _)) with 0%nat by lia.
  replace (Z.to_nat (Z.min (Z.max (Z.of_nat (String.length pre)) 0) _))
    with (String.length pre) by lia.
  rewrite Nat.min_0_l, Nat.max_0_l, Nat.sub_0_r, drop_zero.
  split; [apply take_app_length | apply drop_app_length].
Qed.

(** Checking a decidable property on an interval of integers. *)
Lemma forall_interval (p : Z -> bool) (lo n : Z) :
  forallb p (map Z.of_nat (seq (Z.to_nat lo) (Z.to_nat n))) = true ->
  forall z, 0 <= lo <= z /\ z < lo + n -> p z = true.
Proof.
  intros H z Hz. rewrite forallb_forall in H. apply H.
  apply in_map_iff. exists (Z.to_nat z). split; [lia|].
  apply in_seq. lia.
Qed.




End FilenameFacts.



(** * The loops of [handleEncrypt] as a schedule of steps *)

Section LoopSchedule.
Import App Schedule.
Local Open Scope list_scope.

Variable h : Host.
Variable rs : list loc.
Variable ms : list ColumnMapping.
Variable total : Z.

Lemma runSteps_app ss1 ss2 l w :
  runSteps h total (ss1 ++ ss2) l w =
  match runSteps h total ss1 l w with
  | (Ok l', w') => runSteps h total ss2 l' w'
  | (Throw e, w') => (Throw e, w')
  end.
Proof.
  revert l w. induction ss1 as [|s r IH]; intros l w; simpl; [reflexivity|].
  destruct (runStep h total s l w) as [[l'|e] w']; [apply IH | reflexivity].
Qed.

Lemma mappingLoop_steps row ms' l w :
  mappingLoop h total row ms' l w = runSteps h total (rowSteps ms' row) l w.
Proof.
  revert l w. induction ms' as [|m r IH]; intros l w; [reflexivity|].
  simpl. unfold mbind, M_bind, bind.
  destruct (encryptMapping h total row m l w) as [[l'|e] w']; [apply IH | reflexivity].
Qed.

Lemma rowLoop_steps count start l w :
  (start + count <= length rs)%nat ->
  rowLoop h rs ms total count start l w =
  runSteps h total (tableSteps ms (take count (drop start rs))) l w.
Proof.
  revert start l w. induction count as [|c IH]; intros start l w Hle.
  - rewrite take_0. reflexivity.
  - destruct (rs !! start) as [row|] eqn:Hrow.
    2: { apply lookup_ge_None in Hrow. lia. }
    rewrite (drop_S _ _ _ Hrow). cbn [take tableSteps flat_map].
    fold (tableSteps ms (take c (drop (S start) rs))).
    rewrite runSteps_app, <- mappingLoop_steps.
    cbn [rowLoop]. unfold mbind, M_bind, bind, processRow. rewrite Hrow.
    destruct (mappingLoop h total row ms l w) as [[l'|e] w']; [|reflexivity].
    apply IH. lia.
Qed.

(** The chunked loop runs the cells of the remaining rows in table
    order, with pauses in between. *)
Lemma chunkLoop_steps i :
  exists ss,
    cellsOf ss = tableSteps ms (drop i rs) /\
    forall l w, chunkLoop h rs ms total i l w = runSteps h total ss l w.
Proof.
  remember (length rs - i)%nat as d eqn:Hd.
  revert i Hd. induction d as [d IH] using lt_wf_ind. intros i Hd.
  destruct (lt_dec i (length rs)) as [Hlt|Hge].
  - destruct (IH (length rs - (i + chunkSize))%nat) with (i := (i + chunkSize)%nat)
      as (ss & Hcells & Hrun); [unfold chunkSize; lia | reflexivity |].
    set (c := (Nat.min (i + chunkSize) (length rs) - i)%nat).
    exists (tableSteps ms (take c (drop i rs)) ++ Pause :: ss). split.
    + unfold cellsOf in *. rewrite List.filter_app. cbn [List.filter isCell].
      rewrite Hcells.
      assert (Hall : List.filter isCell (tableSteps ms (take c (drop i rs))) =
                     tableSteps ms (take c (drop i rs))).
      { apply forallb_filter_id. apply forallb_forall.
        intros s Hs. unfold tableSteps in Hs. apply in_flat_map in Hs as (row & _ & Hs).
        apply in_map_iff in Hs as (m & <- & _). reflexivity. }
      rewrite Hall. unfold tableSteps. rewrite <- flat_map_app. f_equal.
      destruct (le_lt_dec (i + chunkSize) (length rs)) as [Hfull|Hpart].
      * replace c with chunkSize by (unfold c; lia).
        rewrite <- (take_drop chunkSize (drop i rs)) at 2.
        rewrite drop_drop. reflexivity.
      * replace c with (length rs - i)%nat by (unfold c; lia).
        rewrite (drop_ge rs (i + chunkSize)) by lia.
        rewrite app_nil_r. apply take_ge. rewrite length_drop. lia.
    + intros l w. rewrite chunkLoop_equation_1.
      destruct (lt_dec i (length rs)) as [Hy|Hn]; [|contradiction].
      cbn. fold c.
      rewrite runSteps_app, <- rowLoop_steps by (unfold c; lia).
      destruct (rowLoop h rs ms total c i l w) as [[l'|e] w']; [|reflexivity].
      cbn. apply Hrun.
  - exists []. split.
    + rewrite drop_ge by lia. reflexivity.
    + intros l w. rewrite chunkLoop_equation_1.
      destruct (lt_dec i (length rs)) as [Hn|Hy]; [contradiction|]. reflexivity.
Qed.

End LoopSchedule.

(** * One step of the pass *)

Section StepFacts.
Import App Schedule RunSpec.
Local Open Scope list_scope.

Variable h : Host.
Variable total : Z.

Lemma runStep_result s l w : StepResult h total s l w (runStep h total s l w).
Proof.
  destruct s as [row m|]; [|apply step_pause; reflexivity].
  cbn [runStep]. unfold encryptMapping.
  destruct (isTarget m) eqn:Ht; [|eapply step_other; eauto].
  destruct (isNonEmptyCell (readCell (store w) row (columnIndex m))) eqn:Hne.
  - destruct (EncryptionService.hashValue _ _) as [hash|e] eqn:Hh.
    + eapply step_hash; eauto.
    + eapply step_fault; eauto.
  - eapply step_empty; eauto.
Qed.

End StepFacts.

(** * What the loops show: the trace and the page state *)

Section RunTrace.
Import App Schedule RunSpec.
Local Open Scope list_scope.

Variable h : Host.
Variable total : Z.

Lemma progressValues_app e1 e2 :
  progressValues (e1 ++ e2) = progressValues e1 ++ progressValues e2.
Proof.
  induction e1 as [|[p|v| |b f] r IH]; simpl; [reflexivity| |auto..].
  rewrite IH. reflexivity.
Qed.

Lemma hashCalls_app e1 e2 : hashCalls (e1 ++ e2) = hashCalls e1 ++ hashCalls e2.
Proof.
  induction e1 as [|[p|v| |b f] r IH]; simpl; [reflexivity|auto| |auto..].
  rewrite IH. reflexivity.
Qed.

Lemma downloads_app e1 e2 : downloads (e1 ++ e2) = downloads e1 ++ downloads e2.
Proof.
  induction e1 as [|[p|v| |b f] r IH]; simpl; [reflexivity|auto..|].
  rewrite IH. reflexivity.
Qed.

Lemma seqZ_cons start k : seqZ start (S k) = start :: seqZ (start + 1) k.
Proof.
  unfold seqZ. cbn [seq map]. rewrite Z.add_0_r. f_equal.
  rewrite <- seq_shift, map_map. apply map_ext. intros i. lia.
Qed.

Lemma sameButProgress_refl a : sameButProgress a a.
Proof. unfold sameButProgress. tauto. Qed.

Lemma sameButProgress_trans a b c :
  sameButProgress a b -> sameButProgress b c -> sameButProgress a c.
Proof.
  unfold sameButProgress. intros (?&?&?&?&?&?) (?&?&?&?&?&?).
  repeat split; congruence.
Qed.

Lemma targetCount_cell row m r :
  targetCount (Cell row m :: r) =
  if isTarget m then S (targetCount r) else targetCount r.
Proof. unfold targetCount. cbn. destruct (isTarget m); reflexivity. Qed.

Lemma targetCount_pause r : targetCount (Pause :: r) = targetCount r.
Proof. reflexivity. Qed.

Lemma targetCount_app a b : targetCount (a ++ b) = (targetCount a + targetCount b)%nat.
Proof. unfold targetCount. rewrite List.filter_app, length_app. reflexivity. Qed.

Lemma setProgress_same p w : sameButProgress (app w) (app (setProgress p w)).
Proof. unfold sameButProgress. cbn. tauto. Qed.

(** What a sequence of steps adds to the trace: no download, and one
    progress value for each target cell that was processed, computed from
    the running count of processed cells. *)
Lemma runSteps_trace ss l w :
  exists evs k,
    trace (runSteps h total ss l w).2 = trace w ++ evs /\
    sameButProgress (app w) (app (runSteps h total ss l w).2) /\
    downloads evs = [] /\
    progressValues evs =
      map (fun p => roundPercent p total) (seqZ (processedCells l + 1) k) /\
    (k <= targetCount ss)%nat /\
    (forall l', (runSteps h total ss l w).1 = Ok l' ->
                k = targetCount ss /\
                processedCells l' = processedCells l + Z.of_nat k).
Proof.
  revert l w. induction ss as [|s r IH]; intros l w.
  { exists [], 0%nat. cbn. rewrite app_nil_r.
    conjs; try reflexivity; try apply sameButProgress_refl.
    intros l' [= <-]. lia. }
  cbn [runSteps].
  pose proof (runStep_result h total s l w) as HR.
  destruct HR as [Hs | row m Hs Ht | row m Hs Ht Hne | row m hash Hs Ht Hne Hh
                 | row m e Hs Ht Hne Hh]; subst s.
  - destruct (IH l (emit EvYield w)) as (evs & k & Htr & Happ & Hdl & Hpv & Hk & Hok).
    exists (EvYield :: evs), k. rewrite targetCount_pause. conjs; try assumption.
    rewrite Htr. cbn [emit trace]. rewrite <- app_assoc. reflexivity.
  - destruct (IH l w) as (evs & k & Htr & Happ & Hdl & Hpv & Hk & Hok).
    exists evs, k. rewrite targetCount_cell, Ht. conjs; assumption.
  - destruct (IH (MkLocals (encryptedCount l) (processedCells l + 1))
                 (setProgress (roundPercent (processedCells l + 1) total) w))
      as (evs & k & Htr & Happ & Hdl & Hpv & Hk & Hok).
    exists (EvProgress (roundPercent (processedCells l + 1) total) :: evs), (S k).
    rewrite targetCount_cell, Ht. conjs.
    + rewrite Htr. cbn [setProgress emit trace]. rewrite <- app_assoc. reflexivity.
    + eapply sameButProgress_trans; [apply setProgress_same | exact Happ].
    + exact Hdl.
    + cbn [progressValues]. rewrite Hpv, seqZ_cons. reflexivity.
    + lia.
    + intros l' Hl'. apply Hok in Hl'. cbn [processedCells] in Hl'. lia.
  - destruct (IH (MkLocals (encryptedCount l + 1) (processedCells l + 1))
                 (setProgress (roundPercent (processedCells l + 1) total)
                    (writeCell row (columnIndex m) (hashToCell hash)
                       (emit (EvHash (toStringValue
                          (readCell (store w) row (columnIndex m)))) w))))
      as (evs & k & Htr & Happ & Hdl & Hpv & Hk & Hok).
    exists (EvHash (toStringValue (readCell (store w) row (columnIndex m)))
              :: EvProgress (roundPercent (processedCells l + 1) total) :: evs),
           (S k).
    rewrite targetCount_cell, Ht. conjs.
    + rewrite Htr. cbn [setProgress writeCell emit updateApp trace].
      rewrite <- !app_assoc. reflexivity.
    + eapply sameButProgress_trans; [|exact Happ].
      unfold sameButProgress. cbn. tauto.
    + exact Hdl.
    + cbn [progressValues]. rewrite Hpv, seqZ_cons. reflexivity.
    + lia.
    + intros l' Hl'. apply Hok in Hl'. cbn [processedCells] in Hl'. lia.
  - exists [EvHash (toStringValue (readCell (store w) row (columnIndex m)))], 0%nat.
    cbn [fst snd]. conjs; try reflexivity; try lia; try apply sameButProgress_refl.
    intros l' [=].
Qed.

End RunTrace.
(** * Rounding to the nearest Number *)

Section NumberFacts.
Import JsNumber NumberSpec.

Lemma roundHalfEven_bounds num den :
  0 < den -> num / den <= roundHalfEven num den <= num / den + 1.
Proof.
  intros Hd. unfold roundHalfEven.
  destruct (2 * (num mod den) <? den); [lia|].
  destruct (den <? 2 * (num mod den)); [lia|].
  destruct (Z.even (num / den)); lia.
Qed.

(** Rounding keeps the order of fractions. *)
Lemma roundHalfEven_mono a b c d :
  0 < b -> 0 < d -> a * d <= c * b -> roundHalfEven a b <= roundHalfEven c d.
Proof.
  intros Hb Hd Hle.
  pose proof (Z.div_mod a b ltac:(lia)) as Ha.
  pose proof (Z.div_mod c d ltac:(lia)) as Hc.
  pose proof (Z.mod_pos_bound a b Hb) as Hra.
  pose proof (Z.mod_pos_bound c d Hd) as Hrc.
  pose proof (roundHalfEven_bounds a b Hb) as Bab.
  pose proof (roundHalfEven_bounds c d Hd) as Bcd.
  assert (Hq : a / b <= c / d).
  { apply Z.div_le_lower_bound; [exact Hd|].
    assert (b * (d * (a / b)) <= b * c); [|nia].
    nia. }
  destruct (Z.eq_dec (a / b) (c / d)) as [Heq|Hne]; [|lia].
  assert (Hr : (a mod b) * d <= (c mod d) * b) by nia.
  unfold roundHalfEven. rewrite <- Heq.
  destruct (Z.ltb_spec (2 * (a mod b)) b) as [H1|H1].
  - destruct (2 * (c mod d) <? d); [lia|].
    destruct (d <? 2 * (c mod d)); [lia|].
    destruct (Z.even (a / b)); lia.
  - destruct (Z.ltb_spec b (2 * (a mod b))) as [H2|H2].
    + destruct (Z.ltb_spec (2 * (c mod d)) d) as [H3|H3]; [nia|].
      destruct (Z.ltb_spec d (2 * (c mod d))) as [H4|H4]; [lia|nia].
    + destruct (Z.ltb_spec (2 * (c mod d)) d) as [H3|H3]; [nia|].
      destruct (Z.ltb_spec d (2 * (c mod d))) as [H4|H4];
        destruct (Z.even (a / b)); lia.
Qed.

Lemma roundHalfEven_integer k : roundHalfEven k 1 = k.
Proof.
  unfold roundHalfEven. rewrite Z.div_1_r, Z.mod_1_r. reflexivity.
Qed.

Lemma roundHalfEven_le a b k : 0 < b -> a <= k * b -> roundHalfEven a b <= k.
Proof.
  intros Hb H. rewrite <- (roundHalfEven_integer k).
  apply roundHalfEven_mono; lia.
Qed.

Lemma roundHalfEven_ge a b k : 0 < b -> k * b <= a -> k <= roundHalfEven a b.
Proof.
  intros Hb H. rewrite <- (roundHalfEven_integer k).
  apply roundHalfEven_mono; lia.
Qed.

Lemma roundHalfEven_exact k b : 0 < b -> roundHalfEven (k * b) b = k.
Proof.
  intros Hb. apply Z.le_antisymm;
    [apply roundHalfEven_le | apply roundHalfEven_ge]; lia.
Qed.

Lemma pow2_pos k : 0 <= k -> 0 < 2 ^ k.
Proof. intros Hk. apply Z.pow_pos_nonneg; lia. Qed.

Lemma pow2_le j k : 0 <= j <= k -> 2 ^ j <= 2 ^ k.
Proof. intros H. apply Z.pow_le_mono_r; lia. Qed.

(** [scale num den e] is the fraction [num / (den * 2^e)]; the two are
    compared after multiplication by [2^k] for a large [k]. *)
Lemma scale_spec num den e n d k :
  0 < den -> scale num den e = (n, d) -> 0 <= k -> 0 <= e + k ->
  0 < d /\ n * (den * 2 ^ (e + k)) = num * 2 ^ k * d.
Proof.
  intros Hden Hs Hk Hek. unfold scale in Hs.
  destruct (Z.leb_spec 0 e) as [He|He]; injection Hs as <- <-.
  - split; [pose proof (pow2_pos e He); nia|].
    rewrite Z.pow_add_r by lia. ring.
  - split; [exact Hden|].
    assert (Hp : 2 ^ k = 2 ^ (- e) * 2 ^ (e + k)).
    { rewrite <- Z.pow_add_r by lia. f_equal. lia. }
    rewrite Hp. ring.
Qed.

Lemma scale_nonneg num den e n d :
  0 <= num -> scale num den e = (n, d) -> 0 <= n.
Proof.
  intros Hn Hs. unfold scale in Hs.
  destruct (Z.leb_spec 0 e) as [He|He]; injection Hs as <- <-; [exact Hn|].
  pose proof (pow2_pos (- e) ltac:(lia)). nia.
Qed.

(** [2 ^ floorLog2 <= num / den < 2 ^ (floorLog2 + 1)] *)
Lemma floorLog2_spec num den k :
  0 < num -> 0 < den -> 0 <= k -> 0 <= floorLog2 num den + k ->
  den * 2 ^ (floorLog2 num den + k) <= num * 2 ^ k /\
  num * 2 ^ k < den * 2 ^ (floorLog2 num den + k + 1).
Proof.
  intros Hn Hd Hk. unfold floorLog2.
  destruct (Z.log2_spec num Hn) as [Ha1 Ha2].
  destruct (Z.log2_spec den Hd) as [Hb1 Hb2].
  pose proof (Z.log2_nonneg num) as Ha0. pose proof (Z.log2_nonneg den) as Hb0.
  set (a := Z.log2 num) in *. set (b := Z.log2 den) in *.
  destruct (scale num den (a - b)) as [n dd] eqn:Hs.
  destruct (Z.ltb_spec n dd) as [Hlt|Hge]; intros HL.
  - destruct (scale_spec _ _ _ _ _ k Hd Hs Hk ltac:(lia)) as [Hdd Heq].
    pose proof (pow2_pos (a - b + k) ltac:(lia)) as Hp.
    pose proof (pow2_pos k Hk) as Hpk.
    replace (a - b - 1 + k + 1) with (a - b + k) by lia.
    split.
    + assert (Hpow : 2 ^ (b + 1) * 2 ^ (a - b - 1 + k) = 2 ^ a * 2 ^ k).
      { rewrite <- !Z.pow_add_r by lia. f_equal. lia. }
      pose proof (pow2_pos (a - b - 1 + k) ltac:(lia)).
      apply Z.le_trans with (2 ^ (b + 1) * 2 ^ (a - b - 1 + k)); [nia|].
      rewrite Hpow. nia.
    + apply (Z.mul_lt_mono_pos_r dd); [exact Hdd|].
      rewrite <- Heq. rewrite (Z.mul_comm n).
      apply Z.mul_lt_mono_pos_l; [nia | exact Hlt].
  - destruct (scale_spec _ _ _ _ _ k Hd Hs Hk ltac:(lia)) as [Hdd Heq].
    pose proof (pow2_pos (a - b + k) ltac:(lia)) as Hp.
    pose proof (pow2_pos k Hk) as Hpk.
    split.
    + apply (Z.mul_le_mono_pos_r _ _ dd); [exact Hdd|].
      rewrite <- Heq. rewrite (Z.mul_comm n).
      apply Z.mul_le_mono_nonneg_l; [nia | exact Hge].
    + assert (Hpow : 2 ^ b * 2 ^ (a - b + k + 1) = 2 ^ (a + 1) * 2 ^ k).
      { rewrite <- !Z.pow_add_r by lia. f_equal. lia. }
      pose proof (pow2_pos (a - b + k + 1) ltac:(lia)).
      apply Z.lt_le_trans with (2 ^ (a + 1) * 2 ^ k); [nia|].
      rewrite <- Hpow. nia.
Qed.

Lemma floorLog2_mono n1 d1 n2 d2 :
  0 < n1 -> 0 < d1 -> 0 < n2 -> 0 < d2 -> n1 * d2 <= n2 * d1 ->
  floorLog2 n1 d1 <= floorLog2 n2 d2.
Proof.
  intros Hn1 Hd1 Hn2 Hd2 Hle.
  destruct (Z.le_gt_cases (floorLog2 n1 d1) (floorLog2 n2 d2)) as [H|H]; [exact H|].
  exfalso.
  set (k := Z.abs (floorLog2 n1 d1) + Z.abs (floorLog2 n2 d2)).
  destruct (floorLog2_spec n1 d1 k Hn1 Hd1 ltac:(lia) ltac:(lia)) as [H1 _].
  destruct (floorLog2_spec n2 d2 k Hn2 Hd2 ltac:(lia) ltac:(lia)) as [_ H2].
  pose proof (pow2_le (floorLog2 n2 d2 + k + 1) (floorLog2 n1 d1 + k) ltac:(lia)) as Hp.
  pose proof (pow2_pos k ltac:(lia)) as Hk.
  pose proof (pow2_pos (floorLog2 n2 d2 + k + 1) ltac:(lia)) as Hp2.
  assert (n1 * 2 ^ k * d2 < n1 * 2 ^ k * d2); [|lia].
  eapply Z.le_lt_trans with (n2 * 2 ^ k * d1); [nia|].
  eapply Z.lt_le_trans with (d2 * 2 ^ (floorLog2 n2 d2 + k + 1) * d1); [nia|].
  eapply Z.le_trans with (d2 * 2 ^ (floorLog2 n1 d1 + k) * d1); [nia|].
  nia.
Qed.

Lemma nearest_exponent num den : -1074 <= (nearest num den).2.
Proof.
  unfold nearest. destruct (scale _ _ _). cbn. lia.
Qed.

Lemma nearest_exponent_mono n1 d1 n2 d2 :
  0 < n1 -> 0 < d1 -> 0 < n2 -> 0 < d2 -> n1 * d2 <= n2 * d1 ->
  (nearest n1 d1).2 <= (nearest n2 d2).2.
Proof.
  intros Hn1 Hd1 Hn2 Hd2 Hle.
  pose proof (floorLog2_mono _ _ _ _ Hn1 Hd1 Hn2 Hd2 Hle).
  unfold nearest. destruct (scale n1 _ _), (scale n2 _ _). cbn. lia.
Qed.

Lemma nearest_zero den : 0 < den -> (nearest 0 den).1 = 0.
Proof.
  intros Hd. unfold nearest.
  destruct (scale 0 den _) as [n d] eqn:Hs. cbn.
  assert (n = 0) as ->.
  { unfold scale in Hs. destruct (0 <=? _); injection Hs as <- <-; reflexivity. }
  unfold roundHalfEven. rewrite Z.div_0_l, Z.mod_0_l.
  - destruct (scale_spec _ _ _ _ _ (Z.abs (Z.max (floorLog2 0 den - 52) (-1074)))
                Hd Hs ltac:(lia) ltac:(lia)) as [Hdpos _].
    destruct (Z.ltb_spec (2 * 0) d); [reflexivity | lia].
  - destruct (scale_spec _ _ _ _ _ (Z.abs (Z.max (floorLog2 0 den - 52) (-1074)))
                Hd Hs ltac:(lia) ltac:(lia)) as [Hdpos _]. lia.
  - destruct (scale_spec _ _ _ _ _ (Z.abs (Z.max (floorLog2 0 den - 52) (-1074)))
                Hd Hs ltac:(lia) ltac:(lia)) as [Hdpos _]. lia.
Qed.

Lemma nearest_nonneg num den : 0 <= num -> 0 < den -> 0 <= (nearest num den).1.
Proof.
  intros Hn Hd. unfold nearest.
  destruct (scale num den _) as [n d] eqn:Hs. cbn.
  destruct (scale_spec _ _ _ _ _ (Z.abs (Z.max (floorLog2 num den - 52) (-1074)))
              Hd Hs ltac:(lia) ltac:(lia)) as [Hdpos _].
  pose proof (scale_nonneg _ _ _ _ _ Hn Hs).
  pose proof (roundHalfEven_bounds n d Hdpos).
  pose proof (Z.div_pos n d ltac:(lia) Hdpos). lia.
Qed.

(** The nearest Number keeps the order of fractions. *)
Lemma nearest_mono n1 d1 n2 d2 :
  0 <= n1 -> 0 < d1 -> 0 < d2 -> n1 * d2 <= n2 * d1 ->
  units (nearest n1 d1) <= units (nearest n2 d2).
Proof.
  intros Hn1 Hd1 Hd2 Hle.
  assert (Hn2 : 0 <= n2) by nia.
  pose proof (nearest_exponent n1 d1) as He1.
  pose proof (nearest_exponent n2 d2) as He2.
  pose proof (nearest_nonneg n2 d2 Hn2 Hd2) as Hm2.
  destruct (Z.eq_dec n1 0) as [->|Hz].
  { unfold units. rewrite nearest_zero by exact Hd1.
    pose proof (pow2_pos ((nearest n2 d2).2 + 1074) ltac:(lia)). nia. }
  assert (Hp1 : 0 < n1) by lia. assert (Hp2 : 0 < n2) by nia.
  pose proof (floorLog2_mono _ _ _ _ Hp1 Hd1 Hp2 Hd2 Hle) as HL.
  unfold units, nearest in *.
  set (L1 := floorLog2 n1 d1) in *. set (L2 := floorLog2 n2 d2) in *.
  set (e1 := Z.max (L1 - 52) (-1074)) in *. set (e2 := Z.max (L2 - 52) (-1074)) in *.
  destruct (scale n1 d1 e1) as [a b] eqn:Hs1.
  destruct (scale n2 d2 e2) as [c d] eqn:Hs2.
  cbn [fst snd] in *.
  set (k := 1074 + Z.abs L1).
  destruct (scale_spec _ _ _ _ _ k Hd1 Hs1 ltac:(lia) ltac:(lia)) as [Hb Hab].
  destruct (scale_spec _ _ _ _ _ k Hd2 Hs2 ltac:(lia) ltac:(lia)) as [Hd Hcd].
  pose proof (pow2_pos k ltac:(lia)) as Hk.
  pose proof (pow2_pos (e1 + k) ltac:(lia)) as Hk1.
  pose proof (pow2_pos (e2 + k) ltac:(lia)) as Hk2.
  destruct (Z.eq_dec e1 e2) as [Heq|Hne].
  - rewrite <- Heq in *.
    pose proof (pow2_pos (e1 + 1074) ltac:(lia)).
    apply Z.mul_le_mono_nonneg_r; [lia|].
    apply roundHalfEven_mono; [exact Hb | exact Hd|].
    assert (Hx : (a * d) * (d1 * d2 * 2 ^ (e1 + k)) <= (c * b) * (d1 * d2 * 2 ^ (e1 + k))).
    { replace ((a * d) * (d1 * d2 * 2 ^ (e1 + k)))
        with ((a * (d1 * 2 ^ (e1 + k))) * (d * d2)) by ring.
      replace ((c * b) * (d1 * d2 * 2 ^ (e1 + k)))
        with ((c * (d2 * 2 ^ (e1 + k))) * (b * d1)) by ring.
      rewrite Hab, Hcd.
      replace (n1 * 2 ^ k * b * (d * d2)) with ((n1 * d2) * (2 ^ k * b * d)) by ring.
      replace (n2 * 2 ^ k * d * (b * d1)) with ((n2 * d1) * (2 ^ k * b * d)) by ring.
      apply Z.mul_le_mono_nonneg_r; [nia | exact Hle]. }
    apply Z.mul_le_mono_pos_r in Hx; [exact Hx | nia].
  - assert (Hlt : e1 + 1 <= e2) by lia.
    assert (He2L : e2 = L2 - 52) by lia.
    destruct (floorLog2_spec n1 d1 k Hp1 Hd1 ltac:(lia) ltac:(lia)) as [_ Hup].
    destruct (floorLog2_spec n2 d2 k Hp2 Hd2 ltac:(lia) ltac:(lia)) as [Hlow _].
    fold L1 in Hup. fold L2 in Hlow.
    assert (Ha : roundHalfEven a b <= 2 ^ 53).
    { apply roundHalfEven_le; [exact Hb|].
      assert (Hx : a * (d1 * 2 ^ (e1 + k)) <= (2 ^ 53 * b) * (d1 * 2 ^ (e1 + k))).
      { rewrite Hab.
        replace ((2 ^ 53 * b) * (d1 * 2 ^ (e1 + k)))
          with ((d1 * (2 ^ 53 * 2 ^ (e1 + k))) * b) by ring.
        rewrite <- Z.pow_add_r by lia.
        pose proof (pow2_le (L1 + k + 1) (53 + (e1 + k)) ltac:(lia)).
        apply Z.mul_le_mono_nonneg_r; [lia | nia]. }
      apply Z.mul_le_mono_pos_r in Hx; [exact Hx | nia]. }
    assert (Hc : 2 ^ 52 <= roundHalfEven c d).
    { apply roundHalfEven_ge; [exact Hd|].
      assert (Hx : (2 ^ 52 * d) * (d2 * 2 ^ (e2 + k)) <= c * (d2 * 2 ^ (e2 + k))).
      { rewrite Hcd.
        replace ((2 ^ 52 * d) * (d2 * 2 ^ (e2 + k)))
          with ((d2 * (2 ^ 52 * 2 ^ (e2 + k))) * d) by ring.
        rewrite <- Z.pow_add_r by lia.
        replace (52 + (e2 + k)) with (L2 + k) by lia.
        apply Z.mul_le_mono_nonneg_r; [lia | nia]. }
      apply Z.mul_le_mono_pos_r in Hx; [exact Hx | nia]. }
    pose proof (pow2_pos (e1 + 1074) ltac:(lia)) as Hq1.
    pose proof (pow2_pos (e2 + 1074) ltac:(lia)) as Hq2.
    apply Z.le_trans with (2 ^ 53 * 2 ^ (e1 + 1074)); [nia|].
    apply Z.le_trans with (2 ^ 52 * 2 ^ (e2 + 1074)); [|nia].
    rewrite <- !Z.pow_add_r by lia. apply pow2_le. lia.
Qed.

Lemma floorLog2_zero den : 0 < den -> floorLog2 0 den <= 0.
Proof.
  intros Hd. unfold floorLog2. pose proof (Z.log2_nonneg den).
  change (Z.log2 0) with 0.
  destruct (scale 0 den (0 - Z.log2 den)). destruct (_ <? _); lia.
Qed.

Lemma nearest_same t : 0 < t -> nearest t t = (2 ^ 52, -52).
Proof.
  intros Ht. unfold nearest.
  assert (HL : floorLog2 t t = 0).
  { unfold floorLog2. rewrite Z.sub_diag. unfold scale. cbn [Z.leb Z.compare].
    rewrite Z.pow_0_r, Z.mul_1_r, Z.ltb_irrefl. reflexivity. }
  rewrite HL. change (Z.max (0 - 52) (-1074)) with (-52).
  unfold scale. change (0 <=? -52) with false. cbv iota.
  change (- -52) with 52.
  rewrite (Z.mul_comm t), roundHalfEven_exact by exact Ht. reflexivity.
Qed.

Lemma pow2_1075 : 2 ^ 1075 = 2 * 2 ^ 1074.
Proof. change 1075 with (Z.succ 1074). apply Z.pow_succ_r. lia. Qed.

(** [Math.round] in units of [2^-1074]. *)
Lemma mathRound_units m e :
  -1074 <= e -> mathRound m e = (2 * units (m, e) + 2 ^ 1074) / 2 ^ 1075.
Proof.
  intros He. unfold mathRound, units. cbn [fst snd].
  rewrite pow2_1075.
  destruct (Z.leb_spec 0 e) as [H0|H0].
  - rewrite Z.pow_add_r by lia.
    pose proof (pow2_pos 1074 ltac:(lia)) as HQ.
    generalize dependent (2 ^ 1074). intros Q HQ.
    replace (2 * (m * (2 ^ e * Q)) + Q) with (m * 2 ^ e * (2 * Q) + Q) by ring.
    rewrite Z.div_add_l by lia. rewrite Z.div_small by lia. lia.
  - assert (HQ : 2 ^ 1074 = 2 ^ (e + 1074) * 2 ^ (- e)).
    { rewrite <- Z.pow_add_r by lia. f_equal. lia. }
    assert (H1 : 2 ^ (1 - e) = 2 * 2 ^ (- e)).
    { replace (1 - e) with (Z.succ (- e)) by lia. apply Z.pow_succ_r. lia. }
    rewrite HQ, H1.
    pose proof (pow2_pos (e + 1074) ltac:(lia)) as HP.
    pose proof (pow2_pos (- e) ltac:(lia)) as HN.
    replace (2 * (m * 2 ^ (e + 1074)) + 2 ^ (e + 1074) * 2 ^ (- e))
      with (2 ^ (e + 1074) * (2 * m + 2 ^ (- e))) by ring.
    replace (2 * (2 ^ (e + 1074) * 2 ^ (- e)))
      with (2 ^ (e + 1074) * (2 * 2 ^ (- e))) by ring.
    rewrite Z.div_mul_cancel_l by lia. reflexivity.
Qed.

Lemma mathRound_mono m1 e1 m2 e2 :
  -1074 <= e1 -> -1074 <= e2 -> units (m1, e1) <= units (m2, e2) ->
  mathRound m1 e1 <= mathRound m2 e2.
Proof.
  intros H1 H2 Hle. rewrite !mathRound_units by assumption.
  pose proof (pow2_pos 1075 ltac:(lia)).
  apply Z.div_le_mono; lia.
Qed.

Lemma nearest_100 : nearest 100 1 = (100 * 2 ^ 46, -46).
Proof. vm_compute. reflexivity. Qed.

Lemma nearest_1 : nearest 1 1 = (2 ^ 52, -52).
Proof. apply nearest_same. lia. Qed.

Lemma units_1 : units (2 ^ 52, -52) = 2 ^ 1074.
Proof.
  unfold units. cbn [fst snd]. rewrite <- Z.pow_add_r by lia. reflexivity.
Qed.

Lemma units_100 : units (100 * 2 ^ 46, -46) = 100 * 2 ^ 1074.
Proof.
  unfold units. cbn [fst snd]. rewrite <- Z.mul_assoc, <- Z.pow_add_r by lia.
  reflexivity.
Qed.

(** The fraction that [share] rounds is a hundred times the quotient. *)
Lemma share_fraction m e n d k :
  -1074 <= e -> scale (m * 100) 1 (- e) = (n, d) -> 0 <= k -> e <= k ->
  0 < d /\ n * 2 ^ (k + 1074) = 100 * units (m, e) * 2 ^ k * d.
Proof.
  intros He Hs Hk Hek.
  destruct (scale_spec (m * 100) 1 (- e) n d k ltac:(lia) Hs Hk ltac:(lia))
    as [Hd Heq].
  split; [exact Hd|]. unfold units. cbn [fst snd].
  assert (Hp : 2 ^ (k + 1074) = 2 ^ (- e + k) * 2 ^ (e + 1074)).
  { rewrite <- Z.pow_add_r by lia. f_equal. lia. }
  rewrite Hp. rewrite Z.mul_1_l in Heq.
  rewrite Z.mul_assoc, Heq. ring.
Qed.

Lemma share_exponent p t : -1074 <= (share p t).2.
Proof. apply nearest_exponent. Qed.

Lemma share_mono p q t :
  0 < p <= q -> 0 < t -> units (share p t) <= units (share q t).
Proof.
  intros Hpq Ht. unfold share.
  pose proof (nearest_mono p t q t ltac:(lia) Ht Ht ltac:(nia)) as Hu.
  pose proof (nearest_exponent p t) as He1. pose proof (nearest_exponent q t) as He2.
  pose proof (nearest_nonneg p t ltac:(lia) Ht) as Hm1.
  destruct (nearest p t) as [m1 e1]. destruct (nearest q t) as [m2 e2].
  cbn [fst snd] in *.
  destruct (scale (m1 * 100) 1 (- e1)) as [n1 d1] eqn:Hs1.
  destruct (scale (m2 * 100) 1 (- e2)) as [n2 d2] eqn:Hs2.
  cbn [fst snd].
  set (k := Z.abs e1 + Z.abs e2).
  destruct (share_fraction m1 e1 n1 d1 k He1 Hs1 ltac:(lia) ltac:(lia)) as [Hd1 Hf1].
  destruct (share_fraction m2 e2 n2 d2 k He2 Hs2 ltac:(lia) ltac:(lia)) as [Hd2 Hf2].
  apply nearest_mono; [|exact Hd1 | exact Hd2|].
  - apply (scale_nonneg (m1 * 100) 1 (- e1) n1 d1 ltac:(lia) Hs1).
  - pose proof (pow2_pos (k + 1074) ltac:(lia)) as Hk.
    pose proof (pow2_pos k ltac:(lia)) as Hk'.
    apply (Z.mul_le_mono_pos_r _ _ (2 ^ (k + 1074))); [exact Hk|].
    replace (n1 * d2 * 2 ^ (k + 1074)) with (n1 * 2 ^ (k + 1074) * d2) by ring.
    replace (n2 * d1 * 2 ^ (k + 1074)) with (n2 * 2 ^ (k + 1074) * d1) by ring.
    rewrite Hf1, Hf2.
    replace (100 * units (m1, e1) * 2 ^ k * d1 * d2)
      with (units (m1, e1) * (100 * 2 ^ k * d1 * d2)) by ring.
    replace (100 * units (m2, e2) * 2 ^ k * d2 * d1)
      with (units (m2, e2) * (100 * 2 ^ k * d1 * d2)) by ring.
    apply Z.mul_le_mono_nonneg_r; [nia | exact Hu].
Qed.

(** A share of at most the whole is at most 100. *)
Lemma share_bound p t :
  0 < p <= t ->
  0 <= (share p t).1 /\ units (share p t) <= 100 * 2 ^ 1074 /\ (share p t).2 <= -46.
Proof.
  intros Hpt. unfold share.
  pose proof (nearest_mono p t 1 1 ltac:(lia) ltac:(lia) ltac:(lia) ltac:(lia)) as Hu.
  rewrite nearest_1, units_1 in Hu.
  pose proof (nearest_exponent p t) as He1.
  pose proof (nearest_nonneg p t ltac:(lia) ltac:(lia)) as Hm1.
  destruct (nearest p t) as [m1 e1]. cbn [fst snd] in *.
  destruct (scale (m1 * 100) 1 (- e1)) as [n d] eqn:Hs. cbn [fst snd].
  set (k := Z.abs e1).
  destruct (share_fraction m1 e1 n d k He1 Hs ltac:(lia) ltac:(lia)) as [Hd Hf].
  pose proof (scale_nonneg (m1 * 100) 1 (- e1) n d ltac:(lia) Hs) as Hn.
  assert (Hle : n * 1 <= 100 * d).
  { pose proof (pow2_pos (k + 1074) ltac:(lia)) as Hk.
    pose proof (pow2_pos k ltac:(lia)) as Hk'.
    apply (Z.mul_le_mono_pos_r _ _ (2 ^ (k + 1074))); [exact Hk|].
    rewrite Z.mul_1_r, Hf, Z.pow_add_r by lia.
    replace (100 * d * (2 ^ k * 2 ^ 1074)) with (2 ^ 1074 * (100 * 2 ^ k * d)) by ring.
    replace (100 * units (m1, e1) * 2 ^ k * d)
      with (units (m1, e1) * (100 * 2 ^ k * d)) by ring.
    apply Z.mul_le_mono_nonneg_r; [nia | exact Hu]. }
  split; [apply nearest_nonneg; assumption|]. split.
  - pose proof (nearest_mono n d 100 1 Hn Hd ltac:(lia) Hle) as H100.
    rewrite nearest_100, units_100 in H100. exact H100.
  - destruct (Z.eq_dec n 0) as [->|Hz].
    + pose proof (floorLog2_zero d Hd). unfold nearest.
      destruct (scale 0 d _). cbn. lia.
    + pose proof (nearest_exponent_mono n d 100 1 ltac:(lia) Hd ltac:(lia)
                    ltac:(lia) Hle) as He.
      rewrite nearest_100 in He. exact He.
Qed.

End NumberFacts.

(** * Progress values *)

Section ProgressFacts.
Import App Schedule RunSpec.
Local Open Scope list_scope.

Lemma roundPercent_share total p :
  0 < p -> 0 < total ->
  roundPercent p total =
  if JsNumber.isFinite (NumberSpec.share p total).1 (NumberSpec.share p total).2
  then Finite (JsNumber.mathRound (NumberSpec.share p total).1
                                  (NumberSpec.share p total).2)
  else NotFinite.
Proof.
  intros Hp Ht. unfold roundPercent, NumberSpec.share.
  destruct (Z.eqb_spec total 0) as [|_]; [lia|].
  rewrite (Z.sgn_pos p), (Z.sgn_pos total), (Z.abs_eq p), (Z.abs_eq total) by lia.
  destruct (JsNumber.nearest p total) as [m1 e1]. cbn [fst snd].
  destruct (JsNumber.scale (m1 * 100) 1 (- e1)) as [n d]. cbn [fst snd].
  destruct (JsNumber.nearest n d) as [m2 e2]. cbn [fst snd].
  change (1 * 1) with 1. rewrite Z.mul_1_l. reflexivity.
Qed.

Lemma share_isFinite total p :
  0 < p <= total ->
  JsNumber.isFinite (NumberSpec.share p total).1 (NumberSpec.share p total).2 = true.
Proof.
  intros Hp. destruct (share_bound p total Hp) as (_ & _ & He).
  unfold JsNumber.isFinite.
  destruct (Z.ltb_spec (NumberSpec.share p total).2 971); [reflexivity | lia].
Qed.

Lemma percentOf_share total p :
  0 < p <= total ->
  percentOf total p =
  JsNumber.mathRound (NumberSpec.share p total).1 (NumberSpec.share p total).2.
Proof.
  intros Hp. unfold percentOf.
  rewrite roundPercent_share, share_isFinite by lia. reflexivity.
Qed.

Lemma roundPercent_finite total p :
  0 < p <= total -> roundPercent p total = Finite (percentOf total p).
Proof.
  intros Hp. rewrite percentOf_share by exact Hp.
  rewrite roundPercent_share, share_isFinite by lia. reflexivity.
Qed.

Lemma percentOf_range total p : 0 < p <= total -> 0 <= percentOf total p <= 100.
Proof.
  intros Hp. rewrite percentOf_share by exact Hp.
  destruct (share_bound p total Hp) as (Hm & Hu & _).
  pose proof (share_exponent p total) as He.
  destruct (NumberSpec.share p total) as [m e]. cbn [fst snd] in *. split.
  - rewrite mathRound_units by exact He.
    pose proof (pow2_pos 1074 ltac:(lia)). pose proof (pow2_pos 1075 ltac:(lia)).
    pose proof (pow2_pos (e + 1074) ltac:(lia)).
    apply Z.div_pos; [unfold NumberSpec.units; cbn [fst snd]; nia | lia].
  - change 100 with (JsNumber.mathRound (100 * 2 ^ 46) (-46)).
    apply mathRound_mono; [exact He | lia|].
    rewrite units_100. exact Hu.
Qed.

Lemma percentOf_mono total p q :
  0 < p <= q -> q <= total -> percentOf total p <= percentOf total q.
Proof.
  intros Hpq Hq. rewrite !percentOf_share by lia.
  pose proof (share_mono p q total Hpq ltac:(lia)) as Hu.
  pose proof (share_exponent p total). pose proof (share_exponent q total).
  destruct (NumberSpec.share p total), (NumberSpec.share q total).
  apply mathRound_mono; assumption.
Qed.

Lemma percentOf_full total : 0 < total -> percentOf total total = 100.
Proof.
  intros Ht. rewrite percentOf_share by lia.
  unfold NumberSpec.share. rewrite nearest_same by exact Ht. reflexivity.
Qed.

Lemma seqZ_lookup start k i x :
  seqZ start k !! i = Some x <-> x = start + Z.of_nat i /\ (i < k)%nat.
Proof.
  revert start i. induction k as [|k IH]; intros start i.
  - unfold seqZ. cbn. rewrite lookup_nil. split; [discriminate | lia].
  - rewrite seqZ_cons. destruct i as [|i]; cbn [lookup list_lookup].
    + split; [intros [= <-]; lia | intros [-> _]; f_equal; lia].
    + rewrite IH. lia.
Qed.

Lemma seqZ_length start k : length (seqZ start k) = k.
Proof. unfold seqZ. rewrite length_map, length_seq. reflexivity. Qed.

Lemma nonDecreasing_nil : nonDecreasing [].
Proof. intros i j a b _ H. rewrite lookup_nil in H. discriminate. Qed.

Lemma nonDecreasing_cons a zs :
  Forall (fun b => a <= b) zs -> nonDecreasing zs -> nonDecreasing (a :: zs).
Proof.
  intros Ha Hz i j x y Hij Hi Hj.
  destruct i as [|i], j as [|j]; cbn in Hi, Hj.
  - injection Hi as <-. injection Hj as <-. lia.
  - injection Hi as <-. rewrite List.Forall_forall in Ha. apply Ha.
    apply list_elem_of_In, list_elem_of_lookup. eauto.
  - lia.
  - apply (Hz i j); [lia | assumption..].
Qed.

Lemma nonDecreasing_snoc zs b :
  Forall (fun a => a <= b) zs -> nonDecreasing zs -> nonDecreasing (zs ++ [b]).
Proof.
  intros Hb Hz i j x y Hij Hi Hj.
  destruct (lt_dec j (length zs)) as [Hjl|Hjl].
  - rewrite lookup_app_l in Hi, Hj by lia. apply (Hz i j); assumption.
  - assert (y = b) as ->.
    { rewrite lookup_app_r in Hj by lia.
      destruct (j - length zs)%nat; cbn in Hj; [congruence|].
      try rewrite lookup_nil in Hj. discriminate. }
    destruct (lt_dec i (length zs)) as [Hil|Hil].
    + rewrite lookup_app_l in Hi by lia.
      rewrite List.Forall_forall in Hb. apply Hb.
      apply list_elem_of_In, list_elem_of_lookup. eauto.
    + rewrite lookup_app_r in Hi by lia.
      destruct (i - length zs)%nat; cbn in Hi; [injection Hi as <-; lia|].
      try rewrite lookup_nil in Hi. discriminate.
Qed.

Lemma nonDecreasing_percent total start k :
  0 < start -> start + Z.of_nat k - 1 <= total ->
  nonDecreasing (map (percentOf total) (seqZ start k)).
Proof.
  intros Hs Ht i j a b Hij Hi Hj.
  change (map (percentOf total) (seqZ start k))
    with (percentOf total <$> seqZ start k) in Hi, Hj.
  apply list_lookup_fmap_Some in Hi as (p & -> & Hp).
  apply list_lookup_fmap_Some in Hj as (q & -> & Hq).
  destruct (proj1 (seqZ_lookup _ _ _ _) Hp) as [-> ?].
  destruct (proj1 (seqZ_lookup _ _ _ _) Hq) as [-> ?].
  apply percentOf_mono; lia.
Qed.

Lemma percent_values_range total k :
  Z.of_nat k <= total ->
  Forall (fun z => 0 <= z <= 100) (map (percentOf total) (seqZ 1 k)).
Proof.
  intros Hk. apply List.Forall_forall. intros z Hz.
  apply in_map_iff in Hz as (p & <- & Hp).
  apply list_elem_of_In, list_elem_of_lookup in Hp as (i & Hi).
  destruct (proj1 (seqZ_lookup _ _ _ _) Hi) as [-> Hlt].
  apply percentOf_range; lia.
Qed.

End ProgressFacts.

(** * The shape of a run of [handleEncrypt] *)

Section RunShape.
Import App Schedule RunSpec.
Local Open Scope list_scope.

Lemma cellsOf_tableSteps ms rs : cellsOf (tableSteps ms rs) = tableSteps ms rs.
Proof.
  unfold cellsOf. apply forallb_filter_id, forallb_forall.
  intros s Hs. unfold tableSteps in Hs.
  apply in_flat_map in Hs as (row & _ & Hs).
  apply in_map_iff in Hs as (m & <- & _). reflexivity.
Qed.

Lemma targetCount_cellsOf ss : targetCount (cellsOf ss) = targetCount ss.
Proof.
  unfold targetCount, cellsOf. induction ss as [|[row m|] r IH]; cbn; [reflexivity| |exact IH].
  destruct (isTarget m); cbn; rewrite IH; reflexivity.
Qed.

Lemma targetCount_rowSteps ms row :
  targetCount (rowSteps ms row) = length (List.filter isTarget ms).
Proof.
  unfold rowSteps. induction ms as [|m r IH]; [reflexivity|].
  cbn [map]. rewrite targetCount_cell. cbn [List.filter].
  destruct (isTarget m); cbn [length]; rewrite IH; reflexivity.
Qed.

Lemma targetCount_tableSteps ms rs :
  targetCount (tableSteps ms rs) =
  (length rs * length (List.filter isTarget ms))%nat.
Proof.
  unfold tableSteps. induction rs as [|row r IH]; [reflexivity|].
  cbn [flat_map length]. rewrite targetCount_app, targetCount_rowSteps, IH. lia.
Qed.

(** A run is the schedule of the table, then the serializer and the
    download; an exception anywhere ends it in the [catch] block. *)
Lemma handleEncrypt_shape h w pd f :
  parsedData (app w) = Some pd -> file (app w) = Some f ->
  exists ss,
    cellsOf ss = tableSteps (columnMappings (app w)) (rows pd) /\
    let total := Z.of_nat (length (rows pd)) *
                 Z.of_nat (length (List.filter isTarget (columnMappings (app w)))) in
    let R := runSteps h total ss (MkLocals 0 0)
               (setProgress (Finite 0) (setState ENCRYPTING w)) in
    match R.1 with
    | Throw e => handleEncrypt h w = caught e R.2
    | Ok l =>
        (exists e, handleEncrypt h w = caught e R.2) \/
        (exists blob,
            blobRows blob = FileGenerator.sheetRows (store R.2) pd /\
            blobHeaders blob = headers pd /\
            handleEncrypt h w = completed h pd f l blob R.2)
    end.
Proof.
  intros Hpd Hf.
  destruct (chunkLoop_steps h (rows pd) (columnMappings (app w))
              (Z.of_nat (length (rows pd)) *
               Z.of_nat (length (List.filter isTarget (columnMappings (app w))))) 0)
    as (ss & Hcells & Hrun).
  exists ss. rewrite drop_0 in Hcells. split; [exact Hcells|].
  cbn zeta. unfold handleEncrypt. rewrite Hpd, Hf. unfold encryptBody.
  rewrite Hrun.
  destruct (runSteps h _ ss _ _) as [[l|e] w1]; cbn [fst snd]; [|reflexivity].
  assert (Hgen : forall g : outcome Blob,
             (exists blob, g = Ok blob /\
                 blobRows blob = FileGenerator.sheetRows (store w1) pd /\
                 blobHeaders blob = headers pd) \/ (exists e, g = Throw e) ->
             (exists e,
                 match
                   match g with
                   | Ok blob =>
                       match downloadFile (downloadFault h) blob
                               (FileGenerator.generateDownloadFilename (today h) (fileName f) None) w1 with
                       | (Ok _, w2) =>
                           (Ok tt,
                            setProgress (Finite 100)
                              (setState COMPLETE
                                 (setStats
                                    (MkStats (Z.of_nat (length (rows pd)))
                                       (encryptedCount l) (endTime h - startTime h)) w2)))
                       | (Throw e, w2) => (Throw e, w2)
                       end
                   | Throw e => (Throw e, w1)
                   end
                 with
                 | (Ok _, w1) => w1
                 | (Throw e, w1) => caught e w1
                 end = caught e w1) \/
             (exists blob,
                 blobRows blob = FileGenerator.sheetRows (store w1) pd /\
                 blobHeaders blob = headers pd /\
                 match
                   match g with
                   | Ok blob =>
                       match downloadFile (downloadFault h) blob
                               (FileGenerator.generateDownloadFilename (today h) (fileName f) None) w1 with
                       | (Ok _, w2) =>
                           (Ok tt,
                            setProgress (Finite 100)
                              (setState COMPLETE
                                 (setStats
                                    (MkStats (Z.of_nat (length (rows pd)))
                                       (encryptedCount l) (endTime h - startTime h)) w2)))
                       | (Throw e, w2) => (Throw e, w2)
                       end
                   | Throw e => (Throw e, w1)
                   end
                 with
                 | (Ok _, w1) => w1
                 | (Throw e, w1) => caught e w1
                 end = completed h pd f l blob w1)).
  { intros g [(blob & -> & Hrows & Hhd) | (e & ->)].
    - unfold downloadFile. destruct (downloadFault h) as [e|].
      + left. exists e. reflexivity.
      + right. exists blob. split; [exact Hrows|]. split; [exact Hhd|]. reflexivity.
    - left. exists e. reflexivity. }
  destruct (FileParser.detectFileType f); apply Hgen;
    unfold FileGenerator.generateExcel, FileGenerator.generateCSV;
    match goal with |- context [generateFault h ?b] =>
      destruct (generateFault h b) as [e|];
      [right; exists e; reflexivity | left; exists b; repeat split] end.
Qed.

End RunShape.

(** * The progress sequence of a run *)

Section ProgressOfRun.
Import App Schedule RunSpec.
Local Open Scope list_scope.

Lemma roundPercent_values total k :
  Z.of_nat k <= total ->
  map (fun p => roundPercent p total) (seqZ 1 k) =
  map Finite (map (percentOf total) (seqZ 1 k)).
Proof.
  intros Hk. rewrite map_map. apply map_ext_in. intros p Hp.
  apply list_elem_of_In, list_elem_of_lookup in Hp as (i & Hi).
  destruct (proj1 (seqZ_lookup _ _ _ _) Hi) as [-> Hlt].
  apply roundPercent_finite. lia.
Qed.

Lemma progress_list_ok total k (tail : list Z) :
  Z.of_nat k <= total -> (tail = [] \/ tail = [100]) ->
  Forall (fun z => 0 <= z <= 100) (0 :: map (percentOf total) (seqZ 1 k) ++ tail) /\
  nonDecreasing (0 :: map (percentOf total) (seqZ 1 k) ++ tail).
Proof.
  intros Hk Htail.
  pose proof (percent_values_range total k Hk) as Hr.
  assert (Hmid : nonDecreasing (map (percentOf total) (seqZ 1 k))).
  { apply nonDecreasing_percent; lia. }
  assert (Hall : Forall (fun z => 0 <= z <= 100)
                   (map (percentOf total) (seqZ 1 k) ++ tail)).
  { apply Forall_app. split; [exact Hr|].
    destruct Htail as [-> | ->]; repeat constructor; lia. }
  split; [constructor; [lia | exact Hall]|].
  apply nonDecreasing_cons.
  - eapply Forall_impl; [exact Hall|]. cbn. intros; lia.
  - destruct Htail as [-> | ->]; [rewrite app_nil_r; exact Hmid|].
    apply nonDecreasing_snoc; [|exact Hmid].
    eapply Forall_impl; [exact Hr|]. cbn. intros; lia.
Qed.

End ProgressOfRun.

(** C6, as the code has it.  The values passed to [setProgress] during a
    run are finite numbers between 0 and 100, they never decrease, the
    first is 0, and the last value of a successful run is 100, also for a
    table without rows.  (100 can be reported before the run is over.) *)
Theorem handleEncrypt_progress (h : Host) (w : World) (pd : ParsedData) (f : File) :
  parsedData (app w) = Some pd -> file (app w) = Some f ->
  exists evs zs,
    trace (App.handleEncrypt h w) = (trace w ++ evs)%list /\
    RunSpec.progressValues evs = map Finite zs /\
    Forall (fun z => 0 <= z <= 100) zs /\
    RunSpec.nonDecreasing zs /\
    head zs = Some 0 /\
    (RunSpec.succeeded (App.handleEncrypt h w) -> last zs = Some 100).
Proof.
  intros Hpd Hf.
  destruct (handleEncrypt_shape h w pd f Hpd Hf) as (ss & Hcells & Hshape).
  cbn zeta in Hshape.
  set (total := Z.of_nat (length (rows pd)) *
                Z.of_nat (length (List.filter isTarget (columnMappings (app w))))) in *.
  set (w0 := App.setProgress (Finite 0) (App.setState ENCRYPTING w)) in *.
  destruct (runSteps_trace h total ss (App.MkLocals 0 0) w0)
    as (evs1 & k & Htr & _ & _ & Hpv & Hk & _).
  assert (Hkt : Z.of_nat k <= total).
  { rewrite <- targetCount_cellsOf, Hcells, targetCount_tableSteps in Hk.
    unfold total. nia. }
  cbn [App.processedCells] in Hpv. rewrite Z.add_0_l in Hpv.
  rewrite (roundPercent_values total k Hkt) in Hpv.
  assert (Htr0 : trace (Schedule.runSteps h total ss (App.MkLocals 0 0) w0).2 =
                 (trace w ++ EvProgress (Finite 0) :: evs1)%list).
  { rewrite Htr. unfold w0. cbn [App.setProgress App.emit trace].
    rewrite <- app_assoc. reflexivity. }
  destruct (progress_list_ok total k [] Hkt (or_introl eq_refl)) as [Hr1 Hm1].
  destruct (progress_list_ok total k [100] Hkt (or_intror eq_refl)) as [Hr2 Hm2].
  rewrite app_nil_r in Hr1, Hm1.
  assert (Hfail : forall e,
    App.handleEncrypt h w =
      RunSpec.caught e (Schedule.runSteps h total ss (App.MkLocals 0 0) w0).2 ->
    exists evs zs,
      trace (App.handleEncrypt h w) = (trace w ++ evs)%list /\
      RunSpec.progressValues evs = map Finite zs /\
      Forall (fun z => 0 <= z <= 100) zs /\
      RunSpec.nonDecreasing zs /\
      head zs = Some 0 /\
      (RunSpec.succeeded (App.handleEncrypt h w) -> last zs = Some 100)).
  { intros e He.
    exists (EvProgress (Finite 0) :: evs1),
           (0 :: map (RunSpec.percentOf total) (RunSpec.seqZ 1 k)).
    rewrite He. conjs.
    - exact Htr0.
    - cbn [RunSpec.progressValues map]. rewrite Hpv. reflexivity.
    - exact Hr1.
    - exact Hm1.
    - reflexivity.
    - unfold RunSpec.succeeded. cbn. discriminate. }
  destruct (Schedule.runSteps h total ss (App.MkLocals 0 0) w0).1 as [l|e];
    [|exact (Hfail e Hshape)].
  destruct Hshape as [(e & He) | (blob & _ & _ & Hdone)]; [exact (Hfail e He)|].
  exists (EvProgress (Finite 0) :: evs1 ++
            [EvDownload blob
               (FileGenerator.generateDownloadFilename (today h) (fileName f) None);
             EvProgress (Finite 100)]),
         (0 :: map (RunSpec.percentOf total) (RunSpec.seqZ 1 k) ++ [100]).
  rewrite Hdone. conjs.
  - unfold RunSpec.completed.
    cbn [App.setProgress App.setState App.setStats App.updateApp App.emit trace].
    rewrite Htr0. rewrite <- !app_assoc. reflexivity.
  - cbn [RunSpec.progressValues]. rewrite progressValues_app, Hpv.
    cbn [RunSpec.progressValues map]. rewrite map_app. reflexivity.
  - exact Hr2.
  - exact Hm2.
  - reflexivity.
  - intros _. rewrite app_comm_cons. apply last_snoc.
Qed.

Lemma handleEncrypt_progress_witness :
  exists evs zs,
    trace (App.handleEncrypt Sample.host Sample.noRows) =
      (trace Sample.noRows ++ evs)%list /\
    RunSpec.progressValues evs = map Finite zs /\
    Forall (fun z => 0 <= z <= 100) zs /\
    RunSpec.nonDecreasing zs /\
    head zs = Some 0 /\
    (RunSpec.succeeded (App.handleEncrypt Sample.host Sample.noRows) ->
     last zs = Some 100).
Proof.
  apply (handleEncrypt_progress Sample.host Sample.noRows
           (MkParsedData ["Email"] [] None 0 1) (MkFile "empty.csv" "text/csv"));
    reflexivity.
Defined.

(** C6, as stated, fails: when the serializer throws after the last cell,
    the run ends in ERROR although 100 has been reported. *)
Lemma progress_100_without_success :
  ~ (In (Finite 100)
        (RunSpec.progressValues
           (trace (App.handleEncrypt Sample.hostGenerateFails Sample.oneCell))) <->
     RunSpec.succeeded (App.handleEncrypt Sample.hostGenerateFails Sample.oneCell)).
Proof.
  intros [Hsucc _].
  assert (Hin : In (Finite 100)
            (RunSpec.progressValues
               (trace (App.handleEncrypt Sample.hostGenerateFails Sample.oneCell)))).
  { vm_compute. right. left. reflexivity. }
  specialize (Hsucc Hin). vm_compute in Hsucc. discriminate.
Qed.

(** * What the loops write: the store *)

Section RunStore.
Import App Schedule RunSpec.
Local Open Scope list_scope.

Variable h : Host.
Variable total : Z.

Lemma applySteps_cons s r sigma :
  applySteps (digestFault h) (s :: r) sigma = applySteps (digestFault h) r (stepEffect (digestFault h) s sigma).
Proof. reflexivity. Qed.

Lemma applySteps_app a b sigma :
  applySteps (digestFault h) (a ++ b) sigma = applySteps (digestFault h) b (applySteps (digestFault h) a sigma).
Proof. unfold applySteps. apply fold_left_app. Qed.

(** The store after a sequence of steps is the store before with the
    writes of the steps that ran applied to it; the number of encrypted
    cells grows by one with each call of [hashValue] that returns. *)
Lemma runSteps_store ss l w :
  exists ran rest,
    ss = ran ++ rest /\
    store (runSteps h total ss l w).2 = applySteps (digestFault h) ran (store w) /\
    hashCalls (trace (runSteps h total ss l w).2) =
      hashCalls (trace w) ++ hashArgs (digestFault h) ran (store w) /\
    (forall l', (runSteps h total ss l w).1 = Ok l' ->
                rest = [] /\
                encryptedCount l' =
                  encryptedCount l + Z.of_nat (length (hashArgs (digestFault h) ss (store w))) /\
                Forall (fun a => exists hash,
                            EncryptionService.hashValue (digestFault h) a = Ok hash)
                       (hashArgs (digestFault h) ss (store w))).
Proof.
  revert l w. induction ss as [|s r IH]; intros l w.
  { exists [], []. cbn. rewrite app_nil_r. conjs; try reflexivity.
    intros l' [= <-]. split; [reflexivity|]. split; [lia | constructor]. }
  cbn [runSteps].
  pose proof (runStep_result h total s l w) as HR.
  destruct HR as [Hs | row m Hs Ht | row m Hs Ht Hne | row m hash Hs Ht Hne Hh
                 | row m e Hs Ht Hne Hh]; subst s.
  - destruct (IH l (emit EvYield w)) as (ran & rest & Hss & Hst & Hhc & Hok).
    exists (Pause :: ran), rest. conjs.
    + rewrite Hss. reflexivity.
    + exact Hst.
    + rewrite Hhc. cbn [emit trace]. rewrite hashCalls_app. cbn. rewrite app_nil_r.
      reflexivity.
    + exact Hok.
  - destruct (IH l w) as (ran & rest & Hss & Hst & Hhc & Hok).
    exists (Cell row m :: ran), rest.
    assert (He : stepEffect (digestFault h) (Cell row m) (store w) = store w).
    { cbn. rewrite Ht. reflexivity. }
    assert (Ha : hashArg (store w) (Cell row m) = None).
    { cbn. rewrite Ht. reflexivity. }
    rewrite applySteps_cons. cbn [hashArgs]. rewrite He, Ha. conjs.
    + rewrite Hss. reflexivity.
    + exact Hst.
    + exact Hhc.
    + exact Hok.
  - destruct (IH (MkLocals (encryptedCount l) (processedCells l + 1))
                 (setProgress (roundPercent (processedCells l + 1) total) w))
      as (ran & rest & Hss & Hst & Hhc & Hok).
    exists (Cell row m :: ran), rest.
    assert (He : stepEffect (digestFault h) (Cell row m) (store w) = store w).
    { cbn. rewrite Ht. unfold cellWrite. rewrite Hne. reflexivity. }
    assert (Ha : hashArg (store w) (Cell row m) = None).
    { cbn. rewrite Ht, Hne. reflexivity. }
    rewrite applySteps_cons. cbn [hashArgs]. rewrite He, Ha. conjs.
    + rewrite Hss. reflexivity.
    + exact Hst.
    + rewrite Hhc. cbn [setProgress emit updateApp trace].
      rewrite hashCalls_app. cbn. rewrite app_nil_r. reflexivity.
    + exact Hok.
  - destruct (IH (MkLocals (encryptedCount l + 1) (processedCells l + 1))
                 (setProgress (roundPercent (processedCells l + 1) total)
                    (writeCell row (columnIndex m) (hashToCell hash)
                       (emit (EvHash (toStringValue
                          (readCell (store w) row (columnIndex m)))) w))))
      as (ran & rest & Hss & Hst & Hhc & Hok).
    exists (Cell row m :: ran), rest.
    assert (He : stepEffect (digestFault h) (Cell row m) (store w) =
                 alter (arraySet (columnIndex m) (hashToCell hash)) row (store w)).
    { cbn. rewrite Ht. unfold cellWrite. rewrite Hne, Hh. reflexivity. }
    assert (Ha : hashArg (store w) (Cell row m) =
                 Some (toStringValue (readCell (store w) row (columnIndex m)))).
    { cbn. rewrite Ht, Hne. reflexivity. }
    rewrite applySteps_cons. cbn [hashArgs]. rewrite He, Ha. conjs.
    + rewrite Hss. reflexivity.
    + exact Hst.
    + rewrite Hhc. cbn [setProgress writeCell emit updateApp trace store].
      rewrite !hashCalls_app. cbn. rewrite app_nil_r, <- app_assoc. reflexivity.
    + intros l' Hl'. destruct (Hok l' Hl') as (Hrest & Hcount & Hall).
      split; [exact Hrest|]. split.
      * rewrite Hcount.
        cbn [encryptedCount setProgress writeCell emit updateApp store length]. lia.
      * constructor; [exists hash; exact Hh | exact Hall].
  - exists [Cell row m], r.
    assert (He : stepEffect (digestFault h) (Cell row m) (store w) = store w).
    { cbn. rewrite Ht. unfold cellWrite. rewrite Hne, Hh. reflexivity. }
    assert (Ha : hashArg (store w) (Cell row m) =
                 Some (toStringValue (readCell (store w) row (columnIndex m)))).
    { cbn. rewrite Ht, Hne. reflexivity. }
    cbn [fst snd]. conjs.
    + reflexivity.
    + unfold applySteps. cbn [fold_left]. rewrite He. reflexivity.
    + cbn [emit trace hashArgs]. rewrite hashCalls_app, Ha. reflexivity.
    + intros l' [=].
Qed.

End RunStore.

(** * The effect of the writes on single cells *)

Section CellFacts.
Import App Schedule RunSpec.
Local Open Scope list_scope.

Variable rejects : list Z -> option exn.

Lemma readCell_cellAt sigma row j :
  readCell sigma row j = default CUndefined (cellAt sigma row j).
Proof. unfold readCell, cellAt. destruct (sigma !! row); reflexivity. Qed.

Lemma cellWrite_nonEmpty v v' : cellWrite rejects v = Some v' -> isNonEmptyCell v = true.
Proof. unfold cellWrite. destruct (isNonEmptyCell v); [reflexivity | discriminate]. Qed.

(** A write happens on a cell that exists. *)
Lemma cellWrite_present sigma row j v' :
  cellWrite rejects (readCell sigma row j) = Some v' ->
  exists arr, sigma !! row = Some arr /\ (j < length arr)%nat /\
              arr !! j = Some (readCell sigma row j).
Proof.
  intros Hw. apply cellWrite_nonEmpty in Hw.
  unfold readCell in *. destruct (sigma !! row) as [arr|]; [|discriminate].
  destruct (arr !! j) as [v|] eqn:Hv; [|discriminate].
  exists arr. split; [reflexivity|]. split.
  - apply lookup_lt_Some in Hv. exact Hv.
  - cbn. exact Hv.
Qed.

Lemma touches_true row j s :
  touches row j s = true <->
  exists m, s = Cell row m /\ isTarget m = true /\ columnIndex m = j.
Proof.
  destruct s as [r m|]; cbn.
  - rewrite !andb_true_iff, !Nat.eqb_eq. split.
    + intros [[Ht ->] <-]. eauto.
    + intros (m' & [= -> ->] & Ht & <-). auto.
  - split; [discriminate | intros (m & [=] & _)].
Qed.

(** One step changes the cell it is about, and no other. *)
Lemma stepEffect_cellAt s sigma row j :
  cellAt (stepEffect rejects s sigma) row j =
  if touches row j s then cellAfter rejects <$> cellAt sigma row j
  else cellAt sigma row j.
Proof.
  destruct (touches row j s) eqn:Htouch.
  - apply touches_true in Htouch as (m & -> & Ht & <-).
    cbn [stepEffect]. rewrite Ht.
    destruct (cellWrite rejects (readCell sigma row (columnIndex m))) as [v'|] eqn:Hw.
    + destruct (cellWrite_present _ _ _ _ Hw) as (arr & Harr & Hlt & Hv).
      unfold cellAt. rewrite lookup_alter_eq, Harr. cbn.
      unfold arraySet. destruct (Nat.ltb_spec (columnIndex m) (length arr)); [|lia].
      rewrite list_lookup_insert_eq by assumption.
      rewrite Hv. cbn. unfold cellAfter. rewrite Hw. reflexivity.
    + rewrite readCell_cellAt in Hw.
      destruct (cellAt sigma row (columnIndex m)) as [v|]; [|reflexivity].
      cbn in *. unfold cellAfter. rewrite Hw. reflexivity.
  - destruct s as [r m|]; [|reflexivity].
    cbn [stepEffect]. destruct (isTarget m) eqn:Ht; [|reflexivity].
    destruct (cellWrite rejects (readCell sigma r (columnIndex m))) as [v'|] eqn:Hw;
      [|reflexivity].
    destruct (cellWrite_present _ _ _ _ Hw) as (arr & Harr & Hlt & Hv).
    unfold cellAt. destruct (decide (r = row)) as [->|Hr].
    + rewrite lookup_alter_eq, Harr. cbn.
      unfold arraySet. destruct (Nat.ltb_spec (columnIndex m) (length arr)); [|lia].
      apply list_lookup_insert_ne.
      intros Heq. cbn in Htouch. rewrite Ht, Heq, !Nat.eqb_refl in Htouch.
      discriminate.
    + rewrite lookup_alter_ne by assumption. reflexivity.
Qed.

Lemma touchCount_cons row j s r :
  touchCount row j (s :: r) =
  if touches row j s then S (touchCount row j r) else touchCount row j r.
Proof. unfold touchCount. cbn. destruct (touches row j s); reflexivity. Qed.

Lemma touchCount_app row j a b :
  touchCount row j (a ++ b) = (touchCount row j a + touchCount row j b)%nat.
Proof. unfold touchCount. rewrite List.filter_app, length_app. reflexivity. Qed.

Lemma touchCount_zero row j ss :
  touchCount row j ss = 0%nat -> existsb (touches row j) ss = false.
Proof.
  induction ss as [|s r IH]; [reflexivity|].
  rewrite touchCount_cons. cbn. destruct (touches row j s); [discriminate|].
  exact IH.
Qed.

(** When at most one step is about a cell, the cell ends up as that step
    leaves it. *)
Lemma applySteps_cellAt ss sigma row j :
  (touchCount row j ss <= 1)%nat ->
  cellAt (applySteps rejects ss sigma) row j =
  if existsb (touches row j) ss then cellAfter rejects <$> cellAt sigma row j
  else cellAt sigma row j.
Proof.
  revert sigma. induction ss as [|s r IH]; intros sigma Hc; [reflexivity|].
  rewrite touchCount_cons in Hc.
  change (applySteps rejects (s :: r) sigma)
    with (applySteps rejects r (stepEffect rejects s sigma)).
  cbn [existsb]. destruct (touches row j s) eqn:Hs.
  - rewrite IH by lia. rewrite (touchCount_zero row j r) by lia.
    rewrite stepEffect_cellAt, Hs. reflexivity.
  - rewrite IH by lia. rewrite stepEffect_cellAt, Hs. reflexivity.
Qed.

(** When no cell has two steps, every step reads its cell as it was at
    the start. *)
Lemma hashArgs_initial ss sigma :
  (forall row j, touchCount row j ss <= 1)%nat ->
  hashArgs rejects ss sigma = omap (hashArg sigma) ss.
Proof.
  revert sigma. induction ss as [|s r IH]; intros sigma Hc; [reflexivity|].
  assert (Hr : forall row j, (touchCount row j r <= 1)%nat).
  { intros row j. specialize (Hc row j). rewrite touchCount_cons in Hc.
    destruct (touches row j s); lia. }
  cbn [hashArgs omap list_omap]. rewrite (IH _ Hr).
  assert (Hsame : omap (hashArg (stepEffect rejects s sigma)) r = omap (hashArg sigma) r).
  { clear IH. assert (Hin : forall s', In s' r -> In s' r) by auto.
    revert Hin. generalize r at 1 3 4 as r'.
    induction r' as [|s' r' IHr]; intros Hin; [reflexivity|].
    cbn [omap list_omap]. rewrite IHr by (intros; apply Hin; right; assumption).
    assert (Hs' : hashArg (stepEffect rejects s sigma) s' = hashArg sigma s').
    { destruct s' as [row' m'|]; [|reflexivity]. cbn [hashArg].
      destruct (isTarget m') eqn:Ht'; [|reflexivity].
      rewrite !readCell_cellAt, stepEffect_cellAt.
      destruct (touches row' (columnIndex m') s) eqn:Hts; [|reflexivity].
      exfalso. specialize (Hc row' (columnIndex m')).
      rewrite touchCount_cons, Hts in Hc.
      assert (Hpos : (1 <= touchCount row' (columnIndex m') r)%nat).
      { specialize (Hin _ (or_introl eq_refl)).
        apply in_split in Hin as (r1 & r2 & ->).
        rewrite touchCount_app, touchCount_cons.
        cbn [touches]. rewrite Ht', !Nat.eqb_refl. cbn. lia. }
      lia. }
    rewrite Hs'. reflexivity. }
  rewrite Hsame. destruct (hashArg sigma s); reflexivity.
Qed.

End CellFacts.

(** * The steps of a table *)

Section TableFacts.
Import App Schedule RunSpec.
Local Open Scope list_scope.

Lemma touchCount_rowSteps ms r row j :
  touchCount row j (rowSteps ms r) =
  if Nat.eqb r row then length (List.filter (targetAt j) ms) else 0%nat.
Proof.
  unfold rowSteps. induction ms as [|m ms IH].
  - destruct (Nat.eqb r row); reflexivity.
  - cbn [map List.filter]. rewrite touchCount_cons, IH. cbn [touches]. unfold targetAt.
    destruct (isTarget m), (Nat.eqb r row), (Nat.eqb (columnIndex m) j); reflexivity.
Qed.

Lemma touchCount_tableSteps ms rs row j :
  touchCount row j (tableSteps ms rs) =
  (count_occ Nat.eq_dec rs row * length (List.filter (targetAt j) ms))%nat.
Proof.
  unfold tableSteps. induction rs as [|r rs IH]; [reflexivity|].
  cbn [flat_map count_occ]. rewrite touchCount_app, touchCount_rowSteps, IH.
  destruct (Nat.eq_dec r row) as [->|Hne].
  - rewrite Nat.eqb_refl. lia.
  - apply Nat.eqb_neq in Hne. rewrite Hne. lia.
Qed.

Lemma distinctTargets_count ms j :
  distinctTargets ms -> (length (List.filter (targetAt j) ms) <= 1)%nat.
Proof.
  unfold distinctTargets. intros Hnd.
  rewrite (NoDup_count_occ Nat.eq_dec) in Hnd. specialize (Hnd j).
  assert (Heq : length (List.filter (targetAt j) ms) =
                count_occ Nat.eq_dec (map columnIndex (List.filter isTarget ms)) j).
  { clear Hnd. induction ms as [|m ms IH]; [reflexivity|].
    cbn [List.filter]. unfold targetAt at 1.
    destruct (isTarget m); cbn [andb map count_occ]; [|exact IH].
    destruct (Nat.eq_dec (columnIndex m) j) as [->|Hne].
    - rewrite Nat.eqb_refl. cbn [length]. rewrite IH. reflexivity.
    - apply Nat.eqb_neq in Hne. rewrite Hne. exact IH. }
  lia.
Qed.

(** In a table with distinct row objects and distinct target columns, no
    cell has two steps. *)
Lemma tableSteps_once ms rs row j :
  List.NoDup rs -> distinctTargets ms ->
  (touchCount row j (tableSteps ms rs) <= 1)%nat.
Proof.
  intros Hrs Hms. rewrite touchCount_tableSteps.
  rewrite (NoDup_count_occ Nat.eq_dec) in Hrs. specialize (Hrs row).
  pose proof (distinctTargets_count ms j Hms). nia.
Qed.

Lemma existsb_touches_rowSteps ms r row j :
  existsb (touches row j) (rowSteps ms r) = Nat.eqb r row && isTargetColumn ms j.
Proof.
  unfold rowSteps, isTargetColumn, targetAt. induction ms as [|m ms IH].
  - cbn. rewrite andb_false_r. reflexivity.
  - cbn [map existsb touches]. rewrite IH.
    destruct (isTarget m), (Nat.eqb r row), (Nat.eqb (columnIndex m) j); reflexivity.
Qed.

Lemma existsb_touches_tableSteps ms rs row j :
  existsb (touches row j) (tableSteps ms rs) =
  existsb (fun r => Nat.eqb r row) rs && isTargetColumn ms j.
Proof.
  unfold tableSteps. induction rs as [|r rs IH]; [reflexivity|].
  cbn [flat_map existsb]. rewrite existsb_app, existsb_touches_rowSteps, IH.
  destruct (existsb (fun r0 => Nat.eqb r0 row) rs), (Nat.eqb r row),
    (isTargetColumn ms j); reflexivity.
Qed.

(** Pauses are about no cell. *)
Lemma touchCount_cellsOf row j ss : touchCount row j (cellsOf ss) = touchCount row j ss.
Proof.
  unfold cellsOf. induction ss as [|[r m|] ss IH]; [reflexivity| |exact IH].
  cbn [List.filter isCell]. rewrite !touchCount_cons, IH. reflexivity.
Qed.

Lemma existsb_touches_cellsOf row j ss :
  existsb (touches row j) (cellsOf ss) = existsb (touches row j) ss.
Proof.
  unfold cellsOf. induction ss as [|[r m|] ss IH]; [reflexivity| |exact IH].
  cbn [List.filter isCell existsb]. rewrite IH. reflexivity.
Qed.

Lemma omap_hashArg_cellsOf sigma ss :
  omap (hashArg sigma) (cellsOf ss) = omap (hashArg sigma) ss.
Proof.
  unfold cellsOf. induction ss as [|[r m|] ss IH]; [reflexivity| |exact IH].
  cbn [List.filter isCell omap list_omap]. rewrite IH. reflexivity.
Qed.

Lemma touchCount_prefix row j a b :
  (touchCount row j a <= touchCount row j (a ++ b))%nat.
Proof. rewrite touchCount_app. lia. Qed.

(** The mappings of [findTargetColumns] point at distinct columns. *)
Lemma findTargetColumns_distinct hs :
  distinctTargets (ColumnMatcher.findTargetColumns hs).
Proof.
  unfold distinctTargets, ColumnMatcher.findTargetColumns.
  assert (Hgen : forall k,
    List.NoDup (map columnIndex
      (List.filter isTarget (imap (fun i => ColumnMatcher.mapHeader (k + i)) hs))) /\
    forall j, In j (map columnIndex
      (List.filter isTarget (imap (fun i => ColumnMatcher.mapHeader (k + i)) hs))) ->
      (k <= j)%nat).
  { induction hs as [|x hs IH]; intros k.
    - split; [constructor | intros j []].
    - cbn [imap]. 
      assert (Hext : imap ((fun i => ColumnMatcher.mapHeader (k + i)) ∘ S) hs =
                     imap (fun i => ColumnMatcher.mapHeader (S k + i)) hs).
      { apply imap_ext. intros i y _. cbn. f_equal. lia. }
      rewrite Hext. destruct (IH (S k)) as [Hnd Hge].
      cbn [List.filter].
      destruct (isTarget (ColumnMatcher.mapHeader (k + 0) x)).
      + cbn [map]. split.
        * constructor; [|exact Hnd]. intros Hin. apply Hge in Hin. cbn in Hin. lia.
        * intros j [<- | Hin]; [cbn; lia | apply Hge in Hin; lia].
      + split; [exact Hnd | intros j Hin; apply Hge in Hin; lia]. }
  apply (Hgen 0%nat).
Qed.

End TableFacts.

(** * The effect of a run *)

Section RunEffect.
Import App Schedule RunSpec.
Local Open Scope list_scope.

(** Everything a run of [handleEncrypt] does: the steps that ran, the
    store they leave, the events they add, and how the page ends. *)
Lemma handleEncrypt_effect h w pd f :
  parsedData (app w) = Some pd -> file (app w) = Some f ->
  exists ss ran rest evs,
    cellsOf ss = tableSteps (columnMappings (app w)) (rows pd) /\
    ss = ran ++ rest /\
    store (handleEncrypt h w) = applySteps (digestFault h) ran (store w) /\
    trace (handleEncrypt h w) = trace w ++ evs /\
    hashCalls evs = hashArgs (digestFault h) ran (store w) /\
    parsedData (app (handleEncrypt h w)) = Some pd /\
    file (app (handleEncrypt h w)) = Some f /\
    columnMappings (app (handleEncrypt h w)) = columnMappings (app w) /\
    ((failed (handleEncrypt h w) /\
      downloads evs = [] /\
      stats (app (handleEncrypt h w)) = stats (app w) /\
      exists e, errorMessage (app (handleEncrypt h w)) =
                messageOr "Encryption failed" e) \/
     (succeeded (handleEncrypt h w) /\
      rest = [] /\
      stats (app (handleEncrypt h w)) =
        MkStats (Z.of_nat (length (rows pd)))
                (Z.of_nat (length (hashArgs (digestFault h) ss (store w))))
                (endTime h - startTime h) /\
      Forall (fun a => exists hash,
                  EncryptionService.hashValue (digestFault h) a = Ok hash)
             (hashArgs (digestFault h) ss (store w)) /\
      errorMessage (app (handleEncrypt h w)) = errorMessage (app w) /\
      exists blob,
        downloads evs =
          [(blob, FileGenerator.generateDownloadFilename (today h) (fileName f) None)] /\
        blobRows blob = FileGenerator.sheetRows (store (handleEncrypt h w)) pd /\
        blobHeaders blob = headers pd)).
Proof.
  intros Hpd Hf.
  destruct (handleEncrypt_shape h w pd f Hpd Hf) as (ss & Hcells & Hshape).
  cbn zeta in Hshape.
  set (total := Z.of_nat (length (rows pd)) *
                Z.of_nat (length (List.filter isTarget (columnMappings (app w))))) in *.
  set (w0 := setProgress (Finite 0) (setState ENCRYPTING w)) in *.
  destruct (runSteps_trace h total ss (MkLocals 0 0) w0)
    as (evs1 & k & Htr & Hsame & Hdl & _ & _ & _).
  destruct (runSteps_store h total ss (MkLocals 0 0) w0)
    as (ran & rest & Hss & Hst & Hhc & Hok).
  change (store w0) with (store w) in Hst, Hhc, Hok.
  assert (Hcalls : hashCalls evs1 = hashArgs (digestFault h) ran (store w)).
  { rewrite Htr, hashCalls_app in Hhc. apply app_inv_head in Hhc. exact Hhc. }
  assert (Htr0 : trace (runSteps h total ss (MkLocals 0 0) w0).2 =
                 trace w ++ EvProgress (Finite 0) :: evs1).
  { rewrite Htr. unfold w0. cbn [setProgress emit trace].
    rewrite <- app_assoc. reflexivity. }
  destruct Hsame as (_ & Hfile & Hparsed & Hcms & Hmsg & Hstats).
  change (file (app w0)) with (file (app w)) in Hfile.
  change (parsedData (app w0)) with (parsedData (app w)) in Hparsed.
  change (columnMappings (app w0)) with (columnMappings (app w)) in Hcms.
  change (errorMessage (app w0)) with (errorMessage (app w)) in Hmsg.
  change (stats (app w0)) with (stats (app w)) in Hstats.
  assert (Hfail : forall e,
    handleEncrypt h w = caught e (runSteps h total ss (MkLocals 0 0) w0).2 ->
    exists ss ran rest evs,
      cellsOf ss = tableSteps (columnMappings (app w)) (rows pd) /\
      ss = ran ++ rest /\
      store (handleEncrypt h w) = applySteps (digestFault h) ran (store w) /\
      trace (handleEncrypt h w) = trace w ++ evs /\
      hashCalls evs = hashArgs (digestFault h) ran (store w) /\
      parsedData (app (handleEncrypt h w)) = Some pd /\
      file (app (handleEncrypt h w)) = Some f /\
      columnMappings (app (handleEncrypt h w)) = columnMappings (app w) /\
      ((failed (handleEncrypt h w) /\
        downloads evs = [] /\
        stats (app (handleEncrypt h w)) = stats (app w) /\
        exists e, errorMessage (app (handleEncrypt h w)) =
                  messageOr "Encryption failed" e) \/
       (succeeded (handleEncrypt h w) /\
        rest = [] /\
        stats (app (handleEncrypt h w)) =
          MkStats (Z.of_nat (length (rows pd)))
                  (Z.of_nat (length (hashArgs (digestFault h) ss (store w))))
                  (endTime h - startTime h) /\
        Forall (fun a => exists hash,
                    EncryptionService.hashValue (digestFault h) a = Ok hash)
               (hashArgs (digestFault h) ss (store w)) /\
        errorMessage (app (handleEncrypt h w)) = errorMessage (app w) /\
        exists blob,
          downloads evs =
            [(blob, FileGenerator.generateDownloadFilename (today h) (fileName f) None)] /\
          blobRows blob = FileGenerator.sheetRows (store (handleEncrypt h w)) pd /\
          blobHeaders blob = headers pd))).
  { intros e He. exists ss, ran, rest, (EvProgress (Finite 0) :: evs1).
    rewrite He. unfold caught.
    cbn [setErrorMessage setState updateApp app store trace
         parsedData file columnMappings stats errorMessage].
    conjs; try assumption.
    - congruence.
    - congruence.
    - congruence.
    - left. conjs.
      + reflexivity.
      + exact Hdl.
      + congruence.
      + exists e. reflexivity. }
  destruct (runSteps h total ss (MkLocals 0 0) w0).1 as [l|e] eqn:Hres;
    [|exact (Hfail e Hshape)].
  destruct Hshape as [(e & He) | (blob & Hrows & Hhd & Hdone)]; [exact (Hfail e He)|].
  destruct (Hok l eq_refl) as (Hrest & Hcount & Hall).
  exists ss, ran, rest,
    (EvProgress (Finite 0) :: evs1 ++
       [EvDownload blob
          (FileGenerator.generateDownloadFilename (today h) (fileName f) None);
        EvProgress (Finite 100)]).
  rewrite Hdone. unfold completed.
  cbn [setProgress setState setStats updateApp emit app store trace
       parsedData file columnMappings stats errorMessage].
  conjs; try assumption.
  - rewrite Htr0, <- !app_assoc. reflexivity.
  - cbn [hashCalls]. rewrite hashCalls_app. cbn. rewrite app_nil_r. exact Hcalls.
  - congruence.
  - congruence.
  - congruence.
  - right. conjs.
    + reflexivity.
    + exact Hrest.
    + rewrite Hcount. cbn [encryptedCount]. rewrite Z.add_0_l. reflexivity.
    + exact Hall.
    + congruence.
    + exists blob. conjs.
      * cbn [downloads]. rewrite downloads_app, Hdl. reflexivity.
      * exact Hrows.
      * exact Hhd.
Qed.

End RunEffect.

(** * The cells after a run *)

Section CellsOfRun.
Import App Schedule RunSpec.
Local Open Scope list_scope.


Lemma existsb_rows_In rs row :
  existsb (fun r => Nat.eqb r row) rs = true <-> In row rs.
Proof.
  rewrite existsb_exists. split.
  - intros (r & Hin & ->%Nat.eqb_eq). exact Hin.
  - intros Hin. exists row. split; [exact Hin | apply Nat.eqb_refl].
Qed.


(** The cells of the table after a successful run over distinct row
    objects and distinct target columns. *)
Lemma successful_run_cells h w pd f :
  parsedData (app w) = Some pd -> file (app w) = Some f ->
  List.NoDup (rows pd) -> distinctTargets (columnMappings (app w)) ->
  succeeded (handleEncrypt h w) ->
  (forall row j,
      In row (rows pd) -> isTargetColumn (columnMappings (app w)) j = true ->
      cellAt (store (handleEncrypt h w)) row j =
      cellAfter (digestFault h) <$> cellAt (store w) row j) /\
  (forall row m,
      In row (rows pd) -> In m (columnMappings (app w)) -> isTarget m = true ->
      isNonEmptyCell (readCell (store w) row (columnIndex m)) = true ->
      exists hash,
        EncryptionService.hashValue (digestFault h)
          (toStringValue (readCell (store w) row (columnIndex m))) = Ok hash) /\
  encryptedCells (stats (app (handleEncrypt h w))) =
    Z.of_nat (nonEmptyTargetCells (columnMappings (app w)) (rows pd) (store w)) /\
  totalRows (stats (app (handleEncrypt h w))) = Z.of_nat (length (rows pd)).
Proof.
  intros Hpd Hf Hrows Hms Hsucc.
  destruct (handleEncrypt_effect h w pd f Hpd Hf)
    as (ss & ran & rest & evs & Hcells & Hss & Hst & _ & _ & _ & _ & _ & Hend).
  destruct Hend as [(Hfail & _) | (_ & Hrest & Hstats & Hall & _)].
  { unfold failed in Hfail. unfold succeeded in Hsucc. congruence. }
  subst rest. rewrite app_nil_r in Hss. subst ran.
  assert (Honce : forall row j, (touchCount row j ss <= 1)%nat).
  { intros row j. rewrite <- touchCount_cellsOf, Hcells.
    apply tableSteps_once; assumption. }
  assert (Hargs : hashArgs (digestFault h) ss (store w) =
                  omap (hashArg (store w))
                       (tableSteps (columnMappings (app w)) (rows pd))).
  { rewrite hashArgs_initial by exact Honce.
    rewrite <- omap_hashArg_cellsOf, Hcells. reflexivity. }
  conjs.
  - intros row j Hin Hj. rewrite Hst, applySteps_cellAt by apply Honce.
    rewrite <- existsb_touches_cellsOf, Hcells, existsb_touches_tableSteps.
    rewrite (proj2 (existsb_rows_In _ _) Hin), Hj. reflexivity.
  - intros row m Hin Hm Ht Hne. rewrite Hargs in Hall.
    rewrite List.Forall_forall in Hall. apply Hall.
    apply list_elem_of_In. apply list_elem_of_omap. exists (Cell row m). split.
    + apply list_elem_of_In. unfold tableSteps. apply in_flat_map.
      exists row. split; [exact Hin|]. unfold rowSteps. apply in_map. exact Hm.
    + cbn [hashArg]. rewrite Ht, Hne. reflexivity.
  - rewrite Hstats. cbn [encryptedCells]. rewrite Hargs. reflexivity.
  - rewrite Hstats. reflexivity.
Qed.

Lemma isTargetColumn_true ms j :
  isTargetColumn ms j = true <->
  exists m, In m ms /\ isTarget m = true /\ columnIndex m = j.
Proof.
  unfold isTargetColumn, targetAt. rewrite existsb_exists. split.
  - intros (m & Hin & [Ht Hj%Nat.eqb_eq]%andb_prop). eauto.
  - intros (m & Hin & Ht & <-). exists m. rewrite Ht, Nat.eqb_refl. auto.
Qed.


End CellsOfRun.

(** * Target cells and other cells *)

Section CellAfter.
Import App RunSpec.

Variable rejects : list Z -> option exn.

Lemma cellAfter_empty v : isNonEmptyCell v = false -> cellAfter rejects v = v.
Proof. intros H. unfold cellAfter, cellWrite. rewrite H. reflexivity. Qed.

Lemma cellAfter_digest v hash :
  isNonEmptyCell v = true ->
  EncryptionService.hashValue rejects (toStringValue v) = Ok hash ->
  JsString.trim (toStringValue v) <> EmptyString ->
  cellAfter rejects v = CString (Spec.digestOf (toStringValue v)).
Proof.
  intros Hne Hh Hnb. unfold cellAfter, cellWrite. rewrite Hne, Hh. cbn.
  destruct hash as [d|].
  - apply hashValue_digest in Hh. subst d. reflexivity.
  - apply hashValue_null_iff in Hh. contradiction.
Qed.

End CellAfter.

Section CountFacts.
Import App Schedule RunSpec.

Lemma isDigestable_true v :
  isDigestable v = true <->
  isNonEmptyCell v = true /\ JsString.trim (toStringValue v) <> EmptyString.
Proof.
  unfold isDigestable. rewrite andb_true_iff, negb_true_iff. split.
  - intros [Hne Hnb]. split; [exact Hne|]. intros He. rewrite He in Hnb. discriminate.
  - intros [Hne Hnb]. split; [exact Hne|].
    destruct (JsString.isEmpty _) eqn:He; [|reflexivity].
    apply isEmpty_true in He. contradiction.
Qed.

(** Without blank target cells, the cells that are hashed are the
    digestable ones. *)
Lemma nonEmpty_digestable ms rs sigma :
  noBlankTargetCell ms rs sigma ->
  nonEmptyTargetCells ms rs sigma = digestableTargetCells ms rs sigma.
Proof.
  intros Hnb. unfold nonEmptyTargetCells, digestableTargetCells.
  assert (Hin : forall s, In s (tableSteps ms rs) ->
                  exists row m, s = Cell row m /\ In row rs /\ In m ms).
  { intros s Hs. unfold tableSteps in Hs. apply in_flat_map in Hs as (row & Hrow & Hs).
    apply in_map_iff in Hs as (m & <- & Hm). eauto. }
  revert Hin. generalize (tableSteps ms rs) as ss.
  induction ss as [|s ss IH]; intros Hin; [reflexivity|].
  assert (IH' := IH (fun s' Hs' => Hin s' (or_intror Hs'))). clear IH.
  destruct (Hin s (or_introl eq_refl)) as (row & m & -> & Hrow & Hm).
  cbn [omap list_omap List.filter hashArg digestableStep].
  destruct (isTarget m) eqn:Ht; [|exact IH']. cbn [andb].
  destruct (isNonEmptyCell (readCell sigma row (columnIndex m))) eqn:Hne.
  - rewrite (Hnb row m Hrow Hm Ht Hne). cbn [length]. rewrite IH'. reflexivity.
  - unfold isDigestable. rewrite Hne. exact IH'.
Qed.

End CountFacts.

(** C1, as the code has it.  After a successful run over a table with
    distinct row objects and distinct target columns, every cell of a
    target column that is a string, number or boolean whose [String()] form
    is not blank holds the digest of that form; a cell that is missing,
    [undefined], [null] or the empty string is as it was.  When no target
    cell is blank, [encryptedCells] is the number of replaced cells.  The
    statistics of the page have no counter of skipped cells. *)
Theorem handleEncrypt_target_cells (h : Host) (w : World) (pd : ParsedData) (f : File) :
  parsedData (app w) = Some pd -> file (app w) = Some f ->
  List.NoDup (rows pd) -> RunSpec.distinctTargets (columnMappings (app w)) ->
  RunSpec.succeeded (App.handleEncrypt h w) ->
  (forall row j,
      In row (rows pd) ->
      RunSpec.isTargetColumn (columnMappings (app w)) j = true ->
      match RunSpec.cellAt (store w) row j with
      | None => RunSpec.cellAt (store (App.handleEncrypt h w)) row j = None
      | Some v =>
          (App.isNonEmptyCell v = false ->
           RunSpec.cellAt (store (App.handleEncrypt h w)) row j = Some v) /\
          (RunSpec.isDigestable v = true ->
           RunSpec.cellAt (store (App.handleEncrypt h w)) row j =
             Some (CString (Spec.digestOf (App.toStringValue v))))
      end) /\
  (RunSpec.noBlankTargetCell (columnMappings (app w)) (rows pd) (store w) ->
   encryptedCells (stats (app (App.handleEncrypt h w))) =
     Z.of_nat (RunSpec.digestableTargetCells
                 (columnMappings (app w)) (rows pd) (store w))).
Proof.
  intros Hpd Hf Hrows Hms Hsucc.
  destruct (successful_run_cells h w pd f Hpd Hf Hrows Hms Hsucc)
    as (Hcell & Hhash & Hcount & _).
  split; [|intros Hnb; rewrite Hcount, (nonEmpty_digestable _ _ _ Hnb); reflexivity].
  intros row j Hin Hj. rewrite (Hcell row j Hin Hj).
  destruct (RunSpec.cellAt (store w) row j) as [v|] eqn:Hv; [|reflexivity].
  cbn. split.
  - intros Hne. rewrite cellAfter_empty by exact Hne. reflexivity.
  - intros [Hne Hnb]%isDigestable_true.
    apply isTargetColumn_true in Hj as (m & Hm & Ht & <-).
    assert (Hread : App.readCell (store w) row (columnIndex m) = v).
    { rewrite readCell_cellAt, Hv. reflexivity. }
    destruct (Hhash row m Hin Hm Ht) as (hash & Hh); [rewrite Hread; exact Hne|].
    rewrite Hread in Hh.
    rewrite (cellAfter_digest _ v hash Hne Hh Hnb). reflexivity.
Qed.

Lemma handleEncrypt_target_cells_witness :
  RunSpec.cellAt (store (App.handleEncrypt Sample.host Sample.people)) 0%nat 0%nat =
    Some (CString (Spec.digestOf "  JOHN  ")) /\
  RunSpec.cellAt (store (App.handleEncrypt Sample.host Sample.people)) 1%nat 1%nat =
    Some CNull /\
  encryptedCells (stats (app (App.handleEncrypt Sample.host Sample.people))) = 3.
Proof.
  destruct (handleEncrypt_target_cells Sample.host Sample.people
              (MkParsedData ["First Name"; "Email"; "Age"] [0%nat; 1%nat] None 2 3)
              (MkFile "people.csv" "text/csv")) as [Hcells Hcount].
  - reflexivity.
  - reflexivity.
  - distinct_numerals.
  - unfold RunSpec.distinctTargets. vm_compute. distinct_numerals.
  - vm_compute. reflexivity.
  - split; [|split].
    + apply (Hcells 0%nat 0%nat); [cbn; tauto | reflexivity | reflexivity].
    + apply (Hcells 1%nat 1%nat); [cbn; tauto | reflexivity | reflexivity].
    + rewrite Hcount; [reflexivity|].
      intros row m [<- | [<- | []]] [<- | [<- | [<- | []]]];
        vm_compute; intros; (reflexivity || discriminate).
Defined.

(** C1, as stated, fails in two places: a number in a target column is
    hashed through its [String()] form, and a string of white space only
    is overwritten with [null]. *)
Lemma target_cell_not_as_claimed :
  ~ RunSpec.claimedTargetCell
      (App.readCell (store Sample.phones) 0%nat 1%nat)
      (App.readCell (store (App.handleEncrypt Sample.host Sample.phones)) 0%nat 1%nat) /\
  ~ RunSpec.claimedTargetCell
      (App.readCell (store Sample.blanks) 0%nat 0%nat)
      (App.readCell (store (App.handleEncrypt Sample.host Sample.blanks)) 0%nat 0%nat).
Proof.
  split; intros H; vm_compute in H; discriminate.
Qed.





(** * Failing runs and shared rows *)

(** C5, as the code has it.  When the [try] block of [handleEncrypt]
    throws, the page enters ERROR with the message of the exception (or
    "Encryption failed"), nothing is downloaded, and the statistics, the
    parsed table, the file and the column mappings of the page are the
    ones from before the run.  (The progress and the contents of the rows
    are not restored.) *)
Theorem exception_aborts_run (h : Host) (w w1 : World) (pd : ParsedData) (f : File)
    (e : exn) :
  parsedData (app w) = Some pd -> file (app w) = Some f ->
  App.encryptBody h pd f (columnMappings (app w))
    (App.setProgress (Finite 0) (App.setState ENCRYPTING w)) = (Throw e, w1) ->
  state (app (App.handleEncrypt h w)) = ERROR /\
  errorMessage (app (App.handleEncrypt h w)) = messageOr "Encryption failed" e /\
  stats (app (App.handleEncrypt h w)) = stats (app w) /\
  (exists evs,
      trace (App.handleEncrypt h w) = (trace w ++ evs)%list /\
      RunSpec.downloads evs = []) /\
  parsedData (app (App.handleEncrypt h w)) = Some pd /\
  file (app (App.handleEncrypt h w)) = Some f /\
  columnMappings (app (App.handleEncrypt h w)) = columnMappings (app w).
Proof.
  intros Hpd Hf Hbody.
  assert (Hrun : App.handleEncrypt h w =
                 App.setErrorMessage (messageOr "Encryption failed" e)
                   (App.setState ERROR w1)).
  { unfold App.handleEncrypt. rewrite Hpd, Hf, Hbody. reflexivity. }
  assert (Hstate : state (app (App.handleEncrypt h w)) = ERROR).
  { rewrite Hrun. reflexivity. }
  destruct (handleEncrypt_effect h w pd f Hpd Hf)
    as (ss & ran & rest & evs & _ & _ & _ & Htr & _ & Hparsed & Hfile & Hcms & Hend).
  destruct Hend as [(_ & Hdl & Hstats & _) | (Hsucc & _)].
  2: { unfold RunSpec.succeeded in Hsucc. congruence. }
  conjs; try assumption.
  - rewrite Hrun. reflexivity.
  - exists evs. split; assumption.
Qed.

Lemma exception_aborts_run_witness :
  state (app (App.handleEncrypt Sample.hostGenerateFails Sample.oneCell)) = ERROR /\
  errorMessage (app (App.handleEncrypt Sample.hostGenerateFails Sample.oneCell)) =
    "Too many rows" /\
  stats (app (App.handleEncrypt Sample.hostGenerateFails Sample.oneCell)) =
    stats (app Sample.oneCell) /\
  (exists evs,
      trace (App.handleEncrypt Sample.hostGenerateFails Sample.oneCell) =
        (trace Sample.oneCell ++ evs)%list /\
      RunSpec.downloads evs = []) /\
  parsedData (app (App.handleEncrypt Sample.hostGenerateFails Sample.oneCell)) =
    Some (MkParsedData ["Email"] [0%nat] None 1 1) /\
  file (app (App.handleEncrypt Sample.hostGenerateFails Sample.oneCell)) =
    Some (MkFile "people.csv" "text/csv") /\
  columnMappings (app (App.handleEncrypt Sample.hostGenerateFails Sample.oneCell)) =
    columnMappings (app Sample.oneCell).
Proof.
  apply (exception_aborts_run Sample.hostGenerateFails Sample.oneCell
           (App.encryptBody Sample.hostGenerateFails
              (MkParsedData ["Email"] [0%nat] None 1 1)
              (MkFile "people.csv" "text/csv")
              (columnMappings (app Sample.oneCell))
              (App.setProgress (Finite 0) (App.setState ENCRYPTING Sample.oneCell))).2
           (MkParsedData ["Email"] [0%nat] None 1 1)
           (MkFile "people.csv" "text/csv")
           (ErrorObject "Too many rows")).
  - reflexivity.
  - reflexivity.
  - vm_compute. reflexivity.
Defined.

(** C5, as stated, fails: when the digest primitive rejects a cell of the
    second row, the run ends in ERROR with the first row already hashed in
    the table of the page. *)
Lemma failed_run_keeps_partial_state :
  ~ (RunSpec.failed (App.handleEncrypt Sample.hostDigestFails Sample.people) ->
     FileGenerator.sheetRows
       (store (App.handleEncrypt Sample.hostDigestFails Sample.people))
       (MkParsedData ["First Name"; "Email"; "Age"] [0%nat; 1%nat] None 2 3) =
     FileGenerator.sheetRows (store Sample.people)
       (MkParsedData ["First Name"; "Email"; "Age"] [0%nat; 1%nat] None 2 3) /\
     app (App.handleEncrypt Sample.hostDigestFails Sample.people) = app Sample.people).
Proof.
  intros H.
  assert (Hfailed : RunSpec.failed (App.handleEncrypt Sample.hostDigestFails Sample.people)).
  { vm_compute. reflexivity. }
  destruct (H Hfailed) as [Hrows _]. vm_compute in Hrows. discriminate.
Qed.

Section SharedRows.
Import App Schedule RunSpec.
Local Open Scope list_scope.

Lemma cellsOf_app a b : cellsOf (a ++ b) = cellsOf a ++ cellsOf b.
Proof. unfold cellsOf. apply List.filter_app. Qed.



End SharedRows.



(** * Two runs over the same table *)

Section Simulation.
Import App Schedule RunSpec.
Local Open Scope list_scope.

Variables h1 h2 : Host.
Hypothesis Hdigest : forall d, digestFault h1 d = digestFault h2 d.

Variables rs1 rs2 : list loc.
Hypothesis Hnd1 : List.NoDup rs1.
Hypothesis Hnd2 : List.NoDup rs2.
Hypothesis Hlen : length rs1 = length rs2.

Variable ms : list ColumnMapping.
Variable total : Z.
Variables t1 t2 : list Event.

Lemma hashValue_ext s :
  EncryptionService.hashValue (digestFault h1) s =
  EncryptionService.hashValue (digestFault h2) s.
Proof.
  unfold EncryptionService.hashValue, EncryptionService.subtleDigest.
  rewrite Hdigest. reflexivity.
Qed.

Lemma NoDup_lookup_eq (rs : list loc) r r' l :
  List.NoDup rs -> rs !! r = Some l -> rs !! r' = Some l -> r = r'.
Proof. intros Hnd. apply NoDup_lookup. apply NoDup_ListNoDup. exact Hnd. Qed.

Lemma sameTable_alter g r row1 row2 sigma1 sigma2 :
  rs1 !! r = Some row1 -> rs2 !! r = Some row2 ->
  sameTable rs1 rs2 sigma1 sigma2 ->
  sameTable rs1 rs2 (alter g row1 sigma1) (alter g row2 sigma2).
Proof.
  intros Hr1 Hr2 Hsame r' l1 l2 Hl1 Hl2.
  destruct (decide (r' = r)) as [->|Hne].
  - assert (l1 = row1) as -> by congruence.
    assert (l2 = row2) as -> by congruence.
    rewrite !lookup_alter_eq. f_equal. apply (Hsame r); assumption.
  - assert (Hn1 : row1 <> l1).
    { intros ->. apply Hne. exact (NoDup_lookup_eq rs1 r' r _ Hnd1 Hl1 Hr1). }
    assert (Hn2 : row2 <> l2).
    { intros ->. apply Hne. exact (NoDup_lookup_eq rs2 r' r _ Hnd2 Hl2 Hr2). }
    rewrite (lookup_alter_ne _ _ _ _ Hn1), (lookup_alter_ne _ _ _ _ Hn2).
    apply (Hsame r'); assumption.
Qed.

Lemma simWorld_emit ev w1 w2 :
  simWorld rs1 rs2 t1 t2 w1 w2 ->
  simWorld rs1 rs2 t1 t2 (emit ev w1) (emit ev w2).
Proof.
  intros [Hst (evs & Ha & Hb)]. split; [exact Hst|].
  exists (evs ++ [ev]). cbn [emit trace]. rewrite Ha, Hb, !app_assoc. auto.
Qed.

Lemma simWorld_setProgress p w1 w2 :
  simWorld rs1 rs2 t1 t2 w1 w2 ->
  simWorld rs1 rs2 t1 t2 (setProgress p w1) (setProgress p w2).
Proof.
  intros [Hst (evs & Ha & Hb)]. split; [exact Hst|].
  exists (evs ++ [EvProgress p]). cbn [setProgress updateApp emit trace].
  rewrite Ha, Hb, !app_assoc. auto.
Qed.

Lemma simWorld_writeCell r row1 row2 j v w1 w2 :
  rs1 !! r = Some row1 -> rs2 !! r = Some row2 ->
  simWorld rs1 rs2 t1 t2 w1 w2 ->
  simWorld rs1 rs2 t1 t2 (writeCell row1 j v w1) (writeCell row2 j v w2).
Proof.
  intros Hr1 Hr2 [Hst Htr]. split; [|exact Htr].
  cbn [writeCell store]. eapply sameTable_alter; eauto.
Qed.

Lemma encryptMapping_sim r row1 row2 m l w1 w2 :
  rs1 !! r = Some row1 -> rs2 !! r = Some row2 ->
  simWorld rs1 rs2 t1 t2 w1 w2 ->
  simResult rs1 rs2 t1 t2
    (encryptMapping h1 total row1 m l w1) (encryptMapping h2 total row2 m l w2).
Proof.
  intros Hr1 Hr2 Hsim. unfold encryptMapping.
  destruct (isTarget m); [|split; [reflexivity | exact Hsim]].
  assert (Hread : readCell (store w1) row1 (columnIndex m) =
                  readCell (store w2) row2 (columnIndex m)).
  { unfold readCell. rewrite (proj1 Hsim r row1 row2 Hr1 Hr2). reflexivity. }
  rewrite Hread, hashValue_ext.
  destruct (isNonEmptyCell _).
  - destruct (EncryptionService.hashValue _ _) as [hash|e].
    + split; [reflexivity|]. cbn [snd].
      apply simWorld_setProgress. eapply simWorld_writeCell; eauto.
      apply simWorld_emit, Hsim.
    + split; [reflexivity|]. cbn [snd]. apply simWorld_emit, Hsim.
  - split; [reflexivity|]. cbn [snd]. apply simWorld_setProgress, Hsim.
Qed.

Lemma mappingLoop_sim r row1 row2 ms' l w1 w2 :
  rs1 !! r = Some row1 -> rs2 !! r = Some row2 ->
  simWorld rs1 rs2 t1 t2 w1 w2 ->
  simResult rs1 rs2 t1 t2
    (mappingLoop h1 total row1 ms' l w1) (mappingLoop h2 total row2 ms' l w2).
Proof.
  intros Hr1 Hr2. revert l w1 w2.
  induction ms' as [|m ms' IH]; intros l w1 w2 Hsim.
  - split; [reflexivity | exact Hsim].
  - cbn [mappingLoop]. unfold mbind, M_bind, bind.
    destruct (encryptMapping_sim r row1 row2 m l w1 w2 Hr1 Hr2 Hsim) as [Ho Hw].
    destruct (encryptMapping h1 total row1 m l w1) as [o1 w1'],
             (encryptMapping h2 total row2 m l w2) as [o2 w2'].
    cbn [fst snd] in Ho, Hw. subst o2.
    destruct o1 as [l'|e]; [apply IH; exact Hw | split; [reflexivity | exact Hw]].
Qed.

Lemma processRow_sim r l w1 w2 :
  simWorld rs1 rs2 t1 t2 w1 w2 ->
  simResult rs1 rs2 t1 t2
    (processRow h1 rs1 ms total r l w1) (processRow h2 rs2 ms total r l w2).
Proof.
  intros Hsim. unfold processRow.
  destruct (rs1 !! r) as [row1|] eqn:Hr1, (rs2 !! r) as [row2|] eqn:Hr2.
  - eapply mappingLoop_sim; eauto.
  - apply lookup_lt_Some in Hr1. apply lookup_ge_None in Hr2. lia.
  - apply lookup_ge_None in Hr1. apply lookup_lt_Some in Hr2. lia.
  - split; [reflexivity | exact Hsim].
Qed.

Lemma rowLoop_sim count r l w1 w2 :
  simWorld rs1 rs2 t1 t2 w1 w2 ->
  simResult rs1 rs2 t1 t2
    (rowLoop h1 rs1 ms total count r l w1) (rowLoop h2 rs2 ms total count r l w2).
Proof.
  revert r l w1 w2. induction count as [|c IH]; intros r l w1 w2 Hsim.
  - split; [reflexivity | exact Hsim].
  - cbn [rowLoop]. unfold mbind, M_bind, bind.
    destruct (processRow_sim r l w1 w2 Hsim) as [Ho Hw].
    destruct (processRow h1 rs1 ms total r l w1) as [o1 w1'],
             (processRow h2 rs2 ms total r l w2) as [o2 w2'].
    cbn [fst snd] in Ho, Hw. subst o2.
    destruct o1 as [l'|e]; [apply IH; exact Hw | split; [reflexivity | exact Hw]].
Qed.

Lemma chunkLoop_sim i l w1 w2 :
  simWorld rs1 rs2 t1 t2 w1 w2 ->
  simResult rs1 rs2 t1 t2
    (chunkLoop h1 rs1 ms total i l w1) (chunkLoop h2 rs2 ms total i l w2).
Proof.
  remember (length rs1 - i)%nat as d eqn:Hd.
  revert i l w1 w2 Hd. induction d as [d IH] using lt_wf_ind.
  intros i l w1 w2 Hd Hsim.
  rewrite !chunkLoop_equation_1.
  destruct (lt_dec i (length rs1)) as [Hlt1|Hge1],
           (lt_dec i (length rs2)) as [Hlt2|Hge2]; try lia.
  - cbn. rewrite <- Hlen.
    destruct (rowLoop_sim (Nat.min (i + chunkSize) (length rs1) - i) i l w1 w2 Hsim)
      as [Ho Hw].
    destruct (rowLoop h1 rs1 ms total _ i l w1) as [o1 w1'],
             (rowLoop h2 rs2 ms total _ i l w2) as [o2 w2'].
    cbn [fst snd] in Ho, Hw. subst o2.
    destruct o1 as [l'|e]; [|split; [reflexivity | exact Hw]].
    apply (IH (length rs1 - (i + chunkSize))%nat); [unfold chunkSize; lia | reflexivity |].
    apply simWorld_emit, Hw.
  - split; [reflexivity | exact Hsim].
Qed.

End Simulation.

Section TwoRuns.
Import App Schedule RunSpec.
Local Open Scope list_scope.

Lemma handleEncrypt_finish h w pd f :
  parsedData (app w) = Some pd -> file (app w) = Some f ->
  handleEncrypt h w =
  finishRun h pd f
    (chunkLoop h (rows pd) (columnMappings (app w))
       (Z.of_nat (length (rows pd)) *
        Z.of_nat (length (List.filter isTarget (columnMappings (app w)))))
       0 (MkLocals 0 0) (setProgress (Finite 0) (setState ENCRYPTING w))).
Proof.
  intros Hpd Hf. unfold handleEncrypt, encryptBody, finishRun. rewrite Hpd, Hf.
  destruct (chunkLoop _ _ _ _ _ _ _) as [[l|e] w1]; [|reflexivity].
  destruct pd as [hs rs sn rc cc]. cbn [headers rows sheetName rowCount columnCount].
  destruct (FileParser.detectFileType f);
    unfold FileGenerator.generateExcel, FileGenerator.generateCSV, downloadFile;
    destruct (generateFault h _); try reflexivity;
    destruct (downloadFault h); reflexivity.
Qed.

Lemma tableContents_same rs1 rs2 sigma1 sigma2 :
  tableContents sigma1 rs1 = tableContents sigma2 rs2 ->
  length rs1 = length rs2 /\ sameTable rs1 rs2 sigma1 sigma2.
Proof.
  unfold tableContents. intros Heq. split.
  - apply (f_equal (@length _)) in Heq. rewrite !length_map in Heq. exact Heq.
  - intros r l1 l2 Hl1 Hl2.
    apply (f_equal (fun l => l !! r)) in Heq.
    change (map (fun l => sigma1 !! l) rs1) with ((fun l => sigma1 !! l) <$> rs1) in Heq.
    change (map (fun l => sigma2 !! l) rs2) with ((fun l => sigma2 !! l) <$> rs2) in Heq.
    rewrite !list_lookup_fmap, Hl1, Hl2 in Heq. cbn in Heq. congruence.
Qed.

Lemma sameTable_contents rs1 rs2 sigma1 sigma2 :
  length rs1 = length rs2 -> sameTable rs1 rs2 sigma1 sigma2 ->
  tableContents sigma1 rs1 = tableContents sigma2 rs2.
Proof.
  unfold tableContents. intros Hlen Hsame. apply list_eq. intros r.
  change (map (fun l => sigma1 !! l) rs1) with ((fun l => sigma1 !! l) <$> rs1).
  change (map (fun l => sigma2 !! l) rs2) with ((fun l => sigma2 !! l) <$> rs2).
  rewrite !list_lookup_fmap.
  destruct (rs1 !! r) as [l1|] eqn:H1, (rs2 !! r) as [l2|] eqn:H2; cbn.
  - f_equal. apply (Hsame r); assumption.
  - apply lookup_lt_Some in H1. apply lookup_ge_None in H2. lia.
  - apply lookup_ge_None in H1. apply lookup_lt_Some in H2. lia.
  - reflexivity.
Qed.

Lemma sheetRows_contents sigma pd :
  FileGenerator.sheetRows sigma pd = map (default []) (tableContents sigma (rows pd)).
Proof.
  unfold FileGenerator.sheetRows, tableContents. rewrite map_map. reflexivity.
Qed.

End TwoRuns.

(** C9. Two runs over tables with the same rows and the same column
    mappings, on hosts whose collaborators fail alike, end in the same
    state with the same processed rows, report the same progress values and
    make the same [hashValue] calls in the same order; when they succeed
    their [totalRows] and [encryptedCells] agree.  The calls of a
    successful run are those of the non-empty target cells in table order:
    row by row from the top, and within a row mapping by mapping from the
    left. *)
Theorem handleEncrypt_deterministic (h1 h2 : Host) (w1 w2 : World)
    (pd1 pd2 : ParsedData) (f : File) :
  parsedData (app w1) = Some pd1 -> parsedData (app w2) = Some pd2 ->
  file (app w1) = Some f -> file (app w2) = Some f ->
  columnMappings (app w1) = columnMappings (app w2) ->
  headers pd1 = headers pd2 -> sheetName pd1 = sheetName pd2 ->
  List.NoDup (rows pd1) -> List.NoDup (rows pd2) ->
  RunSpec.tableContents (store w1) (rows pd1) =
    RunSpec.tableContents (store w2) (rows pd2) ->
  (forall d, digestFault h1 d = digestFault h2 d) ->
  (forall b, generateFault h1 b = generateFault h2 b) ->
  downloadFault h1 = downloadFault h2 ->
  state (app (App.handleEncrypt h1 w1)) = state (app (App.handleEncrypt h2 w2)) /\
  RunSpec.tableContents (store (App.handleEncrypt h1 w1)) (rows pd1) =
    RunSpec.tableContents (store (App.handleEncrypt h2 w2)) (rows pd2) /\
  (exists evs1 evs2,
      trace (App.handleEncrypt h1 w1) = (trace w1 ++ evs1)%list /\
      trace (App.handleEncrypt h2 w2) = (trace w2 ++ evs2)%list /\
      RunSpec.progressValues evs1 = RunSpec.progressValues evs2 /\
      RunSpec.hashCalls evs1 = RunSpec.hashCalls evs2 /\
      (RunSpec.succeeded (App.handleEncrypt h1 w1) ->
       RunSpec.distinctTargets (columnMappings (app w1)) ->
       RunSpec.hashCalls evs1 =
         omap (RunSpec.hashArg (store w1))
              (Schedule.tableSteps (columnMappings (app w1)) (rows pd1)))) /\
  (RunSpec.succeeded (App.handleEncrypt h1 w1) ->
   totalRows (stats (app (App.handleEncrypt h1 w1))) =
     totalRows (stats (app (App.handleEncrypt h2 w2))) /\
   encryptedCells (stats (app (App.handleEncrypt h1 w1))) =
     encryptedCells (stats (app (App.handleEncrypt h2 w2)))).
Proof.
  intros Hpd1 Hpd2 Hf1 Hf2 Hms Hhd Hsn Hnd1 Hnd2 Htab Hdig Hgen Hdl.
  destruct (tableContents_same _ _ _ _ Htab) as [Hlen Hsame].
  (* the calls of a successful first run, from its own effect *)
  assert (Horder : forall evs1,
    trace (App.handleEncrypt h1 w1) = (trace w1 ++ evs1)%list ->
    RunSpec.succeeded (App.handleEncrypt h1 w1) ->
    RunSpec.distinctTargets (columnMappings (app w1)) ->
    RunSpec.hashCalls evs1 =
      omap (RunSpec.hashArg (store w1))
           (Schedule.tableSteps (columnMappings (app w1)) (rows pd1))).
  { intros evs1 Htr Hsucc Hdist.
    destruct (handleEncrypt_effect h1 w1 pd1 f Hpd1 Hf1)
      as (ss & ran & rest & evs & Hcells & Hss & _ & Htr' & Hcalls & _ & _ & _ & Hend).
    rewrite Htr in Htr'. apply app_inv_head in Htr'. subst evs.
    destruct Hend as [(Hfail & _) | (_ & -> & _)].
    { unfold RunSpec.failed in Hfail. unfold RunSpec.succeeded in Hsucc. congruence. }
    rewrite app_nil_r in Hss. subst ran. rewrite Hcalls.
    rewrite hashArgs_initial.
    - rewrite <- omap_hashArg_cellsOf, Hcells. reflexivity.
    - intros row j. rewrite <- touchCount_cellsOf, Hcells.
      apply tableSteps_once; assumption. }
  revert Horder.
  rewrite (handleEncrypt_finish h1 w1 pd1 f Hpd1 Hf1).
  rewrite (handleEncrypt_finish h2 w2 pd2 f Hpd2 Hf2).
  rewrite <- Hms, <- Hlen.
  set (total := Z.of_nat (length (rows pd1)) *
                Z.of_nat (length (List.filter isTarget (columnMappings (app w1))))).
  assert (Hsim0 : RunSpec.simWorld (rows pd1) (rows pd2) (trace w1) (trace w2)
                    (App.setProgress (Finite 0) (App.setState ENCRYPTING w1))
                    (App.setProgress (Finite 0) (App.setState ENCRYPTING w2))).
  { split; [exact Hsame|]. exists [EvProgress (Finite 0)]. split; reflexivity. }
  destruct (chunkLoop_sim h1 h2 Hdig (rows pd1) (rows pd2) Hnd1 Hnd2 Hlen
              (columnMappings (app w1)) total (trace w1) (trace w2)
              0%nat (App.MkLocals 0 0) _ _ Hsim0) as [Ho [Hsame' (evs & Ht1 & Ht2)]].
  destruct (App.chunkLoop h1 _ _ _ _ _ _) as [o1 v1],
           (App.chunkLoop h2 _ _ _ _ _ _) as [o2 v2].
  cbn [fst snd] in Ho, Hsame', Ht1, Ht2. subst o2.
  pose proof (sameTable_contents _ _ _ _ Hlen Hsame') as Hcont.
  assert (Hcaught : forall e,
    state (app (RunSpec.caught e v1)) = state (app (RunSpec.caught e v2)) /\
    RunSpec.tableContents (store (RunSpec.caught e v1)) (rows pd1) =
      RunSpec.tableContents (store (RunSpec.caught e v2)) (rows pd2) /\
    (exists evs1 evs2,
        trace (RunSpec.caught e v1) = (trace w1 ++ evs1)%list /\
        trace (RunSpec.caught e v2) = (trace w2 ++ evs2)%list /\
        RunSpec.progressValues evs1 = RunSpec.progressValues evs2 /\
        RunSpec.hashCalls evs1 = RunSpec.hashCalls evs2 /\
        (RunSpec.succeeded (RunSpec.caught e v1) ->
         RunSpec.distinctTargets (columnMappings (app w1)) ->
         RunSpec.hashCalls evs1 =
           omap (RunSpec.hashArg (store w1))
                (Schedule.tableSteps (columnMappings (app w1)) (rows pd1)))) /\
    (RunSpec.succeeded (RunSpec.caught e v1) ->
     totalRows (stats (app (RunSpec.caught e v1))) =
       totalRows (stats (app (RunSpec.caught e v2))) /\
     encryptedCells (stats (app (RunSpec.caught e v1))) =
       encryptedCells (stats (app (RunSpec.caught e v2))))).
  { intros e. conjs.
    - reflexivity.
    - exact Hcont.
    - exists evs, evs. conjs; try assumption; try reflexivity.
      intros Hs. unfold RunSpec.succeeded in Hs. cbn in Hs. discriminate.
    - intros Hs. unfold RunSpec.succeeded in Hs. cbn in Hs. discriminate. }
  intros Horder.
  unfold RunSpec.finishRun.
  destruct o1 as [l|e]; [|apply Hcaught].
  assert (Hrows : FileGenerator.sheetRows (store v1) pd1 =
                  FileGenerator.sheetRows (store v2) pd2).
  { rewrite !sheetRows_contents, Hcont. reflexivity. }
  assert (Hblob :
    match FileParser.detectFileType f with
    | FileParser.excel => FileGenerator.generateExcel (generateFault h1) (store v1) pd1
    | _ => FileGenerator.generateCSV (generateFault h1) (store v1) pd1
    end =
    match FileParser.detectFileType f with
    | FileParser.excel => FileGenerator.generateExcel (generateFault h2) (store v2) pd2
    | _ => FileGenerator.generateCSV (generateFault h2) (store v2) pd2
    end).
  { unfold FileGenerator.generateExcel, FileGenerator.generateCSV.
    rewrite Hrows, Hhd, Hsn.
    destruct (FileParser.detectFileType f); rewrite Hgen; reflexivity. }
  rewrite Hblob, Hdl.
  match type of Hblob with
  | _ = ?g => destruct g as [blob|e] eqn:Hg; [|apply Hcaught]
  end.
  destruct (downloadFault h2) as [e|] eqn:Hd2; [apply Hcaught|].
  assert (Hfin1 : RunSpec.finishRun h1 pd1 f (Ok l, v1) =
                  RunSpec.completed h1 pd1 f l blob v1).
  { unfold RunSpec.finishRun. rewrite Hblob, Hdl. reflexivity. }
  rewrite Hfin1 in Horder.
  unfold RunSpec.completed in *.
  cbn [App.setProgress App.setState App.setStats App.updateApp App.emit
       app store trace state stats totalRows encryptedCells].
  conjs.
  - reflexivity.
  - exact Hcont.
  - eexists (evs ++ [EvDownload blob _; EvProgress (Finite 100)])%list,
            (evs ++ [EvDownload blob _; EvProgress (Finite 100)])%list.
    conjs.
    + rewrite Ht1, <- !app_assoc. reflexivity.
    + rewrite Ht2, <- !app_assoc. reflexivity.
    + rewrite !progressValues_app. reflexivity.
    + rewrite !hashCalls_app. reflexivity.
    + intros Hs Hd. apply Horder; [|exact Hs | exact Hd].
      cbn [App.setProgress App.setState App.setStats App.updateApp App.emit trace].
      rewrite Ht1, <- !app_assoc. reflexivity.
  - intros _. rewrite Hlen. split; reflexivity.
Qed.

Lemma handleEncrypt_deterministic_witness :
  state (app (App.handleEncrypt Sample.host Sample.people)) =
    state (app (App.handleEncrypt Sample.hostLater Sample.peopleElsewhere)) /\
  RunSpec.tableContents (store (App.handleEncrypt Sample.host Sample.people))
      [0%nat; 1%nat] =
    RunSpec.tableContents
      (store (App.handleEncrypt Sample.hostLater Sample.peopleElsewhere))
      [7%nat; 4%nat] /\
  (exists evs1 evs2,
      trace (App.handleEncrypt Sample.host Sample.people) =
        (trace Sample.people ++ evs1)%list /\
      trace (App.handleEncrypt Sample.hostLater Sample.peopleElsewhere) =
        (trace Sample.peopleElsewhere ++ evs2)%list /\
      RunSpec.progressValues evs1 = RunSpec.progressValues evs2 /\
      RunSpec.hashCalls evs1 = RunSpec.hashCalls evs2 /\
      (RunSpec.succeeded (App.handleEncrypt Sample.host Sample.people) ->
       RunSpec.distinctTargets (columnMappings (app Sample.people)) ->
       RunSpec.hashCalls evs1 =
         omap (RunSpec.hashArg (store Sample.people))
              (Schedule.tableSteps (columnMappings (app Sample.people))
                 [0%nat; 1%nat]))) /\
  (RunSpec.succeeded (App.handleEncrypt Sample.host Sample.people) ->
   totalRows (stats (app (App.handleEncrypt Sample.host Sample.people))) =
     totalRows (stats (app (App.handleEncrypt Sample.hostLater Sample.peopleElsewhere))) /\
   encryptedCells (stats (app (App.handleEncrypt Sample.host Sample.people))) =
     encryptedCells
       (stats (app (App.handleEncrypt Sample.hostLater Sample.peopleElsewhere)))).
Proof.
  apply (handleEncrypt_deterministic Sample.host Sample.hostLater
           Sample.people Sample.peopleElsewhere
           (MkParsedData ["First Name"; "Email"; "Age"] [0%nat; 1%nat] None 2 3)
           (MkParsedData ["First Name"; "Email"; "Age"] [7%nat; 4%nat] None 2 3)
           (MkFile "people.csv" "text/csv")).
  - reflexivity.
  - reflexivity.
  - reflexivity.
  - reflexivity.
  - reflexivity.
  - reflexivity.
  - reflexivity.
  - distinct_numerals.
  - distinct_numerals.
  - vm_compute. reflexivity.
  - intros d. reflexivity.
  - intros b. reflexivity.
  - reflexivity.
Defined.

(** * The examples of the repository's tests and documentation *)

Example hashValue_test_vectors :
  EncryptionService.hashValue (fun _ => None) "test" =
    Ok (Some "9f86d081884c7d659a2feaa0c55ad015a3bf4f1b2b0b822cd15d6c15b0f00a08") /\
  EncryptionService.hashValue (fun _ => None) "  JOHN DOE  " =
    Ok (Some "94890005f3b2117a353da7260259531878cae4f541bf59998511887d1f0221a5") /\
  EncryptionService.hashValue (fun _ => None) "JOHN" =
    Ok (Some "96d9632f363564cc3032521409cf22a852f2032eec099ed5967c0d000cec607a") /\
  EncryptionService.hashValue (fun _ => None) "  JOHN@EXAMPLE.COM  " =
    Ok (Some "855f96e983f1f8e8be944692b6f719fd54329826cb62e98015efee8e2e071dd4") /\
  EncryptionService.hashValue (fun _ => None) "   " = Ok None.
Proof. vm_compute. repeat split. Qed.

(** The two-block test vector of FIPS 180-4. *)
Example sha256_two_blocks :
  Spec.digestOf "abcdbcdecdefdefgefghfghighijhijkijkljklmklmnlmnomnopnopq" =
  "248d6a61d20638b8e5c026930c3e6039a33ce45964ff2167f6ecedd419db06c1".
Proof. vm_compute. reflexivity. Qed.

Example normalizeColumnName_examples :
  ColumnMatcher.normalizeColumnName "First Name" = "firstname" /\
  ColumnMatcher.normalizeColumnName "First_Name" = "firstname" /\
  ColumnMatcher.normalizeColumnName "first-name" = "firstname" /\
  ColumnMatcher.normalizeColumnName "E-mail" = "email" /\
  ColumnMatcher.normalizeColumnName " Email - Address_2 " = "emailaddress2".
Proof. vm_compute. repeat split. Qed.

Example findTargetColumns_example :
  map (fun m => (isTarget m, targetType m))
      (ColumnMatcher.findTargetColumns
         ["First_Name"; "E-mail"; "Mobile Number"; "Phone"; "Dept"]) =
  [ (true, Some (OwnAlias FirstName)); (true, Some (OwnAlias Email));
    (true, Some (OwnAlias Mobile)); (true, Some (OwnAlias Phone));
    (false, None) ].
Proof. vm_compute. reflexivity. Qed.

Example generateDownloadFilename_examples :
  FileGenerator.generateDownloadFilename (MkDate 2025 0 1) "filename"
    (Some (MkDate 2025 9 2)) = "filename_2025-10-02_encrypted" /\
  FileGenerator.generateDownloadFilename (MkDate 2025 0 1) "my.data.file.xlsx"
    (Some (MkDate 2025 9 2)) = "my.data.file_2025-10-02_encrypted.xlsx" /\
  FileGenerator.generateDownloadFilename (MkDate 2025 2 5) "test.xlsx" None =
    "test_2025-03-05_encrypted.xlsx".
Proof. vm_compute. repeat split. Qed.

(** The page after the sample run: both target cells of the first row and
    the name of the second row are hashed, the [null] cell and the ages are
    as they were. *)
Example handleEncrypt_people :
  FileGenerator.sheetRows (store (App.handleEncrypt Sample.host Sample.people))
    (MkParsedData ["First Name"; "Email"; "Age"] [0%nat; 1%nat] None 2 3) =
  [ [CString (Spec.digestOf "john"); CString (Spec.digestOf "doe@example.com");
     CNumber 42%float];
    [CString (Spec.digestOf "jane"); CNull; CNumber 7%float] ] /\
  stats (app (App.handleEncrypt Sample.host Sample.people)) = MkStats 2 3 250 /\
  RunSpec.progressValues (trace (App.handleEncrypt Sample.host Sample.people)) =
    [Finite 0; Finite 25; Finite 50; Finite 75; Finite 100; Finite 100].
Proof. vm_compute. repeat split. Qed.

(** * Decimal numerals and [toFixed] *)

Section NumberFacts.
Import JsString.

Lemma natDigits_acc fuel n acc :
  natDigits fuel n acc = (natDigits fuel n EmptyString ++ acc)%string.
Proof.
  revert n acc. induction fuel as [|f IH]; intros n acc; [reflexivity|].
  cbn [natDigits]. destruct (n <? 10).
  - reflexivity.
  - rewrite IH. rewrite (IH _ (String _ EmptyString)).
    rewrite append_assoc. reflexivity.
Qed.

(** With enough fuel the digits do not depend on the fuel. *)
Lemma natDigits_fuel f g n :
  0 <= n -> n < 10 ^ Z.of_nat f -> n < 10 ^ Z.of_nat g ->
  (1 <= f)%nat -> (1 <= g)%nat ->
  natDigits f n EmptyString = natDigits g n EmptyString.
Proof.
  revert g n. induction f as [|f IH]; intros g n Hn Hf Hg Hf1 Hg1; [lia|].
  destruct g as [|g]; [lia|]. cbn [natDigits].
  destruct (n <? 10) eqn:Hlt; [reflexivity|].
  apply Z.ltb_ge in Hlt.
  rewrite Nat2Z.inj_succ, Z.pow_succ_r in Hf, Hg by lia.
  assert (Hq : 1 <= n / 10) by (apply Z.div_le_lower_bound; lia).
  assert (Hqf : n / 10 < 10 ^ Z.of_nat f) by (apply Z.div_lt_upper_bound; lia).
  assert (Hqg : n / 10 < 10 ^ Z.of_nat g) by (apply Z.div_lt_upper_bound; lia).
  assert (f <> 0%nat) by (intros ->; cbn in Hqf; lia).
  assert (g <> 0%nat) by (intros ->; cbn in Hqg; lia).
  rewrite natDigits_acc, (natDigits_acc g). f_equal.
  apply IH; lia.
Qed.

Lemma log2_fuel n : 0 <= n -> n < 10 ^ Z.of_nat (Z.to_nat (Z.log2 n) + 1).
Proof.
  intros Hn. rewrite Nat2Z.inj_add, Z2Nat.id by apply Z.log2_nonneg.
  destruct (Z.eq_dec n 0) as [->|Hz]; [reflexivity|].
  pose proof (Z.log2_nonneg n) as Hl.
  destruct (Z.log2_spec n) as [_ Hhi]; [lia|].
  unfold Z.succ in Hhi.
  eapply Z.lt_le_trans; [exact Hhi|].
  change (Z.of_nat 1) with 1. apply Z.pow_le_mono_l. lia.
Qed.

(** A numeral of at least two digits ends with the digit of the units,
    after the numeral of the tens. *)
Lemma intToString_tens n :
  10 <= n ->
  intToString n =
  (intToString (n / 10) ++ String (digitChar (n mod 10)) EmptyString)%string.
Proof.
  intros Hn. unfold intToString.
  assert (Hq : 1 <= n / 10) by (apply Z.div_le_lower_bound; lia).
  replace (n <? 0) with false by (symmetry; apply Z.ltb_ge; lia).
  replace (n / 10 <? 0) with false by (symmetry; apply Z.ltb_ge; lia).
  pose proof (log2_fuel n ltac:(lia)) as Hfn.
  pose proof (log2_fuel (n / 10) ltac:(lia)) as Hfq.
  rewrite (Nat.add_1_r (Z.to_nat (Z.log2 n))) in *.
  cbn [natDigits].
  replace (n <? 10) with false by (symmetry; apply Z.ltb_ge; lia).
  rewrite natDigits_acc. f_equal.
  rewrite Nat2Z.inj_succ, Z.pow_succ_r in Hfn by lia.
  assert (Hqf : n / 10 < 10 ^ Z.of_nat (Z.to_nat (Z.log2 n)))
    by (apply Z.div_lt_upper_bound; lia).
  assert (Z.to_nat (Z.log2 n) <> 0%nat).
  { intros E. rewrite E in Hqf. cbn in Hqf. lia. }
  apply natDigits_fuel; try lia.
Qed.

Lemma intToString_digit d :
  0 <= d <= 9 -> intToString d = String (digitChar d) EmptyString.
Proof.
  intros Hd.
  assert (Hall : forall z, 0 <= 0 <= z /\ z < 0 + 10 ->
            String.eqb (intToString z) (String (digitChar z) EmptyString) = true).
  { apply (forall_interval
             (fun z => String.eqb (intToString z) (String (digitChar z) EmptyString))).
    vm_compute. reflexivity. }
  apply String.eqb_eq, Hall. lia.
Qed.

Lemma intToString_length n : 10 <= n -> (2 <= String.length (intToString n))%nat.
Proof.
  intros Hn. rewrite intToString_tens by exact Hn. rewrite length_append.
  cbn [String.length].
  assert (1 <= String.length (intToString (n / 10)))%nat; [|lia].
  assert (Hq : 1 <= n / 10) by (apply Z.div_le_lower_bound; lia).
  destruct (Z_lt_le_dec (n / 10) 10) as [Hs|Hb].
  - rewrite intToString_digit by lia. cbn. lia.
  - rewrite intToString_tens by exact Hb. rewrite length_append. cbn. lia.
Qed.

Lemma padStart_long n c s : (n <= String.length s)%nat -> padStart n c s = s.
Proof.
  intros H. unfold padStart. replace (n - String.length s)%nat with 0%nat by lia.
  reflexivity.
Qed.

(** [toFixed(1)] of a quotient of at least 1: the numeral of the tenths
    with a point before its last digit. *)
Lemma toFixed_one num den :
  0 < den -> den <= num ->
  let n := (20 * num + den) / (2 * den) in
  JsNumber.toFixed 1 num den =
  (intToString (n / 10) ++ "." ++ String (digitChar (n mod 10)) EmptyString)%string.
Proof.
  intros Hden Hnum n. unfold JsNumber.toFixed.
  change (10 ^ Z.of_nat 1) with 10.
  replace (2 * num * 10 + den) with (20 * num + den) by lia.
  fold n. cbn [Nat.eqb Nat.add].
  assert (Hn : 10 <= n).
  { unfold n. apply Z.div_le_lower_bound; lia. }
  rewrite padStart_long by (apply intToString_length; exact Hn).
  rewrite (intToString_tens n Hn). rewrite length_append. cbn [String.length].
  replace (String.length (intToString (n / 10)) + 1 - 1)%nat
    with (String.length (intToString (n / 10))) by lia.
  rewrite take_app_length, drop_app_length. reflexivity.
Qed.

End NumberFacts.

(** * File validation *)

Section ValidationFacts.
Import JsString Validation.

Lemma validateFileSize_valid file :
  isValid (validateFileSize file) = (fileSize file <=? MAX_FILE_SIZE).
Proof. unfold validateFileSize. destruct (_ <=? _); reflexivity. Qed.

(** [validateFileType] and [detectFileType] look at the same MIME types
    and the same extensions. *)
Lemma validateFileType_valid file :
  isValid (validateFileType file) = true <->
  FileParser.detectFileType (fileOf file) <> FileParser.unknown.
Proof.
  unfold validateFileType, FileParser.detectFileType,
    SUPPORTED_MIME_TYPES, SUPPORTED_EXTENSIONS.
  cbn [existsb].
  destruct (String.eqb (toLowerCase (fileType (fileOf file))) "text/csv");
  destruct (String.eqb (toLowerCase (fileType (fileOf file))) "application/vnd.ms-excel");
  destruct (String.eqb (toLowerCase (fileType (fileOf file)))
              "application/vnd.openxmlformats-officedocument.spreadsheetml.sheet");
  destruct (FileParser.endsWith (toLowerCase (fileName (fileOf file))) ".csv");
  destruct (FileParser.endsWith (toLowerCase (fileName (fileOf file))) ".xls");
  destruct (FileParser.endsWith (toLowerCase (fileName (fileOf file))) ".xlsx");
  cbn; split; congruence.
Qed.

Lemma validateFileType_errors file :
  isValid (validateFileType file) = true -> errors (validateFileType file) = [].
Proof.
  unfold validateFileType.
  destruct (existsb _ SUPPORTED_MIME_TYPES); [reflexivity|].
  destruct (existsb _ SUPPORTED_EXTENSIONS); [reflexivity|]. discriminate.
Qed.

Lemma validateFileType_one_error file :
  isValid (validateFileType file) = false ->
  exists extension,
    errors (validateFileType file) =
      [ ("Please upload a valid Excel (.xlsx, .xls) or CSV file. File type '"
           ++ extension ++ "' is not supported.")%string ].
Proof.
  unfold validateFileType.
  destruct (existsb _ SUPPORTED_MIME_TYPES); [discriminate|].
  destruct (existsb _ SUPPORTED_EXTENSIONS); [discriminate|].
  intros _. eexists. reflexivity.
Qed.

(** A file that passes validation is of a known kind. *)
Lemma validateFile_kind file :
  isValid (validateFile file) = true ->
  FileParser.detectFileType (fileOf file) <> FileParser.unknown.
Proof.
  unfold validateFile. intros H. apply validateFileType_valid.
  destruct (isValid (validateFileSize file)) eqn:Es; cbn [negb] in H.
  - destruct (isValid (validateFileType file)) eqn:Et; [reflexivity|].
    cbn [negb] in H. congruence.
  - congruence.
Qed.

End ValidationFacts.

Lemma validateFileSize_cases (file : FileObject) :
  (fileSize file <= 104857600 ->
   Validation.validateFileSize file = {| isValid := true; errors := [] |}) /\
  (104857600 < fileSize file ->
   exists q d,
     100 <= q /\ 0 <= d <= 9 /\
     2 ^ 20 * (2 * (10 * q + d) - 1) <= 20 * fileSize file
       < 2 ^ 20 * (2 * (10 * q + d) + 1) /\
     Validation.validateFileSize file =
       {| isValid := false;
          errors :=
            [ ("File size exceeds 100MB limit. Your file is "
                 ++ JsString.intToString q ++ "."
                 ++ String (JsString.digitChar d) EmptyString
                 ++ "MB. Please upload a smaller file.")%string ] |}).
Proof.
  unfold Validation.validateFileSize, Validation.MAX_FILE_SIZE.
  change (100 * 1024 * 1024) with 104857600. change (1024 * 1024) with 1048576.
  split; intros Hsize.
  - replace (fileSize file <=? 104857600) with true
      by (symmetry; apply Z.leb_le; exact Hsize).
    reflexivity.
  - replace (fileSize file <=? 104857600) with false
      by (symmetry; apply Z.leb_gt; exact Hsize).
    rewrite toFixed_one by lia. cbv zeta.
    set (n := (20 * fileSize file + 1048576) / (2 * 1048576)).
    assert (Hlo : 2 * 1048576 * n <= 20 * fileSize file + 1048576).
    { apply Z.mul_div_le. lia. }
    assert (Hhi : 20 * fileSize file + 1048576 < 2 * 1048576 * (n + 1)).
    { pose proof (Z.mul_succ_div_gt (20 * fileSize file + 1048576) (2 * 1048576)
                    ltac:(lia)) as H.
      unfold Z.succ in H. exact H. }
    assert (Hn : 1000 <= n) by (unfold n; apply Z.div_le_lower_bound; lia).
    exists (n / 10), (n mod 10).
    pose proof (Z.mod_pos_bound n 10 ltac:(lia)) as Hd.
    pose proof (Z.div_mod n 10 ltac:(lia)) as Hdm.
    assert (Hq : 100 <= n / 10) by (apply Z.div_le_lower_bound; lia).
    change (2 ^ 20) with 1048576.
    replace (10 * (n / 10) + n mod 10) with n by lia.
    repeat split; try lia.
    rewrite !append_assoc. reflexivity.
Qed.

(** X1. [validateFileSize] accepts a file of at most 104857600 bytes.  For a
    larger file it returns one error, which gives the size in units of
    2^20 bytes with one decimal: the number of tenths nearest to the size,
    the larger one of two, as an integer part of at least 100, a point and
    one digit. *)
Theorem validateFileSize_message (file : FileObject) :
  (fileSize file <= 104857600 ->
   Validation.validateFileSize file = {| isValid := true; errors := [] |}) /\
  (104857600 < fileSize file ->
   exists q d,
     100 <= q /\ 0 <= d <= 9 /\
     2 ^ 20 * (2 * (10 * q + d) - 1) <= 20 * fileSize file
       < 2 ^ 20 * (2 * (10 * q + d) + 1) /\
     Validation.validateFileSize file =
       {| isValid := false;
          errors :=
            [ ("File size exceeds 100MB limit. Your file is "
                 ++ JsString.intToString q ++ "."
                 ++ String (JsString.digitChar d) EmptyString
                 ++ "MB. Please upload a smaller file.")%string ] |}).
Proof. exact (validateFileSize_cases file). Qed.

Lemma validateFileSize_message_witness :
  exists q d,
    100 <= q /\ 0 <= d <= 9 /\
    2 ^ 20 * (2 * (10 * q + d) - 1) <= 20 * 157810688
      < 2 ^ 20 * (2 * (10 * q + d) + 1) /\
    Validation.validateFileSize (MkFileObject (MkFile "big.csv" "text/csv") 157810688) =
      {| isValid := false;
         errors :=
           [ ("File size exceeds 100MB limit. Your file is "
                ++ JsString.intToString q ++ "."
                ++ String (JsString.digitChar d) EmptyString
                ++ "MB. Please upload a smaller file.")%string ] |}.
Proof.
  apply (validateFileSize_message
           (MkFileObject (MkFile "big.csv" "text/csv") 157810688)).
  cbn. lia.
Defined.

(** X2. [validateFile] accepts a file exactly when it has at most 104857600
    bytes and [detectFileType] knows its kind: after validation the upload
    handlers never meet a file of unknown kind.  An accepted file comes
    with no error. *)
Theorem validateFile_accepts (file : FileObject) :
  (isValid (Validation.validateFile file) = true <->
   fileSize file <= 104857600 /\
   FileParser.detectFileType (fileOf file) <> FileParser.unknown) /\
  (isValid (Validation.validateFile file) = true ->
   errors (Validation.validateFile file) = []).
Proof.
  pose proof (validateFileSize_valid file) as Hs.
  pose proof (validateFileType_valid file) as Ht.
  unfold Validation.validateFile.
  unfold Validation.MAX_FILE_SIZE in Hs.
  change (100 * 1024 * 1024) with 104857600 in Hs.
  destruct (isValid (Validation.validateFileSize file)) eqn:Es; cbn [negb].
  - symmetry in Hs. apply Z.leb_le in Hs.
    destruct (isValid (Validation.validateFileType file)) eqn:Et; cbn [negb].
    + cbn [isValid errors]. split; [|reflexivity].
      split; [intros _; split; [exact Hs | apply Ht; reflexivity] | reflexivity].
    + rewrite Et. split; [|discriminate].
      split; [discriminate|]. intros [_ Hk]. apply Ht in Hk. discriminate.
  - rewrite Es. symmetry in Hs. apply Z.leb_gt in Hs.
    split; [|discriminate]. split; [discriminate | lia].
Qed.

Lemma validateFile_rejected (file : FileObject) :
  isValid (Validation.validateFile file) = false ->
  exists message,
    errors (Validation.validateFile file) = [message] /\
    message <> EmptyString /\
    Handlers.firstOr (errors (Validation.validateFile file))
      "File validation failed" = message /\
    Validation.validateFile file =
      (if 104857600 <? fileSize file then Validation.validateFileSize file
       else Validation.validateFileType file).
Proof.
  intros Hbad.
  assert (Hsel : Validation.validateFile file =
                 (if 104857600 <? fileSize file then Validation.validateFileSize file
                  else Validation.validateFileType file)).
  { pose proof (validateFileSize_valid file) as Hs.
    unfold Validation.MAX_FILE_SIZE in Hs.
    change (100 * 1024 * 1024) with 104857600 in Hs.
    rewrite Z.leb_antisym in Hs.
    unfold Validation.validateFile in *.
    destruct (104857600 <? fileSize file); cbn [negb] in Hs; rewrite Hs in *;
      cbn [negb] in *; [reflexivity|].
    destruct (isValid (Validation.validateFileType file)); cbn [negb] in *;
      [discriminate | reflexivity]. }
  rewrite Hsel in Hbad |- *.
  destruct (104857600 <? fileSize file) eqn:Hbig.
  - apply Z.ltb_lt in Hbig.
    destruct (validateFileSize_cases file) as [_ Hmsg].
    destruct (Hmsg Hbig) as (q & d & _ & _ & _ & ->).
    eexists. cbn [errors]. split; [reflexivity|].
    split; [discriminate|]. split; reflexivity.
  - destruct (validateFileType_one_error file Hbad) as (ext & ->).
    eexists. split; [reflexivity|]. split; [discriminate|]. split; reflexivity.
Qed.

(** X3. A rejected file comes with exactly one error, which is not the empty
    string, so that the page shows it and never its own "File validation
    failed".  A file that is too large gets the error about its size,
    whatever its type; any other rejected file gets the error about its
    type. *)
Theorem validateFile_rejection (file : FileObject) :
  isValid (Validation.validateFile file) = false ->
  exists message,
    errors (Validation.validateFile file) = [message] /\
    message <> EmptyString /\
    Handlers.firstOr (errors (Validation.validateFile file))
      "File validation failed" = message /\
    Validation.validateFile file =
      (if 104857600 <? fileSize file then Validation.validateFileSize file
       else Validation.validateFileType file).
Proof. exact (validateFile_rejected file). Qed.

Lemma validateFile_rejection_witness :
  exists message,
    errors (Validation.validateFile
              (MkFileObject (MkFile "notes.pdf" "application/pdf") 157810688)) =
      [message] /\
    message <> EmptyString /\
    Handlers.firstOr
      (errors (Validation.validateFile
                 (MkFileObject (MkFile "notes.pdf" "application/pdf") 157810688)))
      "File validation failed" = message /\
    Validation.validateFile
      (MkFileObject (MkFile "notes.pdf" "application/pdf") 157810688) =
      Validation.validateFileSize
        (MkFileObject (MkFile "notes.pdf" "application/pdf") 157810688).
Proof.
  apply (validateFile_rejection
           (MkFileObject (MkFile "notes.pdf" "application/pdf") 157810688)).
  vm_compute. reflexivity.
Defined.

(** X4. The error of [validateFileType] quotes the extension of the file: the
    name in lower case from its last dot on, or "unknown" for a name
    without a dot. *)
Theorem validateFileType_message (file : FileObject) :
  isValid (Validation.validateFileType file) = false ->
  exists stem ext,
    FilenameSpec.splitsAtLastDot
      (JsString.toLowerCase (fileName (fileOf file))) stem ext /\
    errors (Validation.validateFileType file) =
      [ ("Please upload a valid Excel (.xlsx, .xls) or CSV file. File type '"
           ++ (if JsString.isEmpty ext then "unknown" else ext)
           ++ "' is not supported.")%string ].
Proof.
  unfold Validation.validateFileType.
  destruct (existsb _ Validation.SUPPORTED_MIME_TYPES); [discriminate|].
  destruct (existsb _ Validation.SUPPORTED_EXTENSIONS); [discriminate|].
  intros _. cbn [errors].
  destruct (lastIndexOf_spec "." (JsString.toLowerCase (fileName (fileOf file))))
    as [[Hk Hno] | (pre & post & Hname & Hpost & Hk)].
  - exists (JsString.toLowerCase (fileName (fileOf file))), EmptyString.
    rewrite Hk. cbn [Z.eqb negb JsString.isEmpty]. split; [|reflexivity].
    split; [symmetry; apply append_nil_r|]. left. split; [reflexivity | exact Hno].
  - exists pre, (String "." post).
    rewrite Hk.
    replace (Z.of_nat (String.length pre) =? -1) with false
      by (symmetry; apply Z.eqb_neq; lia).
    cbn [negb JsString.isEmpty]. split.
    + split; [exact Hname|]. right. exists post. split; [reflexivity | exact Hpost].
    + rewrite Hname at 1.
      rewrite (proj2 (substring_split pre (String "." post))). reflexivity.
Qed.

Lemma validateFileType_message_witness :
  exists stem ext,
    FilenameSpec.splitsAtLastDot "report.final.pdf" stem ext /\
    errors (Validation.validateFileType
              (MkFileObject (MkFile "Report.Final.PDF" "application/pdf") 10)) =
      [ ("Please upload a valid Excel (.xlsx, .xls) or CSV file. File type '"
           ++ (if JsString.isEmpty ext then "unknown" else ext)
           ++ "' is not supported.")%string ].
Proof.
  apply (validateFileType_message
           (MkFileObject (MkFile "Report.Final.PDF" "application/pdf") 10)).
  vm_compute. reflexivity.
Defined.

(** X5. The kind of a file does not depend on the letter case of its name or
    of its MIME type, neither for [detectFileType] nor for
    [validateFileType]. *)
Theorem file_kind_ignores_case (f g : File) (size : Z) :
  Spec.SameUpToCase (fileName f) (fileName g) ->
  Spec.SameUpToCase (fileType f) (fileType g) ->
  FileParser.detectFileType f = FileParser.detectFileType g /\
  Validation.validateFileType (MkFileObject f size) =
    Validation.validateFileType (MkFileObject g size).
Proof.
  intros Hn%SameUpToCase_lower Ht%SameUpToCase_lower.
  unfold FileParser.detectFileType, Validation.validateFileType.
  cbn [fileOf]. rewrite Hn, Ht. split; reflexivity.
Qed.

Lemma file_kind_ignores_case_witness :
  FileParser.detectFileType (MkFile "Data.CSV" "") =
    FileParser.detectFileType (MkFile "data.csv" "") /\
  Validation.validateFileType (MkFileObject (MkFile "Data.CSV" "") 5) =
    Validation.validateFileType (MkFileObject (MkFile "data.csv" "") 5).
Proof.
  apply (file_kind_ignores_case (MkFile "Data.CSV" "") (MkFile "data.csv" "") 5).
  - cbn [fileName].
    repeat first [ apply Spec.same_empty
                 | apply Spec.same_char;
                   [first [left; reflexivity | right; left; split; reflexivity]|] ].
  - apply Spec.same_empty.
Defined.

(** * More on the column matcher *)

Section NormalizeFacts.
Import JsString Spec ColumnSpec ColumnMatcher.

Lemma toLowerCase_app s t :
  toLowerCase (s ++ t) = (toLowerCase s ++ toLowerCase t)%string.
Proof.
  induction s as [|c r IH]; [reflexivity|].
  rewrite append_cons. cbn [toLowerCase]. rewrite IH, append_cons. reflexivity.
Qed.


Lemma isPlain_parts c :
  isPlain c = true ->
  isUpperCase c = false /\ isSeparator c = false /\ isWhiteSpace c = false.
Proof.
  unfold isPlain. intros [Hu Hs]%andb_prop.
  apply negb_true_iff in Hu, Hs.
  split; [exact Hu|]. split; [exact Hs|].
  unfold isSeparator in Hs.
  apply orb_false_iff in Hs as [Hs _]. apply orb_false_iff in Hs as [Hw _].
  exact Hw.
Qed.

Lemma toLowerCase_plain s : allChars isPlain s = true -> toLowerCase s = s.
Proof.
  induction s as [|c r IH]; [reflexivity|].
  cbn [allChars toLowerCase]. intros [Hc Hr]%andb_prop.
  destruct (isPlain_parts c Hc) as (Hu & _ & _).
  unfold toLowerChar. rewrite Hu, (IH Hr). reflexivity.
Qed.

Lemma removeAll_plain s :
  allChars isPlain s = true -> removeAll isSeparator s = s.
Proof.
  induction s as [|c r IH]; [reflexivity|].
  cbn [allChars removeAll]. intros [Hc Hr]%andb_prop.
  destruct (isPlain_parts c Hc) as (_ & Hs & _).
  rewrite Hs, (IH Hr). reflexivity.
Qed.

Lemma trimEnd_plain s : allChars isPlain s = true -> trimEnd s = s.
Proof.
  induction s as [|c r IH]; [reflexivity|].
  cbn [allChars trimEnd]. intros [Hc Hr]%andb_prop.
  destruct (isPlain_parts c Hc) as (_ & _ & Hw).
  rewrite Hw, (IH Hr). reflexivity.
Qed.

Lemma trim_plain s : allChars isPlain s = true -> trim s = s.
Proof.
  intros Hs. unfold trim.
  assert (Hst : trimStart s = s).
  { destruct s as [|c r]; [reflexivity|].
    cbn [allChars] in Hs. apply andb_prop in Hs as [Hc _].
    destruct (isPlain_parts c Hc) as (_ & _ & Hw).
    cbn [trimStart]. rewrite Hw. reflexivity. }
  rewrite Hst. apply trimEnd_plain, Hs.
Qed.

Lemma removed_plain s :
  allChars isPlain (removeAll isSeparator (toLowerCase s)) = true.
Proof. apply allChars_removeAll, allChars_toLowerCase. Qed.

(** The final [trim()] of [normalizeColumnName] finds nothing to remove. *)
Lemma normalizeColumnName_removeAll name :
  normalizeColumnName name = removeAll isSeparator (toLowerCase name).
Proof. unfold normalizeColumnName. apply trim_plain, removed_plain. Qed.

Lemma containsChar_plain c s :
  isPlain c = false -> allChars isPlain s = true ->
  FilenameSpec.containsChar c s = false.
Proof.
  intros Hc. induction s as [|d r IH]; [reflexivity|].
  cbn [allChars FilenameSpec.containsChar]. intros [Hd Hr]%andb_prop.
  rewrite (IH Hr), orb_false_r.
  destruct (Ascii.eqb d c) eqn:E; [|reflexivity].
  apply Ascii.eqb_eq in E. congruence.
Qed.

Lemma getProperty_own key t :
  getProperty key = Some (OwnAlias t) <-> ownProperty targetPatterns key = Some t.
Proof.
  unfold getProperty. destruct (ownProperty targetPatterns key) as [t'|].
  - split; congruence.
  - destruct (existsb _ objectPrototypeMembers); split; discriminate.
Qed.

End NormalizeFacts.


(** X7. [normalizeColumnName] is idempotent, and a normalized name has no
    capital letter, white space, underscore or dash left. *)
Theorem normalizeColumnName_idempotent (name : string) :
  ColumnMatcher.normalizeColumnName (ColumnMatcher.normalizeColumnName name) =
    ColumnMatcher.normalizeColumnName name /\
  Spec.allChars
    (fun c => negb (JsString.isUpperCase c) && negb (JsString.isWhiteSpace c)
              && negb (Ascii.eqb c "_") && negb (Ascii.eqb c "-"))
    (ColumnMatcher.normalizeColumnName name) = true.
Proof.
  pose proof (normalizeColumnName_plain name) as Hp. split.
  - rewrite (normalizeColumnName_removeAll (ColumnMatcher.normalizeColumnName name)).
    rewrite toLowerCase_plain by exact Hp. apply removeAll_plain, Hp.
  - revert Hp. generalize (ColumnMatcher.normalizeColumnName name).
    induction s as [|c r IH]; [reflexivity|].
    cbn [Spec.allChars]. intros [Hc Hr]%andb_prop. rewrite (IH Hr), andb_true_r.
    destruct (isPlain_parts c Hc) as (Hu & Hs & Hw). rewrite Hu, Hw. cbn [negb andb].
    destruct (Ascii.eqb c "_") eqn:E1.
    { apply Ascii.eqb_eq in E1. subst c. discriminate Hs. }
    destruct (Ascii.eqb c "-") eqn:E2.
    { apply Ascii.eqb_eq in E2. subst c. discriminate Hs. }
    reflexivity.
Qed.

(** X8. Which header gets which type: a header is of a target type exactly
    when its normalized name is one of the aliases below.  The entry
    'e-mail' of [targetPatterns] is never found, because no normalized
    name has a dash; a header such as "E-mail" is an Email column through
    the alias "email". *)
Theorem findTargetColumns_types (headers : list string) (i : nat) (m : ColumnMapping) :
  ColumnMatcher.findTargetColumns headers !! i = Some m ->
  normalizedName m <> "e-mail" /\
  (targetType m = Some (OwnAlias FirstName) <->
   normalizedName m = "firstname" \/ normalizedName m = "fname") /\
  (targetType m = Some (OwnAlias LastName) <->
   normalizedName m = "lastname" \/ normalizedName m = "lname") /\
  (targetType m = Some (OwnAlias Email) <->
   normalizedName m = "email" \/ normalizedName m = "emailaddress") /\
  (targetType m = Some (OwnAlias Mobile) <->
   normalizedName m = "mobile" \/ normalizedName m = "mobilenumber") /\
  (targetType m = Some (OwnAlias Phone) <->
   normalizedName m = "phone" \/ normalizedName m = "phonenumber").
Proof.
  intros (header & _ & ->)%findTargetColumns_lookup.
  cbn [normalizedName targetType ColumnMatcher.mapHeader].
  pose proof (normalizeColumnName_plain header) as Hp.
  set (key := ColumnMatcher.normalizeColumnName header) in *.
  assert (Hdash : key <> "e-mail").
  { intros E. rewrite E in Hp. vm_compute in Hp. discriminate. }
  split; [exact Hdash|].
  rewrite !getProperty_own.
  unfold ColumnMatcher.targetPatterns. cbn [ColumnMatcher.ownProperty].
  repeat match goal with
  | |- context [String.eqb ?a key] =>
      let E := fresh "E" in
      destruct (String.eqb a key) eqn:E;
      [ apply String.eqb_eq in E; try (symmetry in E; contradiction);
        rewrite <- E;
        repeat split; intros; try discriminate; try congruence;
        try (left; reflexivity); try (right; reflexivity);
        try (match goal with H : _ \/ _ |- _ => destruct H; discriminate end)
      | apply String.eqb_neq in E ]
  end.
  repeat split; intros; try discriminate;
    match goal with H : _ \/ _ |- _ => destruct H; congruence end.
Qed.

Lemma findTargetColumns_types_witness :
  "email" <> "e-mail" /\
  (Some (OwnAlias Email) = Some (OwnAlias FirstName) <->
   "email" = "firstname" \/ "email" = "fname") /\
  (Some (OwnAlias Email) = Some (OwnAlias LastName) <->
   "email" = "lastname" \/ "email" = "lname") /\
  (Some (OwnAlias Email) = Some (OwnAlias Email) <->
   "email" = "email" \/ "email" = "emailaddress") /\
  (Some (OwnAlias Email) = Some (OwnAlias Mobile) <->
   "email" = "mobile" \/ "email" = "mobilenumber") /\
  (Some (OwnAlias Email) = Some (OwnAlias Phone) <->
   "email" = "phone" \/ "email" = "phonenumber").
Proof.
  apply (findTargetColumns_types ["Dept"; "E-mail"] 1
           (MkColumnMapping "E-mail" "email" true (Some (OwnAlias Email)) 1)).
  vm_compute. reflexivity.
Defined.

(** X9. [findTargetColumns] keeps the headers in their places: one mapping
    for each header, with the header as its original name and its position
    as its column index.  Two target mappings never point at the same
    column. *)
Theorem findTargetColumns_positions (headers : list string) :
  length (ColumnMatcher.findTargetColumns headers) = length headers /\
  (forall i header,
      headers !! i = Some header ->
      exists m,
        ColumnMatcher.findTargetColumns headers !! i = Some m /\
        originalName m = header /\ columnIndex m = i /\
        normalizedName m = ColumnMatcher.normalizeColumnName header) /\
  RunSpec.distinctTargets (ColumnMatcher.findTargetColumns headers).
Proof.
  split; [apply findTargetColumns_length|]. split; [|apply findTargetColumns_distinct].
  intros i header Hi. exists (ColumnMatcher.mapHeader i header).
  unfold ColumnMatcher.findTargetColumns. rewrite list_lookup_imap, Hi.
  repeat split.
Qed.

(** * More on [hashValue] *)

Section RenderingFacts.
Import JsString Spec.





End RenderingFacts.




(** * The name and the kind of the downloaded file *)

Section SuffixFacts.
Import JsString FilenameSpec.

Lemma take_drop_string n s : (take n s ++ drop n s)%string = s.
Proof.
  revert s. induction n as [|n IH]; intros s.
  - destruct s; reflexivity.
  - destruct s as [|c r]; [reflexivity|].
    cbn [take drop]. rewrite append_cons, IH. reflexivity.
Qed.

Lemma endsWith_iff s suffix :
  FileParser.endsWith s suffix = true <-> exists pre, s = (pre ++ suffix)%string.
Proof.
  unfold FileParser.endsWith. split.
  - intros [Hlen Heq]%andb_prop. apply String.eqb_eq in Heq.
    exists (take (String.length s - String.length suffix) s).
    etransitivity; [symmetry; apply (take_drop_string
                      (String.length s - String.length suffix))|].
    f_equal. exact Heq.
  - intros (pre & ->). rewrite length_append.
    apply andb_true_intro. split; [apply Nat.leb_le; lia|].
    replace (String.length pre + String.length suffix - String.length suffix)%nat
      with (String.length pre) by lia.
    rewrite drop_app_length. apply String.eqb_refl.
Qed.

Lemma containsChar_app c s t :
  containsChar c (s ++ t) = containsChar c s || containsChar c t.
Proof.
  induction s as [|d r IH]; [reflexivity|].
  rewrite append_cons. cbn [containsChar]. rewrite IH, orb_assoc. reflexivity.
Qed.

(** A string splits at its last dot in one way only. *)
Lemma last_dot_unique a b c d :
  (a ++ String "." b)%string = (c ++ String "." d)%string ->
  containsChar "." b = false -> containsChar "." d = false ->
  a = c /\ b = d.
Proof.
  revert c. induction a as [|x a IH]; intros c E Hb Hd.
  - destruct c as [|y c].
    + rewrite !append_nil_l in E. injection E as E. split; [reflexivity | exact E].
    + rewrite append_nil_l, append_cons in E. injection E as _ E.
      rewrite E, containsChar_app in Hb. cbn [containsChar] in Hb.
      rewrite Ascii.eqb_refl in Hb. cbn in Hb. rewrite orb_true_r in Hb. discriminate.
  - destruct c as [|y c].
    + rewrite append_nil_l, append_cons in E. injection E as _ E.
      rewrite <- E, containsChar_app in Hd. cbn [containsChar] in Hd.
      rewrite Ascii.eqb_refl in Hd. cbn in Hd. rewrite orb_true_r in Hd. discriminate.
    + rewrite !append_cons in E. injection E as -> E.
      destruct (IH c E Hb Hd) as [-> ->]. split; reflexivity.
Qed.

(** A name ends with the extension [.x] when the part after its last dot
    is [x]. *)
Lemma endsWith_extension pre post x :
  containsChar "." post = false -> containsChar "." x = false ->
  FileParser.endsWith (pre ++ String "." post) (String "." x) = String.eqb post x.
Proof.
  intros Hpost Hx. apply eq_true_iff_eq.
  rewrite endsWith_iff, String.eqb_eq. split.
  - intros (p & E). apply (last_dot_unique pre post p x E Hpost Hx).
  - intros ->. exists pre. reflexivity.
Qed.

Lemma endsWith_no_dot s x :
  containsChar "." s = false -> FileParser.endsWith s (String "." x) = false.
Proof.
  intros Hs. apply not_true_is_false. rewrite endsWith_iff. intros (p & E).
  rewrite E, containsChar_app in Hs. cbn [containsChar] in Hs.
  rewrite Ascii.eqb_refl in Hs. cbn in Hs. rewrite orb_true_r in Hs. discriminate.
Qed.

Lemma toLowerChar_dot c : Ascii.eqb (toLowerChar c) "." = Ascii.eqb c ".".
Proof.
  unfold toLowerChar. destruct (isUpperCase c) eqn:Hu; [|reflexivity].
  pose proof (code_range c) as Hc.
  assert (Hd : code (ascii_of_nat (nat_of_ascii c + 32)) = code c + 32).
  { pose proof Hu as Hb. unfold isUpperCase, inRange in Hb.
    unfold code in *. rewrite nat_ascii_embedding; lia. }
  assert (Hlo : 65 <= code c).
  { unfold isUpperCase, inRange in Hu. lia. }
  destruct (Ascii.eqb _ ".") eqn:E1.
  - apply Ascii.eqb_eq in E1. rewrite E1 in Hd. change (code ".") with 46 in Hd. lia.
  - destruct (Ascii.eqb c ".") eqn:E2; [|reflexivity].
    apply Ascii.eqb_eq in E2. subst c. discriminate Hu.
Qed.

Lemma containsChar_toLowerCase s :
  containsChar "." (toLowerCase s) = containsChar "." s.
Proof.
  induction s as [|c r IH]; [reflexivity|].
  cbn [toLowerCase containsChar]. rewrite toLowerChar_dot, IH. reflexivity.
Qed.

Lemma digitChar_not_dot n : Ascii.eqb (digitChar (n mod 10)) "." = false.
Proof.
  pose proof (Z.mod_pos_bound n 10 ltac:(lia)) as Hd.
  assert (Hall : forall z, 0 <= 0 <= z /\ z < 0 + 10 ->
            negb (Ascii.eqb (digitChar z) ".") = true).
  { apply (forall_interval (fun z => negb (Ascii.eqb (digitChar z) "."))).
    vm_compute. reflexivity. }
  apply negb_true_iff, Hall. lia.
Qed.

Lemma natDigits_no_dot fuel n acc :
  containsChar "." (natDigits fuel n acc) = containsChar "." acc.
Proof.
  revert n acc. induction fuel as [|f IH]; intros n acc; [reflexivity|].
  cbn [natDigits]. destruct (n <? 10).
  - cbn [containsChar]. rewrite digitChar_not_dot. reflexivity.
  - rewrite IH. cbn [containsChar]. rewrite digitChar_not_dot. reflexivity.
Qed.

Lemma intToString_no_dot n : containsChar "." (intToString n) = false.
Proof.
  unfold intToString. destruct (n <? 0).
  - cbn [containsChar]. rewrite natDigits_no_dot. reflexivity.
  - apply natDigits_no_dot.
Qed.

Lemma replicate_no_dot n : containsChar "." (replicate n "0") = false.
Proof. induction n as [|n IH]; [reflexivity | exact IH]. Qed.

Lemma padStart_no_dot n s :
  containsChar "." s = false -> containsChar "." (padStart n "0" s) = false.
Proof.
  intros Hs. unfold padStart. rewrite containsChar_app, replicate_no_dot, Hs.
  reflexivity.
Qed.

(** The text that [generateDownloadFilename] puts between the stem and
    the extension. *)
Lemma generateDownloadFilename_infix now name date :
  exists infix,
    containsChar "." infix = false /\
    ((containsChar "." name = false /\
      FileGenerator.generateDownloadFilename now name date = (name ++ infix)%string) \/
     (exists pre post,
        name = (pre ++ String "." post)%string /\ containsChar "." post = false /\
        FileGenerator.generateDownloadFilename now name date =
          (pre ++ infix ++ String "." post)%string)).
Proof.
  unfold FileGenerator.generateDownloadFilename.
  set (d := match date with Some d => d | None => now end).
  set (dateStr := (intToString (getFullYear d) ++ "-"
                     ++ padStart 2 "0" (intToString (getMonth d + 1)) ++ "-"
                     ++ padStart 2 "0" (intToString (getDate d)))%string).
  exists ("_" ++ dateStr ++ "_encrypted")%string. split.
  - unfold dateStr. rewrite !containsChar_app, intToString_no_dot.
    rewrite !padStart_no_dot by apply intToString_no_dot. reflexivity.
  - destruct (lastIndexOf_spec "." name) as [[Hk Hn] | (pre & post & Hs & Hp & Hk)].
    + left. split; [exact Hn|]. rewrite Hk. cbn [Z.eqb Z.opp Pos.eqb].
      reflexivity.
    + right. exists pre, post. split; [exact Hs|]. split; [exact Hp|].
      rewrite Hk.
      replace (Z.of_nat (String.length pre) =? -1) with false
        by (symmetry; apply Z.eqb_neq; lia).
      rewrite Hs. destruct (substring_split pre (String "." post)) as [-> ->].
      rewrite !append_assoc. reflexivity.
Qed.

End SuffixFacts.

(** X12. The downloaded file is of the same kind as the uploaded one: the
    name that [generateDownloadFilename] makes ends with one of the
    extensions .xlsx, .xls and .csv exactly when the original name does,
    whatever the date, so [detectFileType] gives the two names the same
    kind. *)
Theorem generateDownloadFilename_keeps_kind (now : Date) (name mime : string)
    (date : option Date) :
  FileParser.detectFileType
    (MkFile (FileGenerator.generateDownloadFilename now name date) mime) =
  FileParser.detectFileType (MkFile name mime).
Proof.
  assert (Hext : forall x,
    FilenameSpec.containsChar "." x = false ->
    FileParser.endsWith
      (JsString.toLowerCase (FileGenerator.generateDownloadFilename now name date))
      (String "." x) =
    FileParser.endsWith (JsString.toLowerCase name) (String "." x)).
  { intros x Hx.
    destruct (generateDownloadFilename_infix now name date)
      as (infix & Hinf & [[Hno ->] | (pre & post & -> & Hpost & ->)]).
    - rewrite !endsWith_no_dot; [reflexivity | |].
      + rewrite containsChar_toLowerCase. exact Hno.
      + rewrite containsChar_toLowerCase, containsChar_app, Hno, Hinf. reflexivity.
    - rewrite <- append_assoc, !toLowerCase_app.
      change (JsString.toLowerCase (String "." post))
        with (String "." (JsString.toLowerCase post)).
      rewrite !endsWith_extension; try reflexivity; try exact Hx;
        rewrite containsChar_toLowerCase; exact Hpost. }
  unfold FileParser.detectFileType. cbn [fileName fileType].
  rewrite (Hext "xlsx" eq_refl), (Hext "xls" eq_refl), (Hext "csv" eq_refl).
  reflexivity.
Qed.

(** * More on the runs of [handleEncrypt] *)

Section RunMore.
Import App Schedule RunSpec Spec2.
Local Open Scope list_scope.

Lemma yields_app a b : yields (a ++ b) = (yields a + yields b)%nat.
Proof.
  induction a as [|[p|v| |bl fn] r IH]; cbn [List.app yields]; try exact IH.
  - reflexivity.
  - rewrite IH. reflexivity.
Qed.

Lemma pauses_app a b : pauses (a ++ b) = (pauses a + pauses b)%nat.
Proof. unfold pauses. rewrite List.filter_app, length_app. reflexivity. Qed.

Lemma pauses_tableSteps ms rs : pauses (tableSteps ms rs) = 0%nat.
Proof.
  unfold pauses.
  assert (H : List.filter isPause (tableSteps ms rs) = []); [|rewrite H; reflexivity].
  induction rs as [|row r IH]; [reflexivity|].
  cbn [tableSteps flat_map]. rewrite List.filter_app.
  fold (tableSteps ms r). rewrite IH, app_nil_r.
  unfold rowSteps. clear IH. induction ms as [|m ms' IHm]; [reflexivity | exact IHm].
Qed.

Lemma pauses_chunkSchedule fuel ms rs :
  (length rs <= fuel)%nat -> pauses (chunkSchedule fuel ms rs) = chunkCount (length rs).
Proof.
  revert rs. induction fuel as [|n IH]; intros rs Hlen.
  - destruct rs; [reflexivity | cbn in Hlen; lia].
  - destruct rs as [|row r]; [reflexivity|].
    cbn [chunkSchedule]. rewrite pauses_app, pauses_tableSteps.
    change (pauses (Pause :: ?x)) with (S (pauses x)).
    rewrite IH by (rewrite length_drop; cbn [length] in *; unfold chunkSize; lia).
    rewrite length_drop. unfold chunkCount, chunkSize.
    generalize (length (row :: r)) (eq_refl : length (row :: r) = S (length r)).
    intros k Hk.
    destruct (le_lt_dec k 100) as [Hs|Hb].
    + replace (k - 100)%nat with 0%nat by lia.
      change ((0 + 99) / 100)%nat with 0%nat.
      apply (Nat.div_unique (k + 99) 100 1 (k - 1)); lia.
    + pose proof (Nat.div_mod_eq (k - 100 + 99) 100) as E1.
      pose proof (Nat.mod_upper_bound (k - 100 + 99) 100 ltac:(lia)) as B1.
      apply (Nat.div_unique (k + 99) 100 _ ((k - 100 + 99) mod 100)); lia.
Qed.

Lemma progressAtYields_app seen a b :
  progressAtYields seen (a ++ b) =
  progressAtYields seen a ++ progressAtYields (seen + length (progressValues a)) b.
Proof.
  revert seen. induction a as [|[p|v| |bl fn] r IH]; intros seen;
    cbn [List.app progressAtYields progressValues length].
  - rewrite Nat.add_0_r. reflexivity.
  - rewrite IH. f_equal. f_equal. lia.
  - apply IH.
  - rewrite IH. reflexivity.
  - apply IH.
Qed.

Lemma targetsAtPauses_app seen a b :
  targetsAtPauses seen (a ++ b) =
  targetsAtPauses seen a ++ targetsAtPauses (seen + targetCount a) b.
Proof.
  revert seen. induction a as [|[row m|] r IH]; intros seen;
    cbn [List.app targetsAtPauses].
  - unfold targetCount. cbn. rewrite Nat.add_0_r. reflexivity.
  - rewrite IH, targetCount_cell. destruct (isTarget m); f_equal; f_equal; lia.
  - rewrite IH, targetCount_pause. reflexivity.
Qed.

Lemma targetsAtPauses_tableSteps seen ms rs :
  targetsAtPauses seen (tableSteps ms rs) = [].
Proof.
  revert seen. induction rs as [|row r IH]; intros seen; [reflexivity|].
  cbn [tableSteps flat_map]. fold (tableSteps ms r).
  rewrite targetsAtPauses_app, IH, app_nil_r. clear IH.
  unfold rowSteps. revert seen. induction ms as [|m ms' IHm]; intros seen;
    [reflexivity | apply IHm].
Qed.

(** The pauses of the chunked loop come after the cells of the first 100,
    200, ... rows, the last one after the cells of all rows. *)
Lemma targetsAtPauses_chunkSchedule fuel ms rs seen :
  (length rs <= fuel)%nat ->
  targetsAtPauses seen (chunkSchedule fuel ms rs) =
  map (fun k => seen + Nat.min (100 * (k + 1)) (length rs)
                         * length (List.filter isTarget ms))%nat
      (seq 0 (chunkCount (length rs))).
Proof.
  revert rs seen. induction fuel as [|n IH]; intros rs seen Hlen.
  - destruct rs; [reflexivity | cbn in Hlen; lia].
  - destruct rs as [|row r]; [reflexivity|].
    cbn [chunkSchedule].
    rewrite targetsAtPauses_app, targetsAtPauses_tableSteps, targetCount_tableSteps.
    cbn [List.app targetsAtPauses].
    rewrite IH by (rewrite length_drop; cbn [length] in *; unfold chunkSize; lia).
    rewrite length_take, length_drop.
    pose proof (pauses_chunkSchedule (S n) ms (row :: r) Hlen) as Hp.
    cbn [chunkSchedule] in Hp. rewrite pauses_app, pauses_tableSteps in Hp.
    change (pauses (Pause :: ?x)) with (S (pauses x)) in Hp.
    rewrite pauses_chunkSchedule in Hp
      by (rewrite length_drop; cbn [length] in *; unfold chunkSize; lia).
    rewrite length_drop in Hp. cbn [Nat.add] in Hp. rewrite <- Hp.
    unfold chunkSize in *.
    generalize dependent (length (row :: r)). intros k Hk Hp.
    cbn [seq map]. f_equal.
    rewrite <- seq_shift, map_map. apply map_ext_in.
    intros i Hi. apply in_seq in Hi.
    destruct (le_lt_dec k 100) as [Hs|Hb].
    + exfalso. replace (k - 100)%nat with 0%nat in Hi by lia.
      unfold chunkCount in Hi. cbn in Hi. lia.
    + replace (Nat.min 100 k) with 100%nat by lia.
      assert (Nat.min (100 * (S i + 1)) k =
              100 + Nat.min (100 * (i + 1)) (k - 100))%nat by lia.
      nia.
Qed.

Variable h : Host.
Variable total : Z.

(** The chunked loop runs its schedule. *)
Lemma chunkLoop_schedule rs ms i l w :
  chunkLoop h rs ms total i l w =
  runSteps h total (chunkSchedule (length rs) ms (drop i rs)) l w.
Proof.
  assert (Hgen : forall d i fuel l w,
            (length rs - i <= d)%nat -> (length rs - i <= fuel)%nat ->
            chunkLoop h rs ms total i l w =
            runSteps h total (chunkSchedule fuel ms (drop i rs)) l w).
  { clear i l w. induction d as [|d IH]; intros i fuel l w Hd Hfuel.
    - rewrite chunkLoop_equation_1.
      destruct (lt_dec i (length rs)) as [Hlt|Hge]; [lia|].
      rewrite drop_ge by lia. destruct fuel; reflexivity.
    - rewrite chunkLoop_equation_1.
      destruct (lt_dec i (length rs)) as [Hlt|Hge].
      + destruct fuel as [|fuel]; [lia|].
        destruct (drop i rs) as [|row rest] eqn:Hdrop.
        { apply (f_equal length) in Hdrop. rewrite length_drop in Hdrop.
          cbn in Hdrop. lia. }
        cbn [chunkSchedule]. rewrite <- Hdrop.
        set (c := (Nat.min (i + chunkSize) (length rs) - i)%nat).
        assert (Htake : take chunkSize (drop i rs) = take c (drop i rs)).
        { destruct (le_lt_dec (i + chunkSize) (length rs)) as [Hfull|Hpart].
          - replace c with chunkSize by (unfold c; lia). reflexivity.
          - rewrite !take_ge; [reflexivity | |]; rewrite length_drop; unfold c; lia. }
        rewrite Htake, runSteps_app.
        rewrite <- (rowLoop_steps h rs ms total c i) by (unfold c; lia).
        unfold chunkLoop_unfold_clause_1. cbn zeta. fold c.
        destruct (rowLoop h rs ms total c i l w) as [[l'|e] w']; [|reflexivity].
        cbn [runSteps runStep]. rewrite drop_drop.
        apply IH; unfold chunkSize; lia.
      + rewrite drop_ge by lia. destruct fuel; reflexivity. }
  apply (Hgen (length rs - i)%nat); lia.
Qed.

(** A sequence of steps yields at its pauses. *)
Lemma runSteps_yields ss l w :
  exists evs,
    trace (runSteps h total ss l w).2 = trace w ++ evs /\
    (yields evs <= pauses ss)%nat /\
    (forall l', (runSteps h total ss l w).1 = Ok l' ->
                yields evs = pauses ss /\
                forall seen, progressAtYields seen evs = targetsAtPauses seen ss).
Proof.
  revert l w. induction ss as [|s r IH]; intros l w.
  { exists []. cbn. rewrite app_nil_r. conjs; try reflexivity.
    intros l' _. split; reflexivity. }
  cbn [runSteps].
  pose proof (runStep_result h total s l w) as HR.
  destruct HR as [Hs | row m Hs Ht | row m Hs Ht Hne | row m hash Hs Ht Hne Hh
                 | row m e Hs Ht Hne Hh]; subst s.
  - destruct (IH l (emit EvYield w)) as (evs & Htr & Hle & Hok).
    exists (EvYield :: evs). change (pauses (Pause :: r)) with (S (pauses r)). conjs.
    + rewrite Htr. cbn [emit trace]. rewrite <- app_assoc. reflexivity.
    + cbn [yields]. lia.
    + intros l' Hl'. destruct (Hok l' Hl') as [Hy Hp]. split.
      * cbn [yields]. rewrite Hy. reflexivity.
      * intros seen. cbn [progressAtYields targetsAtPauses]. rewrite Hp. reflexivity.
  - destruct (IH l w) as (evs & Htr & Hle & Hok).
    exists evs. change (pauses (Cell row m :: r)) with (pauses r).
    conjs; try assumption.
    intros l' Hl'. destruct (Hok l' Hl') as [Hy Hp]. split; [exact Hy|].
    intros seen. cbn [targetsAtPauses]. rewrite Ht. apply Hp.
  - destruct (IH (MkLocals (encryptedCount l) (processedCells l + 1))
                 (setProgress (roundPercent (processedCells l + 1) total) w))
      as (evs & Htr & Hle & Hok).
    exists (EvProgress (roundPercent (processedCells l + 1) total) :: evs).
    change (pauses (Cell row m :: r)) with (pauses r). conjs; try assumption.
    + rewrite Htr. cbn [setProgress emit updateApp trace]. rewrite <- app_assoc.
      reflexivity.
    + intros l' Hl'. destruct (Hok l' Hl') as [Hy Hp]. split; [exact Hy|].
      intros seen. cbn [progressAtYields targetsAtPauses]. rewrite Ht. apply Hp.
  - destruct (IH (MkLocals (encryptedCount l + 1) (processedCells l + 1))
                 (setProgress (roundPercent (processedCells l + 1) total)
                    (writeCell row (columnIndex m) (hashToCell hash)
                       (emit (EvHash (toStringValue
                          (readCell (store w) row (columnIndex m)))) w))))
      as (evs & Htr & Hle & Hok).
    exists (EvHash (toStringValue (readCell (store w) row (columnIndex m)))
              :: EvProgress (roundPercent (processedCells l + 1) total) :: evs).
    change (pauses (Cell row m :: r)) with (pauses r). conjs; try assumption.
    + rewrite Htr. cbn [setProgress writeCell emit updateApp trace].
      rewrite <- !app_assoc. reflexivity.
    + intros l' Hl'. destruct (Hok l' Hl') as [Hy Hp]. split; [exact Hy|].
      intros seen. cbn [progressAtYields targetsAtPauses]. rewrite Ht. apply Hp.
  - exists [EvHash (toStringValue (readCell (store w) row (columnIndex m)))].
    cbn [fst snd]. conjs.
    + reflexivity.
    + cbn [yields]. lia.
    + intros l' [=].
Qed.

End RunMore.

Section RunMoreFacts.
Import App Schedule RunSpec Spec2.
Local Open Scope list_scope.

(** The loops of a run, and what they add to the trace. *)
Lemma handleEncrypt_loops h w pd f :
  parsedData (app w) = Some pd -> file (app w) = Some f ->
  exists r w1 evs1,
    handleEncrypt h w = finishRun h pd f (r, w1) /\
    trace w1 = trace w ++ EvProgress (Finite 0) :: evs1 /\
    downloads evs1 = [] /\
    (yields evs1 <= chunkCount (length (rows pd)))%nat /\
    (forall l, r = Ok l ->
       yields evs1 = chunkCount (length (rows pd)) /\
       forall seen,
         progressAtYields seen evs1 =
         map (fun k => seen + Nat.min (100 * (k + 1)) (length (rows pd))
                         * length (List.filter isTarget (columnMappings (app w))))%nat
             (seq 0 (chunkCount (length (rows pd))))).
Proof.
  intros Hpd Hf. rewrite (handleEncrypt_finish h w pd f Hpd Hf).
  rewrite chunkLoop_schedule, drop_0.
  set (total := Z.of_nat (length (rows pd)) *
                Z.of_nat (length (List.filter isTarget (columnMappings (app w))))).
  set (ss := chunkSchedule (length (rows pd)) (columnMappings (app w)) (rows pd)).
  set (w0 := setProgress (Finite 0) (setState ENCRYPTING w)).
  destruct (runSteps_yields h total ss (MkLocals 0 0) w0) as (evs & Htr & Hle & Hok).
  destruct (runSteps_trace h total ss (MkLocals 0 0) w0)
    as (evs' & k & Htr' & _ & Hdl & _).
  assert (evs' = evs) by (rewrite Htr in Htr'; apply app_inv_head in Htr'; congruence).
  subst evs'.
  assert (Hp : pauses ss = chunkCount (length (rows pd))).
  { apply pauses_chunkSchedule. lia. }
  rewrite Hp in Hle.
  destruct (runSteps h total ss (MkLocals 0 0) w0) as [r w1] eqn:HR.
  cbn [fst snd] in *.
  exists r, w1, evs. conjs.
  - reflexivity.
  - rewrite Htr. unfold w0. cbn [setProgress setState emit updateApp trace].
    rewrite <- app_assoc. reflexivity.
  - exact Hdl.
  - exact Hle.
  - intros l Hl. destruct (Hok l Hl) as [Hy Hpos]. split; [congruence|].
    intros seen. rewrite Hpos. apply targetsAtPauses_chunkSchedule. lia.
Qed.

(** The file that a run builds once its loops are through. *)
Lemma finishRun_completed h pd f r w1 :
  succeeded (finishRun h pd f (r, w1)) ->
  exists l blob,
    r = Ok l /\
    finishRun h pd f (r, w1) = completed h pd f l blob w1 /\
    blobType blob =
      match FileParser.detectFileType f with
      | FileParser.excel =>
          "application/vnd.openxmlformats-officedocument.spreadsheetml.sheet"
      | _ => "text/csv;charset=utf-8;"
      end /\
    blobSheetName blob =
      match FileParser.detectFileType f with
      | FileParser.excel => Some (FileGenerator.sheetNameOr (sheetName pd))
      | _ => None
      end /\
    blobHeaders blob = headers pd /\
    blobRows blob = FileGenerator.sheetRows (store w1) pd.
Proof.
  unfold succeeded, finishRun. destruct r as [l|e]; [|discriminate].
  destruct (FileParser.detectFileType f);
    unfold FileGenerator.generateExcel, FileGenerator.generateCSV;
    (destruct (generateFault h _); [discriminate|]);
    (destruct (downloadFault h); [discriminate|]);
    intros _; eexists l, _; conjs; reflexivity.
Qed.

Lemma stepEffect_length rejects s sigma row :
  length <$> (stepEffect rejects s sigma !! row) = length <$> (sigma !! row).
Proof.
  destruct s as [r m|]; [|reflexivity]. cbn [stepEffect].
  destruct (isTarget m); [|reflexivity].
  destruct (cellWrite rejects (readCell sigma r (columnIndex m))) as [v'|] eqn:Hw;
    [|reflexivity].
  destruct (cellWrite_present _ _ _ _ _ Hw) as (arr & Harr & Hlt & _).
  destruct (decide (r = row)) as [->|Hr].
  - rewrite lookup_alter_eq, Harr. cbn. f_equal. unfold arraySet.
    destruct (Nat.ltb_spec (columnIndex m) (length arr)); [|lia].
    apply length_insert.
  - rewrite lookup_alter_ne by assumption. reflexivity.
Qed.

Lemma applySteps_length rejects ss sigma row :
  length <$> (applySteps rejects ss sigma !! row) = length <$> (sigma !! row).
Proof.
  revert sigma. induction ss as [|s r IH]; intros sigma; [reflexivity|].
  unfold applySteps in *. cbn [fold_left]. rewrite IH. apply stepEffect_length.
Qed.

Lemma hashArgs_length rejects ss sigma :
  (length (hashArgs rejects ss sigma) <= targetCount ss)%nat.
Proof.
  revert sigma. induction ss as [|s r IH]; intros sigma; [reflexivity|].
  cbn [hashArgs]. specialize (IH (stepEffect rejects s sigma)).
  destruct s as [row m|].
  - rewrite targetCount_cell. cbn [hashArg].
    destruct (isTarget m); cbn [andb].
    + destruct (isNonEmptyCell _); cbn [length]; lia.
    + exact IH.
  - rewrite targetCount_pause. exact IH.
Qed.

(** The file that a successful run hands to the browser. *)
Lemma successful_run_download h w pd f :
  parsedData (app w) = Some pd -> file (app w) = Some f ->
  succeeded (handleEncrypt h w) ->
  exists evs blob,
    trace (handleEncrypt h w) = (trace w ++ evs)%list /\
    downloads evs =
      [(blob, FileGenerator.generateDownloadFilename (today h) (fileName f) None)] /\
    blobType blob =
      match FileParser.detectFileType f with
      | FileParser.excel =>
          "application/vnd.openxmlformats-officedocument.spreadsheetml.sheet"
      | _ => "text/csv;charset=utf-8;"
      end /\
    blobSheetName blob =
      match FileParser.detectFileType f with
      | FileParser.excel => Some (FileGenerator.sheetNameOr (sheetName pd))
      | _ => None
      end /\
    blobHeaders blob = headers pd /\
    blobRows blob = FileGenerator.sheetRows (store (handleEncrypt h w)) pd.
Proof.
  intros Hpd Hf Hsucc.
  destruct (handleEncrypt_loops h w pd f Hpd Hf)
    as (r & w1 & evs1 & Hrun & Htr & Hdl & _).
  rewrite Hrun in Hsucc |- *.
  destruct (finishRun_completed h pd f r w1 Hsucc)
    as (l & blob & -> & Hdone & Hty & Hsn & Hhd & Hrows).
  rewrite Hdone. unfold completed.
  cbn [setProgress setState setStats updateApp emit trace store].
  exists (EvProgress (Finite 0) :: evs1 ++
            [EvDownload blob
               (FileGenerator.generateDownloadFilename (today h) (fileName f) None);
             EvProgress (Finite 100)]), blob.
  conjs; try assumption.
  - rewrite Htr, <- !app_assoc. reflexivity.
  - cbn [downloads]. rewrite downloads_app, Hdl. reflexivity.
Qed.


End RunMoreFacts.

(** X13. A run over [n] rows hands control back to the browser once after
    every chunk of 100 rows.  In a successful run there are as many pauses
    as chunks (none for a table without rows), and the pause number [k]
    comes when the cells of the first [100 * k] rows (of all rows, for the
    last pause) have been processed and reported, after the report of 0
    that opens the run.  No run pauses more often. *)
Theorem handleEncrypt_yields (h : Host) (w : World) (pd : ParsedData) (f : File) :
  parsedData (app w) = Some pd -> file (app w) = Some f ->
  exists evs,
    trace (App.handleEncrypt h w) = (trace w ++ evs)%list /\
    (Spec2.yields evs <= (length (rows pd) + 99) / 100)%nat /\
    (RunSpec.succeeded (App.handleEncrypt h w) ->
     Spec2.yields evs = ((length (rows pd) + 99) / 100)%nat /\
     Spec2.progressAtYields 0 evs =
       map (fun k => 1 + Nat.min (100 * (k + 1)) (length (rows pd))
                       * length (List.filter isTarget (columnMappings (app w))))%nat
           (seq 0 ((length (rows pd) + 99) / 100))).
Proof.
  intros Hpd Hf.
  destruct (handleEncrypt_loops h w pd f Hpd Hf)
    as (r & w1 & evs1 & Hrun & Htr & _ & Hle & Hok).
  unfold Spec2.chunkCount in *.
  assert (Hrest : forall l tail,
    r = Ok l -> Spec2.yields tail = 0%nat ->
    (forall seen, Spec2.progressAtYields seen tail = []) ->
    Spec2.yields (EvProgress (Finite 0) :: evs1 ++ tail) =
      ((length (rows pd) + 99) / 100)%nat /\
    Spec2.progressAtYields 0 (EvProgress (Finite 0) :: evs1 ++ tail) =
      map (fun k => 1 + Nat.min (100 * (k + 1)) (length (rows pd))
                      * length (List.filter isTarget (columnMappings (app w))))%nat
          (seq 0 ((length (rows pd) + 99) / 100))).
  { intros l tail Hl Hy Hp. destruct (Hok l Hl) as [Hcount Hpos]. split.
    - cbn [Spec2.yields]. rewrite yields_app, Hy, Hcount. lia.
    - cbn [Spec2.progressAtYields]. rewrite progressAtYields_app, Hp, app_nil_r.
      apply Hpos. }
  assert (Hcaught : forall e,
    trace (RunSpec.caught e w1) = (trace w ++ EvProgress (Finite 0) :: evs1)%list).
  { intros e. exact Htr. }
  assert (Hle' : forall tail, Spec2.yields tail = 0%nat ->
    (Spec2.yields (EvProgress (Finite 0) :: evs1 ++ tail)
       <= (length (rows pd) + 99) / 100)%nat).
  { intros tail Hy. cbn [Spec2.yields]. rewrite yields_app, Hy. lia. }
  destruct r as [l|e].
  - unfold RunSpec.finishRun in Hrun.
    destruct (match FileParser.detectFileType f with
              | FileParser.excel => _ | _ => _ end) as [blob|e] eqn:Hgen.
    + destruct (downloadFault h) as [e|].
      * exists (EvProgress (Finite 0) :: evs1 ++ []). rewrite Hrun, app_nil_r. conjs.
        -- apply Hcaught.
        -- rewrite <- (app_nil_r evs1). apply Hle'. reflexivity.
        -- intros _. rewrite <- (app_nil_r evs1).
           apply (Hrest l []); reflexivity.
      * exists (EvProgress (Finite 0) :: evs1 ++
                  [EvDownload blob
                     (FileGenerator.generateDownloadFilename (today h) (fileName f) None);
                   EvProgress (Finite 100)]).
        rewrite Hrun. unfold RunSpec.completed.
        cbn [App.setProgress App.setState App.setStats App.updateApp App.emit trace].
        rewrite Htr, <- !app_assoc.
        conjs; [reflexivity | apply Hle'; reflexivity |].
        intros _. apply (Hrest l); reflexivity.
    + exists (EvProgress (Finite 0) :: evs1 ++ []). rewrite Hrun, app_nil_r. conjs.
      * apply Hcaught.
      * rewrite <- (app_nil_r evs1). apply Hle'. reflexivity.
      * intros _. rewrite <- (app_nil_r evs1). apply (Hrest l []); reflexivity.
  - exists (EvProgress (Finite 0) :: evs1). rewrite Hrun. conjs.
    + apply Hcaught.
    + rewrite <- (app_nil_r evs1). apply Hle'. reflexivity.
    + unfold RunSpec.succeeded, RunSpec.finishRun. cbn. discriminate.
Qed.

Lemma handleEncrypt_yields_witness :
  exists evs,
    trace (App.handleEncrypt Sample.host Sample2.manyRows) =
      (trace Sample2.manyRows ++ evs)%list /\
    (Spec2.yields evs <= (250 + 99) / 100)%nat /\
    (RunSpec.succeeded (App.handleEncrypt Sample.host Sample2.manyRows) ->
     Spec2.yields evs = ((250 + 99) / 100)%nat /\
     Spec2.progressAtYields 0 evs =
       map (fun k => 1 + Nat.min (100 * (k + 1)) 250 * 1)%nat
           (seq 0 ((250 + 99) / 100))).
Proof.
  apply (handleEncrypt_yields Sample.host Sample2.manyRows
           (MkParsedData ["Email"] (seq 0 250) None 250 1)
           (MkFile "many.csv" "text/csv")); reflexivity.
Defined.

(** X14. No run changes the shape of the table: every row array has after the
    run the length it had before (a write goes to a cell that is there),
    and no array is created or removed. *)
Theorem handleEncrypt_keeps_shape (h : Host) (w : World) (row : loc) :
  length <$> (store (App.handleEncrypt h w) !! row) = length <$> (store w !! row).
Proof.
  destruct (parsedData (app w)) as [pd|] eqn:Hpd.
  2: { unfold App.handleEncrypt. rewrite Hpd. reflexivity. }
  destruct (file (app w)) as [f|] eqn:Hf.
  2: { unfold App.handleEncrypt. rewrite Hpd, Hf. reflexivity. }
  destruct (handleEncrypt_effect h w pd f Hpd Hf)
    as (ss & ran & rest & evs & _ & _ & Hst & _).
  rewrite Hst. apply applySteps_length.
Qed.

(** X15. The statistics of a successful run: [totalRows] is the number of
    rows, [encryptedCells] is the number of [hashValue] calls of the run
    (each of which returned), at most one for each pair of a row and a
    target mapping, and [duration] is the time between the two readings of
    the clock. *)
Theorem handleEncrypt_stats (h : Host) (w : World) (pd : ParsedData) (f : File) :
  parsedData (app w) = Some pd -> file (app w) = Some f ->
  RunSpec.succeeded (App.handleEncrypt h w) ->
  exists evs,
    trace (App.handleEncrypt h w) = (trace w ++ evs)%list /\
    stats (app (App.handleEncrypt h w)) =
      MkStats (Z.of_nat (length (rows pd)))
              (Z.of_nat (length (RunSpec.hashCalls evs)))
              (endTime h - startTime h) /\
    (length (RunSpec.hashCalls evs) <=
       length (rows pd) * length (List.filter isTarget (columnMappings (app w))))%nat /\
    Forall (fun a => exists hash,
                EncryptionService.hashValue (digestFault h) a = Ok hash)
           (RunSpec.hashCalls evs).
Proof.
  intros Hpd Hf Hsucc.
  destruct (handleEncrypt_effect h w pd f Hpd Hf)
    as (ss & ran & rest & evs & Hcells & Hss & _ & Htr & Hhc & _ & _ & _ & Hend).
  destruct Hend as [(Hfail & _) | (_ & Hrest & Hstats & Hall & _)].
  { unfold RunSpec.failed in Hfail. unfold RunSpec.succeeded in Hsucc. congruence. }
  subst rest. rewrite app_nil_r in Hss. subst ran.
  exists evs. rewrite Hhc. conjs; try assumption.
  eapply Nat.le_trans; [apply hashArgs_length|].
  rewrite <- targetCount_cellsOf, Hcells, targetCount_tableSteps. reflexivity.
Qed.

Lemma handleEncrypt_stats_witness :
  exists evs,
    trace (App.handleEncrypt Sample.host Sample.blanks) =
      (trace Sample.blanks ++ evs)%list /\
    stats (app (App.handleEncrypt Sample.host Sample.blanks)) =
      MkStats 1 (Z.of_nat (length (RunSpec.hashCalls evs))) (1250 - 1000) /\
    (length (RunSpec.hashCalls evs) <= 1 * 1)%nat /\
    Forall (fun a => exists hash,
                EncryptionService.hashValue (fun _ => None) a = Ok hash)
           (RunSpec.hashCalls evs).
Proof.
  apply (handleEncrypt_stats Sample.host Sample.blanks
           (MkParsedData ["Email"] [0%nat] None 1 1)
           (MkFile "blanks.csv" "text/csv")); reflexivity.
Defined.

(** X16. The file of a successful run.  One file is downloaded.  Its format
    follows [detectFileType], which looks at the MIME type first: a
    workbook (with the sheet name of the upload, or Sheet1) for an Excel
    file, and CSV text for any other.  Its name follows the name of the
    upload.  So a file called contacts.csv that the browser reports as
    application/vnd.ms-excel comes back as a workbook under a name that
    ends in .csv. *)
Theorem handleEncrypt_download (h : Host) (w : World) (pd : ParsedData) (f : File) :
  parsedData (app w) = Some pd -> file (app w) = Some f ->
  RunSpec.succeeded (App.handleEncrypt h w) ->
  exists evs blob,
    trace (App.handleEncrypt h w) = (trace w ++ evs)%list /\
    RunSpec.downloads evs =
      [(blob, FileGenerator.generateDownloadFilename (today h) (fileName f) None)] /\
    blobType blob =
      match FileParser.detectFileType f with
      | FileParser.excel =>
          "application/vnd.openxmlformats-officedocument.spreadsheetml.sheet"
      | _ => "text/csv;charset=utf-8;"
      end /\
    blobSheetName blob =
      match FileParser.detectFileType f with
      | FileParser.excel => Some (FileGenerator.sheetNameOr (sheetName pd))
      | _ => None
      end /\
    blobHeaders blob = headers pd /\
    blobRows blob = FileGenerator.sheetRows (store (App.handleEncrypt h w)) pd.
Proof. exact (successful_run_download h w pd f). Qed.

Lemma handleEncrypt_download_witness :
  exists evs blob,
    trace (App.handleEncrypt Sample.host Sample2.contacts) =
      (trace Sample2.contacts ++ evs)%list /\
    RunSpec.downloads evs = [(blob, "contacts_2025-10-02_encrypted.csv")] /\
    blobType blob =
      "application/vnd.openxmlformats-officedocument.spreadsheetml.sheet" /\
    blobSheetName blob = Some "Sheet1" /\
    blobHeaders blob = ["Name"; "Email"] /\
    blobRows blob =
      FileGenerator.sheetRows
        (store (App.handleEncrypt Sample.host Sample2.contacts))
        (MkParsedData ["Name"; "Email"] [0%nat; 1%nat] None 2 2).
Proof.
  apply (handleEncrypt_download Sample.host Sample2.contacts
           (MkParsedData ["Name"; "Email"] [0%nat; 1%nat] None 2 2)
           (MkFile "contacts.csv" "application/vnd.ms-excel"));
    vm_compute; reflexivity.
Defined.

(** * Parsing *)

Section AllocFacts.
Import App Parsing.
Local Open Scope list_scope.

Lemma freshLoc_above sigma k v : sigma !! k = Some v -> (k < freshLoc sigma)%nat.
Proof.
  intros Hk. apply elem_of_map_to_list in Hk. unfold freshLoc.
  induction (map_to_list sigma) as [|[k' v'] r IH]; [inversion Hk|].
  cbn [foldr fst]. apply elem_of_cons in Hk as [[= <- <-] | Hin].
  - lia.
  - specialize (IH Hin). lia.
Qed.

Lemma freshLoc_fresh sigma : sigma !! freshLoc sigma = None.
Proof.
  destruct (sigma !! freshLoc sigma) as [v|] eqn:E; [|reflexivity].
  apply freshLoc_above in E. lia.
Qed.

(** The arrays of the rows are new, pairwise distinct, hold the rows in
    order, and no other array changes. *)
Lemma allocRows_spec contents sigma :
  let ls := (allocRows contents sigma).1 in
  let sigma' := (allocRows contents sigma).2 in
  length ls = length contents /\
  List.NoDup ls /\
  (forall l, In l ls -> sigma !! l = None) /\
  (forall i l, ls !! i = Some l -> sigma' !! l = contents !! i) /\
  (forall l, ~ In l ls -> sigma' !! l = sigma !! l).
Proof.
  revert sigma. induction contents as [|c rest IH]; intros sigma.
  { cbn. conjs; try reflexivity.
    - constructor.
    - intros l [].
    - intros i l Hi. rewrite lookup_nil in Hi. discriminate. }
  cbn [allocRows].
  specialize (IH (<[freshLoc sigma := c]> sigma)).
  destruct (allocRows rest (<[freshLoc sigma := c]> sigma)) as [ls sigma'] eqn:Ha.
  cbn [fst snd] in *. destruct IH as (Hlen & Hnd & Hnew & Hget & Hframe).
  assert (Hnotin : ~ In (freshLoc sigma) ls).
  { intros Hin. apply Hnew in Hin. rewrite lookup_insert_eq in Hin. discriminate. }
  conjs.
  - cbn [length]. rewrite Hlen. reflexivity.
  - constructor; assumption.
  - intros l [<- | Hin]; [apply freshLoc_fresh|].
    specialize (Hnew l Hin).
    destruct (decide (l = freshLoc sigma)) as [->|Hne]; [apply freshLoc_fresh|].
    rewrite lookup_insert_ne in Hnew by congruence. exact Hnew.
  - intros [|i] l Hi.
    + cbn in Hi. injection Hi as <-. cbn [lookup list_lookup].
      rewrite (Hframe _ Hnotin), lookup_insert_eq. reflexivity.
    + cbn in Hi. cbn [lookup list_lookup]. apply (Hget i l Hi).
  - intros l Hl. rewrite Hframe by (intros Hin; apply Hl; right; exact Hin).
    apply lookup_insert_ne. intros E. apply Hl. left. exact E.
Qed.

Lemma newRows_spec contents w :
  exists ls w',
    newRows contents w = (Ok ls, w') /\
    app w' = app w /\ trace w' = trace w /\
    length ls = length contents /\
    List.NoDup ls /\
    (forall l, In l ls -> store w !! l = None) /\
    (forall i l, ls !! i = Some l -> store w' !! l = contents !! i) /\
    (forall l, ~ In l ls -> store w' !! l = store w !! l).
Proof.
  unfold newRows. pose proof (allocRows_spec contents (store w)) as H.
  destruct (allocRows contents (store w)) as [ls sigma']. cbn [fst snd] in H.
  eexists ls, _. split; [reflexivity|]. cbn [app trace store]. tauto.
Qed.

End AllocFacts.

Section CsvFacts.
Import Parsing.
Local Open Scope list_scope.

(** The loop removes the blank rows at the end, and only those. *)
Lemma popBlankRows_spec fuel data :
  (length data <= fuel)%nat ->
  exists blanks,
    data = popBlankRows fuel data ++ blanks /\
    Forall (fun row => forallb JsString.isEmpty row = true) blanks /\
    (forall row, last (popBlankRows fuel data) = Some row ->
                 forallb JsString.isEmpty row = false).
Proof.
  revert data. induction fuel as [|n IH]; intros data Hlen.
  { destruct data; [|cbn in Hlen; lia].
    exists []. cbn. conjs; [reflexivity | constructor | discriminate]. }
  cbn [popBlankRows]. destruct (last data) as [row|] eqn:Hlast.
  - destruct (forallb JsString.isEmpty row) eqn:Hblank.
    + apply last_Some in Hlast as (front & ->).
      rewrite removelast_last.
      destruct (IH front) as (blanks & Hd & Hb & Hl).
      { rewrite length_app in Hlen. cbn in Hlen. lia. }
      exists (blanks ++ [row]). conjs.
      * rewrite app_assoc, <- Hd. reflexivity.
      * apply Forall_app. split; [exact Hb | constructor; [exact Hblank | constructor]].
      * exact Hl.
    + exists []. rewrite app_nil_r. conjs; [reflexivity | constructor |].
      intros row' Hr. rewrite Hlast in Hr. injection Hr as <-. exact Hblank.
  - exists []. rewrite app_nil_r. conjs; [reflexivity | constructor |].
    intros row' Hr. rewrite Hlast in Hr. discriminate.
Qed.

End CsvFacts.

Lemma parseCSV_cases (r : Reader) (file : File) (w : World) :
  match papaParse r file with
  | PapaError message =>
      Parsing.parseCSV r file w =
        (Throw (ErrorObject ("Failed to parse CSV: " ++ message)), w)
  | PapaComplete data =>
      (Forall (fun row => forallb JsString.isEmpty row = true) data /\
       Parsing.parseCSV r file w =
         (Throw (ErrorObject "File is empty or contains no data rows."), w)) \/
      (exists hs body blanks pd w',
          data = (hs :: body ++ blanks)%list /\
          Forall (fun row => forallb JsString.isEmpty row = true) blanks /\
          (forall row, last (hs :: body) = Some row ->
                       forallb JsString.isEmpty row = false) /\
          Parsing.parseCSV r file w = (Ok pd, w') /\
          headers pd = hs /\ sheetName pd = None /\
          rowCount pd = length body /\ columnCount pd = length hs /\
          length (rows pd) = length body /\
          List.NoDup (rows pd) /\
          (forall l, In l (rows pd) -> store w !! l = None) /\
          (forall i l, rows pd !! i = Some l ->
                       store w' !! l = map CString <$> body !! i) /\
          (forall l, ~ In l (rows pd) -> store w' !! l = store w !! l) /\
          app w' = app w /\ trace w' = trace w)
  end.
Proof.
  unfold Parsing.parseCSV. destruct (papaParse r file) as [data|message];
    [|reflexivity].
  destruct (popBlankRows_spec (length data) data (le_n _)) as (blanks & Hd & Hb & Hl).
  set (kept := Parsing.popBlankRows (length data) data) in *.
  destruct kept as [|hs body] eqn:Hkept.
  - left. cbn [length Nat.eqb]. split; [|reflexivity].
    rewrite Hd. exact Hb.
  - right. cbn [length Nat.eqb lookup list_lookup skipn].
    unfold mbind, App.M_bind, App.bind, mret, App.M_ret, App.ret.
    change (drop 0 body) with body.
    destruct (newRows_spec (map (map CString) body) w)
      as (ls & w' & -> & Happ & Htr & Hlen & Hnd & Hnew & Hget & Hframe).
    rewrite length_map in Hlen.
    eexists hs, body, blanks, _, w'. cbn [headers rows sheetName rowCount columnCount].
    conjs; try first [reflexivity | assumption].
    intros i l Hi. rewrite (Hget i l Hi).
    change (map (map CString) body) with (map CString <$> body).
    apply list_lookup_fmap.
Qed.

(** X17. [parseCSV], given what Papa Parse read.  An error of the library is
    passed on with the prefix "Failed to parse CSV: ".  Otherwise the rows
    that are blank (every field the empty string) are taken off the end.
    If nothing is left, the file is rejected as empty.  If something is
    left, the first row gives the headers and the rows after it, up to the
    last row that is not blank, are the data, each in a new array of its
    own with its fields as strings; [rowCount] and [columnCount] count the
    data rows and the headers; no array that was there before changes.  A
    file with a header row only is accepted, with no data rows.  The
    rejection "File is missing header row." never occurs. *)
Theorem parseCSV_result (r : Reader) (file : File) (w : World) :
  match papaParse r file with
  | PapaError message =>
      Parsing.parseCSV r file w =
        (Throw (ErrorObject ("Failed to parse CSV: " ++ message)), w)
  | PapaComplete data =>
      (Forall (fun row => forallb JsString.isEmpty row = true) data /\
       Parsing.parseCSV r file w =
         (Throw (ErrorObject "File is empty or contains no data rows."), w)) \/
      (exists hs body blanks pd w',
          data = (hs :: body ++ blanks)%list /\
          Forall (fun row => forallb JsString.isEmpty row = true) blanks /\
          (forall row, last (hs :: body) = Some row ->
                       forallb JsString.isEmpty row = false) /\
          Parsing.parseCSV r file w = (Ok pd, w') /\
          headers pd = hs /\ sheetName pd = None /\
          rowCount pd = length body /\ columnCount pd = length hs /\
          length (rows pd) = length body /\
          List.NoDup (rows pd) /\
          (forall l, In l (rows pd) -> store w !! l = None) /\
          (forall i l, rows pd !! i = Some l ->
                       store w' !! l = map CString <$> body !! i) /\
          (forall l, ~ In l (rows pd) -> store w' !! l = store w !! l) /\
          app w' = app w /\ trace w' = trace w)
  end.
Proof. exact (parseCSV_cases r file w). Qed.

(** * Uploads *)

Section UploadFacts.
Import App Handlers Parsing Spec2.
Local Open Scope list_scope.

Lemma newRows_parsed contents w ls w' hs sn :
  newRows contents w = (Ok ls, w') ->
  parsedInto w (MkParsedData hs ls sn (length ls) (length hs)) w'.
Proof.
  intros Hnew.
  destruct (newRows_spec contents w)
    as (ls0 & w0 & E & Happ & Htr & Hlen & Hnd & Hfresh & Hget & Hframe).
  rewrite Hnew in E. injection E as <- <-.
  unfold parsedInto. cbn [headers rows rowCount columnCount].
  conjs; try first [reflexivity | assumption].
  intros l Hin. split; [apply Hfresh, Hin|].
  apply list_elem_of_In, list_elem_of_lookup in Hin as (i & Hi).
  rewrite (Hget i l Hi). apply lookup_lt_is_Some.
  rewrite <- Hlen. apply lookup_lt_Some in Hi. exact Hi.
Qed.

Lemma parseExcel_parsed r f w :
  match parseExcel r f w with
  | (Throw e, w') => w' = w
  | (Ok pd, w') => parsedInto w pd w'
  end.
Proof.
  unfold parseExcel. destruct (excelSheet r f) as [sheet|e]; [|reflexivity].
  unfold mbind, M_bind, bind, mret, M_ret, ret.
  destruct (newRows (sheetData sheet) w) as [[ls|e] w'] eqn:Hnew.
  - apply (newRows_parsed _ _ _ _ _ _ Hnew).
  - destruct (newRows_spec (sheetData sheet) w) as (ls0 & w0 & E & _).
    rewrite Hnew in E. discriminate.
Qed.

Lemma parseCSV_parsed r f w :
  match parseCSV r f w with
  | (Throw e, w') => w' = w
  | (Ok pd, w') => parsedInto w pd w'
  end.
Proof.
  unfold parseCSV, reject. destruct (papaParse r f) as [data|message]; [|reflexivity].
  destruct (length _ =? 0)%nat; [reflexivity|].
  destruct (_ !! 0%nat) as [hs|]; [|reflexivity].
  unfold mbind, M_bind, bind, mret, M_ret, ret.
  destruct (newRows _ w) as [[ls|e] w'] eqn:Hnew.
  - apply (newRows_parsed _ _ _ _ _ _ Hnew).
  - destruct (newRows_spec (map (map CString)
                (skipn 1 (popBlankRows (length data) data))) w) as (ls0 & w0 & E & _).
    rewrite Hnew in E. discriminate.
Qed.

Lemma parseFile_parsed r f w :
  match parseFile r f w with
  | (Throw e, w') => w' = w
  | (Ok pd, w') => parsedInto w pd w'
  end.
Proof.
  unfold parseFile. destruct (FileParser.detectFileType f).
  - apply parseExcel_parsed.
  - apply parseCSV_parsed.
  - reflexivity.
Qed.

Lemma uploadBody_parseFile r f w :
  uploadBody r f w =
  match parseFile r f w with
  | (Throw e, w1) => (Throw e, w1)
  | (Ok parsed, w1) =>
      if negb (ColumnMatcher.hasTargetColumns (headers parsed)) then
        (Ok tt, setErrorMessage noTargetColumnsMessage
                  (setState ERROR (tableLoaded parsed w1)))
      else (Ok tt, setState READY (tableLoaded parsed w1))
  end.
Proof.
  unfold uploadBody, parseFile.
  destruct (FileParser.detectFileType f); reflexivity.
Qed.

(** The four ways an upload can go. *)
Lemma handleFileUpload_cases r uploadFile w :
  (isValid (Validation.validateFile uploadFile) = false /\
   handleFileUpload r uploadFile w =
     setErrorMessage
       (firstOr (errors (Validation.validateFile uploadFile)) "File validation failed")
       (setState ERROR w)) \/
  (isValid (Validation.validateFile uploadFile) = true /\
   exists e,
     parseFile r (fileOf uploadFile) (parsingStarts uploadFile w) =
       (Throw e, parsingStarts uploadFile w) /\
     handleFileUpload r uploadFile w =
       setErrorMessage (messageOr "Failed to parse file" e)
         (setState ERROR (parsingStarts uploadFile w))) \/
  (isValid (Validation.validateFile uploadFile) = true /\
   exists pd w',
     parseFile r (fileOf uploadFile) (parsingStarts uploadFile w) = (Ok pd, w') /\
     parsedInto (parsingStarts uploadFile w) pd w' /\
     ((ColumnMatcher.hasTargetColumns (headers pd) = false /\
       handleFileUpload r uploadFile w =
         setErrorMessage noTargetColumnsMessage (setState ERROR (tableLoaded pd w'))) \/
      (ColumnMatcher.hasTargetColumns (headers pd) = true /\
       handleFileUpload r uploadFile w = setState READY (tableLoaded pd w')))).
Proof.
  unfold handleFileUpload.
  destruct (isValid (Validation.validateFile uploadFile)) eqn:Hvalid; cbn [negb].
  2: { left. split; reflexivity. }
  right. fold (parsingStarts uploadFile w).
  pose proof (parseFile_parsed r (fileOf uploadFile) (parsingStarts uploadFile w)) as Hp.
  rewrite uploadBody_parseFile.
  destruct (parseFile r (fileOf uploadFile) (parsingStarts uploadFile w))
    as [[pd|e] w'].
  - right. split; [reflexivity|]. exists pd, w'. split; [reflexivity|].
    split; [exact Hp|].
    destruct (ColumnMatcher.hasTargetColumns (headers pd)); cbn [negb].
    + right. split; reflexivity.
    + left. split; reflexivity.
  - left. subst w'. split; [reflexivity|]. exists e. split; reflexivity.
Qed.

Lemma handleFileInputChange_upload r uploadFile w :
  handleFileInputChange r (Some uploadFile) w = handleFileUpload r uploadFile w.
Proof.
  unfold handleFileInputChange, handleFileUpload, uploadBody.
  destruct (isValid (Validation.validateFile uploadFile)); cbn [negb]; [|reflexivity].
  destruct (FileParser.detectFileType (fileOf uploadFile)).
  - destruct (parseExcel _ _ _) as [[pd|e] w']; [|reflexivity].
    destruct (ColumnMatcher.hasTargetColumns (headers pd)); reflexivity.
  - destruct (parseCSV _ _ _) as [[pd|e] w']; [|reflexivity].
    destruct (ColumnMatcher.hasTargetColumns (headers pd)); reflexivity.
  - reflexivity.
Qed.

End UploadFacts.

Section UploadStates.
Import App Handlers Spec2.

Lemma tableLoaded_fields pd w :
  parsedData (app (tableLoaded pd w)) = Some pd /\
  columnMappings (app (tableLoaded pd w)) =
    ColumnMatcher.findTargetColumns (headers pd) /\
  file (app (tableLoaded pd w)) = file (app w) /\
  errorMessage (app (tableLoaded pd w)) = errorMessage (app w) /\
  progress (app (tableLoaded pd w)) = progress (app w) /\
  stats (app (tableLoaded pd w)) = stats (app w) /\
  state (app (tableLoaded pd w)) = state (app w) /\
  store (tableLoaded pd w) = store w /\ trace (tableLoaded pd w) = trace w.
Proof. conjs; reflexivity. Qed.

Lemma parsingStarts_fields uploadFile w :
  file (app (parsingStarts uploadFile w)) = Some (fileOf uploadFile) /\
  errorMessage (app (parsingStarts uploadFile w)) = EmptyString /\
  parsedData (app (parsingStarts uploadFile w)) = parsedData (app w) /\
  columnMappings (app (parsingStarts uploadFile w)) = columnMappings (app w) /\
  progress (app (parsingStarts uploadFile w)) = progress (app w) /\
  stats (app (parsingStarts uploadFile w)) = stats (app w) /\
  store (parsingStarts uploadFile w) = store w /\
  trace (parsingStarts uploadFile w) = trace w.
Proof. conjs; reflexivity. Qed.

(** What an upload that ends in READY leaves on the page. *)
Lemma handleFileUpload_ready r uploadFile w :
  state (app (handleFileUpload r uploadFile w)) = READY ->
  isValid (Validation.validateFile uploadFile) = true /\
  exists pd w',
    parseFile r (fileOf uploadFile) (parsingStarts uploadFile w) = (Ok pd, w') /\
    parsedInto (parsingStarts uploadFile w) pd w' /\
    ColumnMatcher.hasTargetColumns (headers pd) = true /\
    handleFileUpload r uploadFile w = setState READY (tableLoaded pd w').
Proof.
  intros Hready.
  destruct (handleFileUpload_cases r uploadFile w)
    as [[_ E] | [(_ & e & _ & E) | (Hv & pd & w' & Hp & Hinto & [[_ E] | [Ht E]])]];
    try (rewrite E in Hready; discriminate Hready).
  split; [exact Hv|]. exists pd, w'. conjs; assumption.
Qed.

(** No upload changes the progress, the statistics, the trace or an array
    that is already there. *)
Lemma handleFileUpload_frame r uploadFile w :
  progress (app (handleFileUpload r uploadFile w)) = progress (app w) /\
  stats (app (handleFileUpload r uploadFile w)) = stats (app w) /\
  trace (handleFileUpload r uploadFile w) = trace w /\
  (forall l arr, store w !! l = Some arr ->
                 store (handleFileUpload r uploadFile w) !! l = Some arr).
Proof.
  destruct (handleFileUpload_cases r uploadFile w)
    as [[_ E] | [(_ & e & _ & E) | (Hv & pd & w' & Hp & Hinto & Hcase)]].
  - rewrite E. conjs; try reflexivity. intros l arr H. exact H.
  - rewrite E. conjs; try reflexivity. intros l arr H. exact H.
  - destruct Hinto as (Happ & Htr & _ & _ & _ & Hnew & Hframe).
    assert (Hstore : forall l arr, store w !! l = Some arr -> store w' !! l = Some arr).
    { intros l arr H. rewrite Hframe; [exact H|].
      intros Hin. apply Hnew in Hin as [Hnone _].
      change (store (parsingStarts uploadFile w)) with (store w) in Hnone. congruence. }
    destruct Hcase as [[_ E] | [_ E]]; rewrite E;
      cbn [setErrorMessage setState tableLoaded setColumnMappings setParsedData
           updateApp app store trace progress stats];
      rewrite Happ, Htr; conjs; try reflexivity; exact Hstore.
Qed.

End UploadStates.

(** X18. How an upload ends.  The page is then in READY or in ERROR.  It is in
    READY exactly when the file passes validation, the parser for its kind
    returns a table, and one of the headers is a target column.  The page
    then holds the file, the table and the mappings of its headers, and no
    error message; [rowCount] and [columnCount] are the numbers of data
    rows and of headers, and the rows are new arrays, one for each row.
    However it ends, an upload leaves the progress, the statistics and the
    arrays of earlier tables as they are, and downloads nothing. *)
Theorem handleFileUpload_outcome (r : Reader) (uploadFile : FileObject) (w : World) :
  let w1 := Handlers.handleFileUpload r uploadFile w in
  (state (app w1) = READY \/ state (app w1) = ERROR) /\
  (state (app w1) = READY <->
   isValid (Validation.validateFile uploadFile) = true /\
   exists pd w',
     Spec2.parseFile r (fileOf uploadFile) (Spec2.parsingStarts uploadFile w) =
       (Ok pd, w') /\
     ColumnMatcher.hasTargetColumns (headers pd) = true) /\
  (state (app w1) = READY ->
   exists pd,
     file (app w1) = Some (fileOf uploadFile) /\
     parsedData (app w1) = Some pd /\
     columnMappings (app w1) = ColumnMatcher.findTargetColumns (headers pd) /\
     errorMessage (app w1) = EmptyString /\
     rowCount pd = length (rows pd) /\ columnCount pd = length (headers pd) /\
     List.NoDup (rows pd) /\
     (forall l, In l (rows pd) -> store w !! l = None /\ is_Some (store w1 !! l))) /\
  progress (app w1) = progress (app w) /\ stats (app w1) = stats (app w) /\
  trace w1 = trace w /\
  (forall l arr, store w !! l = Some arr -> store w1 !! l = Some arr).
Proof.
  cbv zeta. split; [|split; [|split]].
  - destruct (handleFileUpload_cases r uploadFile w)
      as [[_ E] | [(_ & e & _ & E) | (Hv & pd & w' & Hp & Hinto & [[_ E] | [_ E]])]];
      rewrite E; [right | right | right | left]; reflexivity.
  - split.
    + intros Hready.
      destruct (handleFileUpload_ready r uploadFile w Hready)
        as (Hv & pd & w' & Hp & _ & Ht & _).
      split; [exact Hv|]. exists pd, w'. split; assumption.
    + intros (Hv & pd & w' & Hp & Ht).
      destruct (handleFileUpload_cases r uploadFile w)
        as [[Hn _] | [(_ & e & Hp' & _) | (_ & pd' & w'' & Hp' & _ & [[Ht' _] | [_ E]])]].
      * congruence.
      * congruence.
      * rewrite Hp in Hp'. injection Hp' as <- <-. congruence.
      * rewrite E. reflexivity.
  - intros Hready.
    destruct (handleFileUpload_ready r uploadFile w Hready)
      as (_ & pd & w' & _ & Hinto & _ & E).
    destruct Hinto as (Happ & _ & Hrc & Hcc & Hnd & Hnew & _).
    exists pd. rewrite E.
    cbn [App.setState Spec2.tableLoaded Handlers.setColumnMappings
         Handlers.setParsedData App.updateApp app store file parsedData
         columnMappings errorMessage].
    rewrite Happ. conjs; try first [reflexivity | assumption].
  - apply handleFileUpload_frame.
Qed.

(** X19. A failed upload.  The page is in ERROR with the reason as its message.
    A file that does not pass validation changes nothing else: the file,
    the table and the mappings of an earlier upload stay on the page.  A
    file that the parser rejects becomes the file of the page, next to the
    table and the mappings of the earlier upload.  A table without a target
    column is kept on the page, with its mappings. *)
Theorem failed_upload_leaves (r : Reader) (uploadFile : FileObject) (w : World) :
  let w1 := Handlers.handleFileUpload r uploadFile w in
  state (app w1) = ERROR ->
  (isValid (Validation.validateFile uploadFile) = false /\
   errors (Validation.validateFile uploadFile) = [errorMessage (app w1)] /\
   file (app w1) = file (app w) /\ parsedData (app w1) = parsedData (app w) /\
   columnMappings (app w1) = columnMappings (app w) /\ store w1 = store w) \/
  (isValid (Validation.validateFile uploadFile) = true /\
   (exists e,
      Spec2.parseFile r (fileOf uploadFile) (Spec2.parsingStarts uploadFile w) =
        (Throw e, Spec2.parsingStarts uploadFile w) /\
      errorMessage (app w1) = messageOr "Failed to parse file" e) /\
   file (app w1) = Some (fileOf uploadFile) /\
   parsedData (app w1) = parsedData (app w) /\
   columnMappings (app w1) = columnMappings (app w) /\ store w1 = store w) \/
  (isValid (Validation.validateFile uploadFile) = true /\
   errorMessage (app w1) = Handlers.noTargetColumnsMessage /\
   file (app w1) = Some (fileOf uploadFile) /\
   exists pd,
     parsedData (app w1) = Some pd /\
     ColumnMatcher.hasTargetColumns (headers pd) = false /\
     columnMappings (app w1) = ColumnMatcher.findTargetColumns (headers pd)).
Proof.
  cbv zeta. intros Herr.
  destruct (handleFileUpload_cases r uploadFile w)
    as [[Hn E] | [(Hv & e & Hp & E) | (Hv & pd & w' & Hp & Hinto & [[Ht E] | [_ E]])]].
  - left. rewrite E. split; [exact Hn|].
    cbn [App.setErrorMessage App.setState App.updateApp app store
         file parsedData columnMappings errorMessage].
    conjs; try reflexivity.
    destruct (validateFile_rejected uploadFile Hn) as (message & -> & _ & -> & _).
    reflexivity.
  - right. left. rewrite E. split; [exact Hv|].
    split; [exists e; split; [exact Hp | reflexivity]|].
    conjs; reflexivity.
  - right. right. rewrite E. destruct Hinto as (Happ & _).
    cbn [App.setErrorMessage App.setState Spec2.tableLoaded Handlers.setColumnMappings
         Handlers.setParsedData App.updateApp app store file parsedData
         columnMappings errorMessage].
    rewrite Happ. conjs; try first [reflexivity | assumption].
    exists pd. conjs; try first [reflexivity | assumption].
  - rewrite E in Herr. discriminate Herr.
Qed.

Lemma failed_upload_leaves_witness :
  (isValid (Validation.validateFile Sample2.workbookFile) = false /\
   errors (Validation.validateFile Sample2.workbookFile) =
     [errorMessage
        (app (Handlers.handleFileUpload Sample2.reader Sample2.workbookFile
                Sample.people))] /\
   file (app (Handlers.handleFileUpload Sample2.reader Sample2.workbookFile
                Sample.people)) = file (app Sample.people) /\
   parsedData (app (Handlers.handleFileUpload Sample2.reader Sample2.workbookFile
                      Sample.people)) = parsedData (app Sample.people) /\
   columnMappings (app (Handlers.handleFileUpload Sample2.reader Sample2.workbookFile
                          Sample.people)) = columnMappings (app Sample.people) /\
   store (Handlers.handleFileUpload Sample2.reader Sample2.workbookFile Sample.people) =
     store Sample.people) \/
  (isValid (Validation.validateFile Sample2.workbookFile) = true /\
   (exists e,
      Spec2.parseFile Sample2.reader (fileOf Sample2.workbookFile)
        (Spec2.parsingStarts Sample2.workbookFile Sample.people) =
        (Throw e, Spec2.parsingStarts Sample2.workbookFile Sample.people) /\
      errorMessage
        (app (Handlers.handleFileUpload Sample2.reader Sample2.workbookFile
                Sample.people)) = messageOr "Failed to parse file" e) /\
   file (app (Handlers.handleFileUpload Sample2.reader Sample2.workbookFile
                Sample.people)) = Some (fileOf Sample2.workbookFile) /\
   parsedData (app (Handlers.handleFileUpload Sample2.reader Sample2.workbookFile
                      Sample.people)) = parsedData (app Sample.people) /\
   columnMappings (app (Handlers.handleFileUpload Sample2.reader Sample2.workbookFile
                          Sample.people)) = columnMappings (app Sample.people) /\
   store (Handlers.handleFileUpload Sample2.reader Sample2.workbookFile Sample.people) =
     store Sample.people) \/
  (isValid (Validation.validateFile Sample2.workbookFile) = true /\
   errorMessage
     (app (Handlers.handleFileUpload Sample2.reader Sample2.workbookFile
             Sample.people)) = Handlers.noTargetColumnsMessage /\
   file (app (Handlers.handleFileUpload Sample2.reader Sample2.workbookFile
                Sample.people)) = Some (fileOf Sample2.workbookFile) /\
   exists pd,
     parsedData (app (Handlers.handleFileUpload Sample2.reader Sample2.workbookFile
                        Sample.people)) = Some pd /\
     ColumnMatcher.hasTargetColumns (headers pd) = false /\
     columnMappings (app (Handlers.handleFileUpload Sample2.reader Sample2.workbookFile
                            Sample.people)) =
       ColumnMatcher.findTargetColumns (headers pd)).
Proof.
  apply (failed_upload_leaves Sample2.reader Sample2.workbookFile Sample.people).
  vm_compute. reflexivity.
Defined.

(** * The pages of a session *)

Section PageFacts.
Import App Handlers Spec2 RunSpec Page.

Lemma handleEncrypt_ends h w pd f :
  parsedData (app w) = Some pd -> file (app w) = Some f ->
  state (app (handleEncrypt h w)) = COMPLETE \/
  state (app (handleEncrypt h w)) = ERROR.
Proof.
  intros Hpd Hf.
  destruct (handleEncrypt_effect h w pd f Hpd Hf)
    as (ss & ran & rest & evs & _ & _ & _ & _ & _ & _ & _ & _ & Hend).
  destruct Hend as [(Hfail & _) | (Hsucc & _)]; [right | left]; assumption.
Qed.

(** What holds of every page of a session. *)
Lemma reachable_invariant w :
  reachable w ->
  (state (app w) <> PARSING /\ state (app w) <> ENCRYPTING) /\
  (state (app w) = READY ->
   exists f pd,
     file (app w) = Some f /\ parsedData (app w) = Some pd /\
     FileParser.detectFileType f <> FileParser.unknown /\
     columnMappings (app w) = ColumnMatcher.findTargetColumns (headers pd) /\
     ColumnMatcher.hasTargetColumns (headers pd) = true /\
     List.NoDup (rows pd) /\
     (forall l, In l (rows pd) -> is_Some (store w !! l)) /\
     rowCount pd = length (rows pd) /\ columnCount pd = length (headers pd)).
Proof.
  assert (Hupload : forall r uploadFile w0,
    (state (app (handleFileUpload r uploadFile w0)) <> PARSING /\
     state (app (handleFileUpload r uploadFile w0)) <> ENCRYPTING) /\
    (state (app (handleFileUpload r uploadFile w0)) = READY ->
     exists f pd,
       file (app (handleFileUpload r uploadFile w0)) = Some f /\
       parsedData (app (handleFileUpload r uploadFile w0)) = Some pd /\
       FileParser.detectFileType f <> FileParser.unknown /\
       columnMappings (app (handleFileUpload r uploadFile w0)) =
         ColumnMatcher.findTargetColumns (headers pd) /\
       ColumnMatcher.hasTargetColumns (headers pd) = true /\
       List.NoDup (rows pd) /\
       (forall l, In l (rows pd) ->
                  is_Some (store (handleFileUpload r uploadFile w0) !! l)) /\
       rowCount pd = length (rows pd) /\ columnCount pd = length (headers pd))).
  { intros r uploadFile w0. split.
    - destruct (handleFileUpload_cases r uploadFile w0)
        as [[_ E] | [(_ & e & _ & E) | (_ & pd & w' & _ & _ & [[_ E] | [_ E]])]];
        rewrite E; split; discriminate.
    - intros Hready.
      destruct (handleFileUpload_ready r uploadFile w0 Hready)
        as (Hv%validateFile_kind & pd & w' & _ & Hinto & Ht & E).
      destruct Hinto as (Happ & _ & Hrc & Hcc & Hnd & Hnew & _).
      exists (fileOf uploadFile), pd. rewrite E.
      cbn [setState tableLoaded setColumnMappings setParsedData updateApp
           app store file parsedData columnMappings].
      rewrite Happ. conjs; try first [reflexivity | assumption].
      intros l Hin. apply (Hnew l Hin). }
  induction 1 as [|r h a w Hreach IH Hoff].
  - split; [split; discriminate | discriminate].
  - destruct IH as [[Hnp Hne] Hready].
    destruct a as [uploadFile | [uploadFile|] | | |]; cbn [perform].
    + apply Hupload.
    + rewrite handleFileInputChange_upload. apply Hupload.
    + cbn [handleFileInputChange]. split; [split; assumption | exact Hready].
    + split; [split; discriminate | discriminate].
    + cbn [offered] in Hoff.
      destruct (state (app w)) eqn:Hs; try discriminate Hoff.
      destruct (Hready eq_refl) as (f & pd & Hf & Hpd & _).
      destruct (handleEncrypt_ends h w pd f Hpd Hf) as [E | E]; rewrite E;
        (split; [split; discriminate | discriminate]).
    + split; [split; discriminate | discriminate].
Qed.

End PageFacts.

(** X20. The pages of a session.  Between two actions the page is never in
    PARSING or ENCRYPTING, and it always offers some control.  Whenever it
    offers the Encrypt button, it holds a file of a known kind and a table
    whose column mappings are those of its headers, with at least one
    target column; the rows of the table are distinct arrays that exist,
    and no two target mappings point at the same column.  So
    [handleEncrypt] never returns at its first line when the button is
    pressed, it never writes a file of unknown kind as CSV, and the runs
    it starts are runs over distinct rows and distinct target columns. *)
Theorem encrypt_button_needs (w : World) :
  Page.reachable w ->
  (state (app w) <> PARSING /\ state (app w) <> ENCRYPTING) /\
  (exists a, Page.offered (state (app w)) a = true) /\
  (Page.offered (state (app w)) Page.ClickEncrypt = true ->
   exists f pd,
     file (app w) = Some f /\ parsedData (app w) = Some pd /\
     FileParser.detectFileType f <> FileParser.unknown /\
     columnMappings (app w) = ColumnMatcher.findTargetColumns (headers pd) /\
     ColumnMatcher.hasTargetColumns (headers pd) = true /\
     List.NoDup (rows pd) /\
     RunSpec.distinctTargets (columnMappings (app w)) /\
     (forall l, In l (rows pd) -> is_Some (store w !! l)) /\
     rowCount pd = length (rows pd) /\ columnCount pd = length (headers pd)).
Proof.
  intros Hreach.
  destruct (reachable_invariant w Hreach) as [[Hnp Hne] Hready].
  split; [split; assumption|]. split.
  - destruct (state (app w)) eqn:Hs; try contradiction.
    + exists (Page.InputChange None). reflexivity.
    + exists Page.ClickEncrypt. reflexivity.
    + exists Page.ClickReset. reflexivity.
    + exists Page.ClickReset. reflexivity.
  - intros Hoff. cbn [Page.offered] in Hoff.
    destruct (state (app w)) eqn:Hs; try discriminate Hoff.
    destruct (Hready eq_refl)
      as (f & pd & Hf & Hpd & Hkind & Hcm & Ht & Hnd & Hst & Hrc & Hcc).
    exists f, pd. conjs; try assumption.
    rewrite Hcm. apply findTargetColumns_distinct.
Qed.

Lemma encrypt_button_needs_witness :
  (state (app Sample2.uploaded) <> PARSING /\
   state (app Sample2.uploaded) <> ENCRYPTING) /\
  (exists a, Page.offered (state (app Sample2.uploaded)) a = true) /\
  (Page.offered (state (app Sample2.uploaded)) Page.ClickEncrypt = true ->
   exists f pd,
     file (app Sample2.uploaded) = Some f /\
     parsedData (app Sample2.uploaded) = Some pd /\
     FileParser.detectFileType f <> FileParser.unknown /\
     columnMappings (app Sample2.uploaded) =
       ColumnMatcher.findTargetColumns (headers pd) /\
     ColumnMatcher.hasTargetColumns (headers pd) = true /\
     List.NoDup (rows pd) /\
     RunSpec.distinctTargets (columnMappings (app Sample2.uploaded)) /\
     (forall l, In l (rows pd) -> is_Some (store Sample2.uploaded !! l)) /\
     rowCount pd = length (rows pd) /\ columnCount pd = length (headers pd)).
Proof.
  apply (encrypt_button_needs Sample2.uploaded).
  unfold Sample2.uploaded. apply Page.reach_step.
  - apply Page.reach_initial.
  - reflexivity.
Defined.

(** * From the upload of a CSV file to the download *)

Section PipelineFacts.
Import App Handlers Spec2 RunSpec.


End PipelineFacts.



(** * Further properties of the matcher, the run and the file input *)

Section MoreFacts.
Import App Schedule RunSpec ColumnMatcher ColumnSpec Spec2.
Local Open Scope list_scope.

Lemma mapHeader_targetHeader index header :
  isTarget (mapHeader index header) = targetHeader header.
Proof.
  rewrite mapHeader_isTarget. unfold targetHeader.
  rewrite inherited_plain by apply normalizeColumnName_plain. reflexivity.
Qed.

Lemma existsb_imap_target (g : nat -> string -> ColumnMapping) hs :
  (forall i h, isTarget (g i h) = targetHeader h) ->
  existsb isTarget (imap g hs) = existsb targetHeader hs.
Proof.
  revert g. induction hs as [|x hs IH]; intros g Hg; [reflexivity|].
  cbn [imap existsb]. rewrite Hg, IH; [reflexivity|].
  intros i h. apply Hg.
Qed.

Lemma hasTargetColumns_existsb hs :
  hasTargetColumns hs = existsb targetHeader hs.
Proof.
  unfold hasTargetColumns, findTargetColumns.
  apply existsb_imap_target. intros i h. apply mapHeader_targetHeader.
Qed.

(** The table after a run, cell by cell. *)
Lemma run_cells h w pd f :
  parsedData (app w) = Some pd -> file (app w) = Some f ->
  List.NoDup (rows pd) -> distinctTargets (columnMappings (app w)) ->
  exists ran rest,
    tableSteps (columnMappings (app w)) (rows pd) = ran ++ rest /\
    (succeeded (handleEncrypt h w) -> rest = []) /\
    forall row j,
      cellAt (store (handleEncrypt h w)) row j =
      if existsb (touches row j) ran
      then cellAfter (digestFault h) <$> cellAt (store w) row j
      else cellAt (store w) row j.
Proof.
  intros Hpd Hf Hnd Hms.
  destruct (handleEncrypt_effect h w pd f Hpd Hf)
    as (ss & ran & rest & evs & Hcells & Hss & Hst & _ & _ & _ & _ & _ & Hend).
  exists (cellsOf ran), (cellsOf rest). conjs.
  - rewrite <- cellsOf_app, <- Hss. symmetry. exact Hcells.
  - intros Hsucc.
    destruct Hend as [(Hfail & _) | (_ & -> & _)]; [|reflexivity].
    unfold failed in Hfail. unfold succeeded in Hsucc. congruence.
  - intros row j. rewrite Hst, existsb_touches_cellsOf.
    apply applySteps_cellAt.
    eapply Nat.le_trans; [apply (touchCount_prefix _ _ ran rest)|].
    rewrite <- Hss, <- touchCount_cellsOf, Hcells.
    apply tableSteps_once; assumption.
Qed.

End MoreFacts.

(** X22. [hasTargetColumns] depends on which headers there are, not on their
    order or number: it holds exactly when some header normalizes to an
    alias or to "constructor" (the name that the lookup inherits from
    [Object.prototype]), and for two lists of headers put together it
    holds when it holds for one of them. *)
Theorem hasTargetColumns_iff (headers : list string) :
  (ColumnMatcher.hasTargetColumns headers = true <->
   exists header,
     In header headers /\
     (ColumnSpec.isAlias (ColumnMatcher.normalizeColumnName header) = true \/
      ColumnMatcher.normalizeColumnName header = "constructor")) /\
  (forall more,
      ColumnMatcher.hasTargetColumns (headers ++ more) =
      ColumnMatcher.hasTargetColumns headers || ColumnMatcher.hasTargetColumns more).
Proof.
  split.
  - rewrite hasTargetColumns_existsb, existsb_exists. unfold Spec2.targetHeader.
    split; intros (header & Hin & Hh); exists header; (split; [exact Hin|]).
    + apply orb_prop in Hh as [Ha | Hc]; [left; exact Ha | right].
      apply String.eqb_eq, Hc.
    + destruct Hh as [-> | ->]; [reflexivity | apply orb_true_r].
  - intros more. rewrite !hasTargetColumns_existsb. apply existsb_app.
Qed.

(** X23. The table after any run, successful or not.  Over distinct rows and
    distinct target columns, the run has worked through a first part of the
    cells of the table, taken row by row and within a row mapping by
    mapping, and through all of them if it succeeded.  A cell of that part
    holds what its step left there; every other cell of every row is as it
    was before the run. *)
Theorem handleEncrypt_processed_part (h : Host) (w : World) (pd : ParsedData)
    (f : File) :
  parsedData (app w) = Some pd -> file (app w) = Some f ->
  List.NoDup (rows pd) -> RunSpec.distinctTargets (columnMappings (app w)) ->
  exists ran rest,
    Schedule.tableSteps (columnMappings (app w)) (rows pd) = (ran ++ rest)%list /\
    (RunSpec.succeeded (App.handleEncrypt h w) -> rest = []) /\
    forall row j,
      RunSpec.cellAt (store (App.handleEncrypt h w)) row j =
      if existsb (RunSpec.touches row j) ran
      then RunSpec.cellAfter (digestFault h) <$> RunSpec.cellAt (store w) row j
      else RunSpec.cellAt (store w) row j.
Proof. exact (run_cells h w pd f). Qed.

Lemma handleEncrypt_processed_part_witness :
  exists ran rest,
    Schedule.tableSteps (columnMappings (app Sample.people))
      [0%nat; 1%nat] = (ran ++ rest)%list /\
    (RunSpec.succeeded (App.handleEncrypt Sample.hostDigestFails Sample.people) ->
     rest = []) /\
    forall row j,
      RunSpec.cellAt
        (store (App.handleEncrypt Sample.hostDigestFails Sample.people)) row j =
      if existsb (RunSpec.touches row j) ran
      then RunSpec.cellAfter (digestFault Sample.hostDigestFails)
             <$> RunSpec.cellAt (store Sample.people) row j
      else RunSpec.cellAt (store Sample.people) row j.
Proof.
  apply (handleEncrypt_processed_part Sample.hostDigestFails Sample.people
           (MkParsedData ["First Name"; "Email"; "Age"] [0%nat; 1%nat] None 2 3)
           (MkFile "people.csv" "text/csv")).
  - reflexivity.
  - reflexivity.
  - cbn [rows]. distinct_numerals.
  - apply findTargetColumns_distinct.
Defined.

(** X24. The file input does for the first of the selected files exactly what
    the upload area does for a dropped file, and nothing when no file was
    selected: the two copies of the upload code in [App] agree. *)
Theorem handleFileInputChange_same (r : Reader) (files : option FileObject)
    (w : World) :
  Handlers.handleFileInputChange r files w =
  match files with
  | Some selectedFile => Handlers.handleFileUpload r selectedFile w
  | None => w
  end.
Proof.
  destruct files as [selectedFile|]; [|reflexivity].
  apply handleFileInputChange_upload.
Qed.

(** * Further worked examples, from the tests of the repository *)

Example validateFile_tests :
  let xlsx := "application/vnd.openxmlformats-officedocument.spreadsheetml.sheet" in
  isValid (Validation.validateFileSize (MkFileObject (MkFile "test.xlsx" xlsx) 104857600))
    = true /\
  Validation.validateFileSize (MkFileObject (MkFile "test.xlsx" xlsx) 104857601) =
    {| isValid := false;
       errors := ["File size exceeds 100MB limit. Your file is 100.0MB. Please upload a smaller file."] |} /\
  isValid (Validation.validateFileType (MkFileObject (MkFile "test.xls" "application/vnd.ms-excel") 0))
    = true /\
  Validation.validateFileType (MkFileObject (MkFile "test.pdf" "application/pdf") 0) =
    {| isValid := false;
       errors := ["Please upload a valid Excel (.xlsx, .xls) or CSV file. File type '.pdf' is not supported."] |} /\
  isValid (Validation.validateFileType
             (MkFileObject (MkFile "test" "application/octet-stream") 0)) = false /\
  isValid (Validation.validateFileType (MkFileObject (MkFile "test.Csv" "text/csv") 0))
    = true /\
  isValid (Validation.validateFile (MkFileObject (MkFile "test.XLSX" "") 4)) = true.
Proof. vm_compute. repeat split. Qed.

Example detectFileType_tests :
  FileParser.detectFileType
    (MkFile "test.xlsx" "application/vnd.openxmlformats-officedocument.spreadsheetml.sheet")
    = FileParser.excel /\
  FileParser.detectFileType (MkFile "test.xls" "application/vnd.ms-excel")
    = FileParser.excel /\
  FileParser.detectFileType (MkFile "test.csv" "text/csv") = FileParser.csv /\
  FileParser.detectFileType (MkFile "test.pdf" "application/pdf") = FileParser.unknown.
Proof. vm_compute. repeat split. Qed.

Example parseCSV_headers_only :
  Parsing.parseCSV
    {| papaParse := fun _ => PapaComplete [["Header1"; "Header2"; "Header3"]];
       excelSheet := fun _ => Throw (ErrorObject "Failed to read file") |}
    (MkFile "test.csv" "text/csv") Page.initial =
  (Ok (MkParsedData ["Header1"; "Header2"; "Header3"] [] None 0 3), Page.initial).
Proof. vm_compute. reflexivity. Qed.

Example parseCSV_blank_file :
  (Parsing.parseCSV
     {| papaParse := fun _ => PapaComplete [[""]];
        excelSheet := fun _ => Throw (ErrorObject "Failed to read file") |}
     (MkFile "test.csv" "text/csv") Page.initial).1 =
  Throw (ErrorObject "File is empty or contains no data rows.").
Proof. vm_compute. reflexivity. Qed.

(** The session of [Sample2.uploaded], then a press on the Encrypt
    button. *)
Example upload_and_encrypt :
  state (app Sample2.uploaded) = READY /\
  rows <$> parsedData (app Sample2.uploaded) = Some [0%nat; 1%nat] /\
  RunSpec.downloads
    (trace (Page.perform Sample2.reader Sample.host Page.ClickEncrypt Sample2.uploaded)) =
  [ ({| blobType := "text/csv;charset=utf-8;";
        blobSheetName := None;
        blobHeaders := ["First Name"; "Email"; "Age"];
        blobRows :=
          [ [CString "96d9632f363564cc3032521409cf22a852f2032eec099ed5967c0d000cec607a";
             CString "c68b7a430ac8dee9676ec77a387194e23f234d024e03d844050cf6c01775c8f6";
             CString "42"];
            [CString ""; CNull; CString "7"] ] |},
     "people_2025-10-02_encrypted.csv") ].
Proof. vm_compute. repeat split. Qed.
